(** * Verification of ptsa's [MorletWaveletFilter]

    A shallow embedding of [ptsa/data/filters/MorletWaveletFilter.py]:
    the wavelet bank ([compute_wavelet_ffts]), the FFT convolution loop of
    [filter], the power / phase strategies, and the assembly of the labelled
    outputs ([build_output_arrays]).

    Conventions of the embedding.
    - NumPy floating point (float32/float64, complex64/complex128) is
      idealised by exact real and complex arithmetic; the one place where the
      code changes precision, the copy into the complex64 buffer, is kept as
      an explicit cast parameter [to_complex64].  Where a property depends
      on precision, rounding to nearest is given by [Float], the strategies
      as single precision carries them out by [Single], and the element
      type of every array by [Dtype].
    - Python exceptions are the [Raise] outcome of the [result] monad; the
      filter object, standard output and the clock are the [state] of the
      monad [M].
    - What the module imports from files that are not among the sources
      ([morlet_multi], [ResampleFilter]) is a parameter of the development.
    - The module is written for Python 2 (its sibling modules use the print
      statement), hence [/] on integers is floor division. *)

From Stdlib Require Import Reals Lra ZArith List Lia.
From stdpp Require Import gmap strings list fin_maps pretty.

Local Open Scope Z_scope.

(** ** Complex numbers *)

Module Complex.

(** A NumPy complex scalar: real and imaginary part. *)
Definition C : Type := (R * R)%type.

Definition real (c : C) : R := fst c.
Definition imag (c : C) : R := snd c.

Definition C0 : C := (0, 0)%R.
Definition Cadd (a b : C) : C := (real a + real b, imag a + imag b)%R.
Definition Cmul (a b : C) : C :=
  (real a * real b - imag a * imag b, real a * imag b + imag a * real b)%R.
Definition Cscale (r : R) (a : C) : C := (r * real a, r * imag a)%R.

(** [exp(i*theta)] *)
Definition cis (theta : R) : C := (cos theta, sin theta).

Definition Csum (l : list C) : C := fold_right Cadd C0 l.

(** [np.abs] on a complex scalar: the modulus. *)
Definition np_abs (c : C) : R := sqrt (real c * real c + imag c * imag c).

(** [np.arctan2(y, x)], the four-quadrant arctangent. *)
Definition arctan2 (y x : R) : R :=
  if Rlt_dec 0 x then atan (y / x)
  else if Rlt_dec x 0 then
    if Rle_dec 0 y then (atan (y / x) + PI)%R else (atan (y / x) - PI)%R
  else if Rlt_dec 0 y then (PI / 2)%R
  else if Rlt_dec y 0 then (- (PI / 2))%R
  else 0%R.

(** [np.angle(z)] is [arctan2(z.imag, z.real)]. *)
Definition np_angle (c : C) : R := arctan2 (imag c) (real c).

End Complex.
Import Complex.

(** ** The three power / phase strategies

    Each takes the complex64 coefficient buffer and returns the pair
    (power row or None, phase row or None). *)

Definition compute_power (wavelet_coef_array : list C)
  : option (list R) * option (list R) :=
  (Some (map (fun c => (np_abs c ^ 2)%R) wavelet_coef_array), None).

Definition compute_phase (wavelet_coef_array : list C)
  : option (list R) * option (list R) :=
  (None, Some (map np_angle wavelet_coef_array)).

Definition compute_power_and_phase (wavelet_coef_array : list C)
  : option (list R) * option (list R) :=
  (Some (map (fun c => (real c ^ 2 + imag c ^ 2)%R) wavelet_coef_array),
   Some (map np_angle wavelet_coef_array)).

(** ** Single and double precision *)

Module Float.

(** [floor(log2 |x|)]: the exponent of the binade of [x]. *)
Definition mag (x : R) : Z := Int_part (ln (Rabs x) / ln 2).

(** The nearest integer, ties to even. *)
Definition nearest_even (r : R) : Z :=
  let f := Int_part r in
  if Rlt_dec (r - IZR f) (1 / 2) then f
  else if Rlt_dec (1 / 2) (r - IZR f) then f + 1
  else if Z.even f then f else f + 1.

(** IEEE 754 rounding to nearest, ties to even, to a significand of
    [prec] bits.  The exponent range is taken unbounded: overflow to
    infinity and the subnormal numbers are left out. *)
Definition round (prec : Z) (x : R) : R :=
  if Req_dec_T x 0 then 0%R
  else
    let ulp := powerRZ 2 (mag x - prec + 1) in
    (IZR (nearest_even (x / ulp)) * ulp)%R.

(** [np.float32(x)] and [np.float64(x)] *)
Definition float32 (x : R) : R := round 24 x.
Definition float64 (x : R) : R := round 53 x.

(** [np.complex64(c)]: both parts in single precision. *)
Definition complex64 (c : C) : C := (float32 (real c), float32 (imag c)).

End Float.

(** The strategies as NumPy carries them out on the complex64 buffer:
    every operation on float32 operands returns the float32 nearest to
    its exact result.  ([np.abs] on complex64 is [hypotf] and [np.angle]
    is [arctan2f], taken as correctly rounded; [x ** 2] is the product
    [x * x].) *)
Module Single.

Definition np_abs (c : C) : R := Float.float32 (Complex.np_abs c).

Definition square (x : R) : R := Float.float32 (x * x).

Definition np_angle (c : C) : R := Float.float32 (Complex.np_angle c).

Definition compute_power (wavelet_coef_array : list C)
  : option (list R) * option (list R) :=
  (Some (map (fun c => square (np_abs c)) wavelet_coef_array), None).

Definition compute_phase (wavelet_coef_array : list C)
  : option (list R) * option (list R) :=
  (None, Some (map np_angle wavelet_coef_array)).

Definition compute_power_and_phase (wavelet_coef_array : list C)
  : option (list R) * option (list R) :=
  (Some (map (fun c =>
                Float.float32 (square (real c) + square (imag c))%R)
             wavelet_coef_array),
   Some (map np_angle wavelet_coef_array)).

End Single.

(** ** Element types

    The element type of each array [compute_wavelet_ffts] and [filter]
    hold, as a function of the element types of the kernels and of the
    input series. *)

Module Dtype.

Inductive dtype : Type :=
| int64 | float32 | float64 | complex64 | complex128.

(** Floating point of single precision. *)
Definition single (d : dtype) : bool :=
  match d with
  | float32 | complex64 => true
  | _ => false
  end.

Definition complex (d : dtype) : bool :=
  match d with
  | complex64 | complex128 => true
  | _ => false
  end.

(** [np.result_type(a, b)]: the element type of [a * b] and [a + b] for
    two arrays. *)
Definition result_type (a b : dtype) : dtype :=
  if complex a || complex b then
    if single a && single b then complex64 else complex128
  else
    match a, b with
    | int64, int64 => int64
    | _, _ => if single a && single b then float32 else float64
    end.

(** [scipy.fftpack.fft] and [ifft] run their single precision routines
    on float32 and complex64 input and their double precision routines
    on every other input; the outcome is complex of that precision. *)
Definition fft (x : dtype) : dtype :=
  if single x then complex64 else complex128.

(** [a[...] = b]: the items of [b] are cast to the element type of [a]. *)
Definition setitem (a b : dtype) : dtype := a.

(** [np.abs], [np.angle], [.real] and [.imag] of a floating point array
    are real, of the precision of the array. *)
Definition real_of (d : dtype) : dtype :=
  match d with
  | complex64 => float32
  | complex128 => float64
  | d => d
  end.

(** [wavelet_fft_array], allocated with [dtype=np.complex] and filled
    row by row with [fft(wavelet, convolution_size_pow2)]. *)
Definition wavelet_fft_array (wavelet : dtype) : dtype :=
  setitem complex128 (fft wavelet).

(** [signal_fft = fft(signal, convolution_size_pow2)] *)
Definition signal_fft (signal : dtype) : dtype := fft signal.

(** [signal_wavelet_conv = ifft(wavelet_fft_array[w] * signal_fft)] *)
Definition signal_wavelet_conv (wavelet signal : dtype) : dtype :=
  fft (result_type (wavelet_fft_array wavelet) (signal_fft signal)).

(** [wavelet_coef_single_array], allocated with [dtype=np.complex64] and
    filled with [wavelet_coef_single_array[:] = signal_wavelet_conv[...]]. *)
Definition wavelet_coef_single_array (wavelet signal : dtype) : dtype :=
  setitem complex64 (signal_wavelet_conv wavelet signal).

(** The element types of the rows the three strategies return. *)
Definition compute_power (wavelet_coef_array : dtype) : dtype :=
  real_of wavelet_coef_array.

Definition compute_phase (wavelet_coef_array : dtype) : dtype :=
  real_of wavelet_coef_array.

Definition compute_power_and_phase (wavelet_coef_array : dtype)
  : dtype * dtype :=
  (result_type (real_of wavelet_coef_array) (real_of wavelet_coef_array),
   real_of wavelet_coef_array).

(** The output arrays, allocated with [array_type = np.float32] and
    filled by [store]. *)
Definition wavelet_pow_array (pow_array_single : dtype) : dtype :=
  setitem float32 pow_array_single.

End Dtype.

(** ** Python exceptions *)

Inductive exn : Type :=
| ValueError (msg : string)
| KeyError (key : string)
| IndexError (msg : string)
| TypeError (msg : string)
| AttributeError (name : string).

Inductive result (A : Type) : Type :=
| Ok (a : A)
| Raise (e : exn).
Arguments Ok {A} a.
Arguments Raise {A} e.

#[global] Instance result_ret : MRet result := fun A a => Ok a.
#[global] Instance result_bind : MBind result := fun A B f m =>
  match m with
  | Ok a => f a
  | Raise e => Raise e
  end.

Definition is_Ok {A} (r : result A) : Prop :=
  match r with Ok _ => True | Raise _ => False end.

(** Left-to-right loop whose body may raise: [for x in xs: acc = f acc x]. *)
Fixpoint for_each {A B} (f : A -> B -> result A) (acc : A) (xs : list B)
  : result A :=
  match xs with
  | [] => Ok acc
  | x :: xs' => acc' ← f acc x; for_each f acc' xs'
  end.

(** ** Python sequences *)

Module Py.

(** Clamp a slice bound the way CPython does: a negative bound counts
    from the end, and the outcome is clipped to [0, len]. *)
Definition slice_bound (len i : Z) : Z :=
  if i <? 0 then Z.max 0 (i + len) else Z.min i len.

(** [l[start:stop]] *)
Definition slice {A} (l : list A) (start stop : Z) : list A :=
  let len := Z.of_nat (length l) in
  let a := slice_bound len start in
  let b := slice_bound len stop in
  firstn (Z.to_nat (b - a)) (skipn (Z.to_nat a) l).

(** [l.index(x)]: position of the first occurrence. *)
Fixpoint index (x : string) (l : list string) : result nat :=
  match l with
  | [] => Raise (ValueError ("'" +:+ x +:+ "' is not in list"))
  | y :: l' => if String.eqb x y then Ok O else i ← index x l'; Ok (S i)
  end.

(** [l.insert(i, x)] *)
Definition insert {A} (i : Z) (x : A) (l : list A) : list A :=
  let k := Z.to_nat (slice_bound (Z.of_nat (length l)) i) in
  firstn k l ++ x :: skipn k l.

(** [max(l)] on integers; raises on the empty sequence. *)
Definition max (l : list Z) : result Z :=
  match l with
  | [] => Raise (ValueError "max() arg is an empty sequence")
  | x :: l' => Ok (fold_left Z.max l' x)
  end.

(** [itertools.product] of the ranges, in lexicographic order. *)
Fixpoint product (ranges : list (list nat)) : list (list nat) :=
  match ranges with
  | [] => [[]]
  | r :: rs => flat_map (fun i => map (cons i) (product rs)) r
  end.

(** ['%s' % n] for an integer. *)
Definition str (n : Z) : string := pretty n.

End Py.

(** ** scipy.fftpack *)

Module Fftpack.

(** Truncate or zero-pad to [n] samples. *)
Definition fit (n : nat) (x : list C) : list C :=
  firstn n x ++ repeat C0 (n - length x).

Definition twiddle (sign : R) (n j k : nat) : C :=
  cis (sign * 2 * PI * INR j * INR k / INR n).

(** [fft(x, n)]: y[k] = sum_j x[j] exp(-2 pi i j k / n). *)
Definition fft (x : list C) (n : Z) : list C :=
  let m := Z.to_nat n in
  let xs := fit m x in
  map (fun k =>
         Csum (map (fun j => Cmul (nth j xs C0) (twiddle (-1) m j k))
                   (seq 0 m)))
      (seq 0 m).

(** [ifft(y)]: x[j] = 1/n sum_k y[k] exp(2 pi i j k / n). *)
Definition ifft (y : list C) : list C :=
  let m := length y in
  map (fun j =>
         Cscale (/ INR m)
           (Csum (map (fun k => Cmul (nth k y C0) (twiddle 1 m j k))
                      (seq 0 m))))
      (seq 0 m).

End Fftpack.
Import Fftpack.

(** ** ptsa.wavelet *)

(** Modelled from the spec: [ptsa.wavelet.next_pow2] is not among the
    sources.  The spec describes [convolutionSizePow2] as the next power of
    two at or above the convolution size; the code obtains it as
    [2 ** next_pow2(n)], so [next_pow2 n] is the least exponent [p] with
    [n <= 2 ^ p]. *)
Definition next_pow2 (n : Z) : Z := Z.log2_up n.

(** ** Arrays *)

(** A dense NumPy array: its shape and the item stored at each index. *)
Record ndarray (A : Type) : Type := mk_ndarray {
  nd_shape : list nat;
  nd_item : list nat -> A
}.
Arguments mk_ndarray {A} _ _.
Arguments nd_shape {A} _.
Arguments nd_item {A} _ _.

(** [np.empty(shape)]: an array none of whose items holds a value yet.  The
    items of such an array are optional: [None] is memory never written. *)
Definition np_empty {A} (shape : list nat) : ndarray (option A) :=
  mk_ndarray shape (fun _ => None).

Fixpoint in_bounds (idx shape : list nat) : bool :=
  match idx, shape with
  | [], [] => true
  | i :: idx', n :: shape' => (i <? n)%nat && in_bounds idx' shape'
  | _, _ => false
  end.

(** [a[idx]] for a tuple addressing all axes but the last: the 1-D row. *)
Definition getrow {A} (a : ndarray A) (idx : list nat) : list A :=
  map (fun t => nd_item a (idx ++ [t])) (seq 0 (List.last (nd_shape a) O)).

(** [a[idx] = row] for a tuple addressing all axes but the last.  The row
    must match the last axis or have one element (broadcast). *)
Definition setrow {A} (a : ndarray A) (idx : list nat) (row : list A)
  : result (ndarray A) :=
  if negb (in_bounds idx (removelast (nd_shape a))) then
    Raise (IndexError "index is out of bounds")
  else
    let n := List.last (nd_shape a) O in
    if (length row =? n)%nat then
      Ok (mk_ndarray (nd_shape a)
            (fun i => if decide (removelast i = idx /\ i <> [])
                      then nth (List.last i O) row (nd_item a i)
                      else nd_item a i))
    else
      match row with
      | [x] =>
          Ok (mk_ndarray (nd_shape a)
                (fun i => if decide (removelast i = idx /\ i <> []
                                     /\ (List.last i O < n)%nat)
                          then x else nd_item a i))
      | _ => Raise (ValueError "could not broadcast input array")
      end.

(** [a.transpose(axes)]: axis [k] of the outcome is axis [axes[k]] of [a]. *)
Definition nd_transpose {A} (axes : list nat) (a : ndarray A) : ndarray A :=
  mk_ndarray
    (map (fun ax => nth ax (nd_shape a) O) axes)
    (fun idx =>
       nd_item a
         (map (fun old =>
                 match list_find (fun ax => ax = old) axes with
                 | Some (k, _) => nth k idx O
                 | None => O
                 end)
              (seq 0 (length axes)))).

(** ** Labelled arrays *)

(** A coordinate: the dimensions it is laid on (none for a scalar such as
    the sample rate) and its values. *)
Record coord : Type := mk_coord {
  coord_dims : list string;
  coord_values : list R
}.

(** Modelled from the spec: [ptsa.data.TimeSeriesX], a subclass of
    [xr.DataArray], is not among the sources.  The spec describes it as an
    N-dimensional labelled numeric array whose last axis is time, with
    dims, coordinates (among them a scalar sample rate and, optionally,
    per-sample offsets) and attributes.  The filter accepts any object with
    this interface; [isinstance_DataArray] records whether the object is an
    [xr.DataArray].  The checks xarray runs when such an array is built are
    not part of the model. *)
Record TimeSeriesX (A : Type) : Type := mk_TimeSeriesX {
  isinstance_DataArray : bool;
  values : ndarray A;
  dims : list string;
  coords : gmap string coord;
  attrs : gmap string string
}.
Arguments mk_TimeSeriesX {A} _ _ _ _ _.
Arguments isinstance_DataArray {A} _.
Arguments values {A} _.
Arguments dims {A} _.
Arguments coords {A} _.
Arguments attrs {A} _.

Definition shape {A} (ts : TimeSeriesX A) : list nat := nd_shape (values ts).

(** The arrays [filter] fills and returns hold single-precision reals; an
    item is [None] as long as nothing was written to it. *)
Abbreviation dense_array := (ndarray (option R)).
Abbreviation labelled_array := (TimeSeriesX (option R)).

(** [ts[key]] and [ts.coords[key]] for a string key.  (For a dimension
    that has no coordinate xarray answers with a default index instead of
    raising; inputs with such a dimension are outside the inputs
    considered, which carry a coordinate for every leading dimension.) *)
Definition getitem {A} (ts : TimeSeriesX A) (key : string) : result coord :=
  match coords ts !! key with
  | Some c => Ok c
  | None => Raise (KeyError key)
  end.

(** [c.shape[0]] *)
Definition shape0 (c : coord) : result nat :=
  match coord_dims c with
  | [] => Raise (IndexError "tuple index out of range")
  | _ => Ok (length (coord_values c))
  end.

(** [float(c)] *)
Definition float (c : coord) : result R :=
  match coord_values c with
  | [v] => Ok v
  | _ =>
      Raise (TypeError
               "only length-1 arrays can be converted to Python scalars")
  end.

(** [TimeSeriesX(array, coords=coords, dims=dims)] *)
Definition new_TimeSeriesX {A} (array : ndarray A)
    (coords : gmap string coord) (dims : list string) : TimeSeriesX A :=
  mk_TimeSeriesX true array dims coords ∅.

Fixpoint axes_of (new_dims old_dims : list string) : result (list nat) :=
  match new_dims with
  | [] => Ok []
  | d :: ds =>
      k ← Py.index d old_dims; ks ← axes_of ds old_dims; Ok (k :: ks)
  end.

(** [x.transpose] with the new order of the dims: the axes are reordered,
    coordinates and attributes are kept. *)
Definition transpose {A} (x : TimeSeriesX A) (new_dims : list string)
  : result (TimeSeriesX A) :=
  if negb (length new_dims =? length (dims x))%nat then
    Raise (ValueError
             "arguments to transpose must be permuted array dimensions")
  else
    axes ← axes_of new_dims (dims x);
    Ok (mk_TimeSeriesX (isinstance_DataArray x)
          (nd_transpose axes (values x)) new_dims (coords x) (attrs x)).

Definition set_attrs {A} (x : TimeSeriesX A) (a : gmap string string)
  : TimeSeriesX A :=
  mk_TimeSeriesX (isinstance_DataArray x) (values x) (dims x) (coords x) a.

(** [x[0, 0, :]]: the first two axes are fixed at 0, their coordinates
    become scalars. *)
Definition getitem_0_0 {A} (x : TimeSeriesX A) : result (TimeSeriesX A) :=
  if (length (shape x) <? 3)%nat then
    Raise (IndexError "too many indices for array")
  else
    let dropped := firstn 2 (dims x) in
    Ok (mk_TimeSeriesX (isinstance_DataArray x)
          (mk_ndarray (skipn 2 (shape x))
             (fun i => nd_item (values x) (O :: O :: i)))
          (skipn 2 (dims x))
          ((fun c =>
              if existsb (fun d => existsb (String.eqb d) dropped)
                         (coord_dims c)
              then mk_coord [] (firstn 1 (coord_values c))
              else c) <$> coords x)
          (attrs x)).

(** ** The filter object *)

Definition strategy : Type :=
  list C -> option (list R) * option (list R).

Record MorletWaveletFilter : Type := mk_filter {
  time_series : TimeSeriesX C;
  freqs : list R;
  width : Z;
  output : string;
  frequency_dim_pos : Z;
  verbose : bool;
  compute_power_and_phase_fcn : strategy;
  (** [resamplerate] is no descriptor of the class and [__init__] never
      sets it: it is present only if a caller attaches it to the object. *)
  resamplerate : option R
}.

(** The keyword arguments of the constructor, one per descriptor. *)
Record kwds : Type := mk_kwds {
  kw_freqs : option (list R);
  kw_width : option Z;
  kw_output : option string;
  kw_frequency_dim_pos : option Z;
  kw_verbose : option bool
}.

(** Modelled from the spec: [PropertiedObject.init_attrs] is not among the
    sources.  The spec describes it as attribute injection with declared
    defaults: each descriptor takes the keyword's value if one is given and
    its declared default otherwise ([freqs] empty, [width] 5, [output] the
    empty string, [frequency_dim_pos] 0, [verbose] true). *)
Definition init_attrs (kw : kwds)
  : list R * Z * string * Z * bool :=
  (default [] (kw_freqs kw), default 5 (kw_width kw),
   default EmptyString (kw_output kw),
   default 0 (kw_frequency_dim_pos kw), default true (kw_verbose kw)).

(** The branch of [__init__] that fixes the strategy from [output]. *)
Definition select_strategy (output : string) : strategy :=
  if String.eqb output "power" then compute_power
  else if String.eqb output "phase" then compute_phase
  else compute_power_and_phase.

(** [MorletWaveletFilter.__init__] *)
Definition init (time_series : TimeSeriesX C) (kw : kwds)
  : MorletWaveletFilter :=
  let '(freqs, width, output, frequency_dim_pos, verbose) := init_attrs kw in
  mk_filter time_series freqs width output frequency_dim_pos verbose
    (select_strategy output) None.

Definition set_frequency_dim_pos (p : Z) (s : MorletWaveletFilter)
  : MorletWaveletFilter :=
  mk_filter (time_series s) (freqs s) (width s) (output s) p (verbose s)
    (compute_power_and_phase_fcn s) (resamplerate s).

Definition set_verbose (b : bool) (s : MorletWaveletFilter)
  : MorletWaveletFilter :=
  mk_filter (time_series s) (freqs s) (width s) (output s)
    (frequency_dim_pos s) b (compute_power_and_phase_fcn s) (resamplerate s).

Definition set_resamplerate (r : option R) (s : MorletWaveletFilter)
  : MorletWaveletFilter :=
  mk_filter (time_series s) (freqs s) (width s) (output s)
    (frequency_dim_pos s) (verbose s) (compute_power_and_phase_fcn s) r.

(** [all_but_time_iterator]: every index tuple over the axes before the
    last, paired with the 1-D signal found there. *)
Definition all_but_time_iterator {A} (array : TimeSeriesX A)
  : list (list nat * list A) :=
  let sizes_except_time := removelast (shape array) in
  let ranges := map (seq 0) sizes_except_time in
  map (fun cart_prod_idx_tuple =>
         (cart_prod_idx_tuple, getrow (values array) cart_prod_idx_tuple))
      (Py.product ranges).

Definition get_data_iterator (s : MorletWaveletFilter)
  : list (list nat * list C) :=
  all_but_time_iterator (time_series s).

(** [store]: nothing happens for a row that was not computed. *)
Definition store (idx_tuple : list nat) (target_array : option (dense_array))
    (source_array : option (list R)) : result (option (dense_array)) :=
  match source_array with
  | None => Ok target_array
  | Some row =>
      match target_array with
      | None =>
          Raise (TypeError "'NoneType' object does not support item assignment")
      | Some a => a' ← setrow a idx_tuple (map Some row); Ok (Some a')
      end
  end.

(** [buf[:] = src] into the preallocated complex64 buffer of [n] items:
    every item is cast on the way in; a source of another length is only
    accepted if it has one item (broadcast). *)
Definition assign_buffer (cast : C -> C) (n : nat) (src : list C)
  : result (list C) :=
  if (length src =? n)%nat then Ok (map cast src)
  else match src with
       | [x] => Ok (repeat (cast x) n)
       | _ => Raise (ValueError "could not broadcast input array")
       end.

(** ** Effects: the filter object, standard output and the clock *)

(** What [print] wrote: the label and the elapsed time of the tuple. *)
Inductive printed : Type :=
| Printed (label : string) (elapsed : R).

Record state : Type := mk_state {
  self : MorletWaveletFilter;
  stdout : list printed;
  clock_reads : nat
}.

(** Computations that read and update [state] and may raise. *)
Definition M (A : Type) : Type := state -> result A * state.

#[global] Instance M_ret : MRet M := fun A a st => (Ok a, st).
#[global] Instance M_bind : MBind M := fun A B f m st =>
  match m st with
  | (Ok a, st') => f a st'
  | (Raise e, st') => (Raise e, st')
  end.

Definition lift {A} (r : result A) : M A := fun st => (r, st).

Definition get_self : M MorletWaveletFilter := fun st => (Ok (self st), st).

Definition put_frequency_dim_pos (p : Z) : M unit := fun st =>
  (Ok tt,
   mk_state (set_frequency_dim_pos p (self st)) (stdout st) (clock_reads st)).

Definition print (line : printed) : M unit := fun st =>
  (Ok tt, mk_state (self st) (stdout st ++ [line]) (clock_reads st)).

(** The trim window of kernel [w], from its valid convolution length. *)
Definition start_offset (convolution_size time_axis_size : Z) : Z :=
  (convolution_size - time_axis_size) / 2.

Definition end_offset (convolution_size time_axis_size : Z) : Z :=
  start_offset convolution_size time_axis_size + time_axis_size.

Definition ValueError_too_short (time_series_length s_w : Z) : exn :=
  ValueError
    ("Time series length (l_ts=" +:+ Py.str time_series_length
     +:+ ") is shorter than maximum wavelet length (l_w=" +:+ Py.str s_w
     +:+ "). Please use longer time series or increase lowest wavelet frequency ").

(** ** A small input

    One channel, one event, two time samples at 2 Hz; one frequency, whose
    kernel has two samples, as many as the time axis. *)

Module Example.

Definition wavelet : list C := [(1, 0); (0, 1)]%R.

Definition morlet_multi (freqs : list R) (widths : Z) (samplerates : R)
  : list (list C) :=
  map (fun _ : R => wavelet) freqs.

Definition time_axis : coord := mk_coord ["time"] [0; 1]%R.

Definition time_series : TimeSeriesX C :=
  mk_TimeSeriesX true
    (mk_ndarray [1; 1; 2]%nat (fun _ => (1, 0)%R))
    ["channels"; "events"; "time"]
    (<["channels" := mk_coord ["channels"] [0%R]]>
       (<["events" := mk_coord ["events"] [0%R]]>
          (<["time" := time_axis]>
             (<["samplerate" := mk_coord [] [2%R]]> ∅))))
    ∅.

(** [MorletWaveletFilter(time_series, freqs=np.array([10.]),
    frequency_dim_pos=-1)] *)
Definition flt : MorletWaveletFilter :=
  init time_series (mk_kwds (Some [10%R]) None None (Some (-1)) None).

Definition st : state := mk_state flt [] 0.

(** The same filter after a caller attached [resamplerate = 1.0]. *)
Definition st_resampling : state :=
  mk_state (set_resamplerate (Some 1%R) flt) [] 0.

(** A resampler that keeps the first sample of the time axis. *)
Definition ResampleFilter (rate : R) (x : TimeSeriesX C) : TimeSeriesX C :=
  mk_TimeSeriesX (isinstance_DataArray x) (values x) (dims x)
    (<["time" := mk_coord ["time"] [0%R]]> (coords x)) (attrs x).

Definition to_complex64 (c : C) : C := c.
Definition wall_clock (n : nat) : R := INR n.

(** A bank whose kernels have three samples, one more than the time axis. *)
Definition morlet_multi_long (freqs : list R) (widths : Z) (samplerates : R)
  : list (list C) :=
  map (fun _ : R => [(1, 0); (0, 1); (1, 0)]%R) freqs.

(** A series with no channel at all: two time samples, but a leading axis
    of size 0. *)
Definition no_channel_series : TimeSeriesX C :=
  mk_TimeSeriesX true
    (mk_ndarray [0; 2]%nat (fun _ => (1, 0)%R))
    ["channels"; "time"]
    (<["channels" := mk_coord ["channels"] []]>
       (<["time" := time_axis]>
          (<["samplerate" := mk_coord [] [2%R]]> ∅)))
    ∅.

(** A series that is one signal: a single axis, the time axis. *)
Definition single_signal : TimeSeriesX C :=
  mk_TimeSeriesX true
    (mk_ndarray [2]%nat (fun i => (INR (List.last i O), 0)%R))
    ["time"]
    (<["time" := time_axis]> (<["samplerate" := mk_coord [] [2%R]]> ∅))
    ∅.



End Example.

Section Filter.

(** [ptsa.wavelet.morlet_multi(freqs, widths, samplerates)], which is not
    among the sources: the bank of complex kernels. *)
Variable morlet_multi : list R -> Z -> R -> list (list C).

(** [ptsa.data.filters.ResampleFilter], which is not among the sources:
    the resampled series for a rate and an input series. *)
Variable ResampleFilter : R -> TimeSeriesX C -> TimeSeriesX C.

(** The down-cast of a coefficient into the complex64 buffer. *)
Variable to_complex64 : C -> C.

(** The reading of [time.time()] at its n-th call. *)
Variable wall_clock : nat -> R.

Definition time_time : M R := fun st =>
  (Ok (wall_clock (clock_reads st)),
   mk_state (self st) (stdout st) (S (clock_reads st))).

Definition resample_time_axis (s : MorletWaveletFilter)
  : result (coord * coord) :=
  match resamplerate s with
  | None => Raise (AttributeError "resamplerate")
  | Some rate =>
      rs_time_axis ←
        (if Rlt_dec 0 rate then
           input ← getitem_0_0 (time_series s);
           let time_series_resampled := ResampleFilter rate input in
           getitem time_series_resampled "time"
         else getitem (time_series s) "time");
      time_axis ← getitem (time_series s) "time";
      Ok (rs_time_axis, time_axis)
  end.

Definition allocate_output_arrays (s : MorletWaveletFilter)
    (time_axis_size : nat) : option (dense_array) * option (dense_array) :=
  let shape :=
    removelast (shape (time_series s))
    ++ [length (freqs s); time_axis_size] in
  if String.eqb (output s) "power" then
    (Some (np_empty shape), None)
  else if String.eqb (output s) "phase" then
    (None, Some (np_empty shape))
  else (Some (np_empty shape), Some (np_empty shape)).

(** [compute_wavelet_ffts]: the padded FFT of every kernel, the valid
    convolution length of every kernel and the shared FFT length.  The loop
    that fills row [i] of the two preallocated arrays from kernel [i] is
    the [map] over the bank. *)
Definition compute_wavelet_ffts (s : MorletWaveletFilter)
  : result (list (list C) * list Z * Z) :=
  samplerate ← (c ← getitem (time_series s) "samplerate"; float c);
  let wavelets := morlet_multi (freqs s) (width s) samplerate in
  s_w ← Py.max (map (fun wavelet => Z.of_nat (length wavelet)) wavelets);
  time_series_length ←
    (c ← getitem (time_series s) "time"; n ← shape0 c; Ok (Z.of_nat n));
  if time_series_length <? s_w then
    Raise (ValueError_too_short time_series_length s_w)
  else
    let s_d := time_series_length in
    let convolution_size := s_w + s_d - 1 in
    let convolution_size_pow2 := 2 ^ next_pow2 convolution_size in
    Ok (map (fun wavelet => fft wavelet convolution_size_pow2) wavelets,
        map (fun wavelet => Z.of_nat (length wavelet) + s_d - 1) wavelets,
        convolution_size_pow2).

(** The body of the loop over the kernels, for one signal. *)
Definition convolve_kernel (s : MorletWaveletFilter) (time_axis_size : nat)
    (wavelet_fft_array : list (list C)) (convolution_size_array : list Z)
    (idx_tuple : list nat) (signal_fft : list C)
    (arrays : option (dense_array) * option (dense_array)) (w : nat)
  : result (option (dense_array) * option (dense_array)) :=
  let signal_wavelet_conv :=
    ifft (zip_with Cmul (nth w wavelet_fft_array []) signal_fft) in
  let start :=
    start_offset (nth w convolution_size_array 0) (Z.of_nat time_axis_size) in
  let stop :=
    end_offset (nth w convolution_size_array 0) (Z.of_nat time_axis_size) in
  wavelet_coef_single_array ←
    assign_buffer to_complex64 time_axis_size
      (Py.slice signal_wavelet_conv start stop);
  let out_idx_tuple := idx_tuple ++ [w] in
  let single := compute_power_and_phase_fcn s wavelet_coef_single_array in
  wavelet_pow_array ← store out_idx_tuple (fst arrays) (fst single);
  wavelet_phase_array ← store out_idx_tuple (snd arrays) (snd single);
  Ok (wavelet_pow_array, wavelet_phase_array).

(** The two nested loops of [filter]. *)
Definition wavelet_loop (s : MorletWaveletFilter) (time_axis_size : nat)
    (wavelet_fft_array : list (list C)) (convolution_size_array : list Z)
    (convolution_size_pow2 : Z)
    (data_iterator : list (list nat * list C))
    (arrays : option (dense_array) * option (dense_array))
  : result (option (dense_array) * option (dense_array)) :=
  let num_wavelets := length wavelet_fft_array in
  for_each
    (fun arrays item =>
       let signal_fft := fft (snd item) convolution_size_pow2 in
       for_each
         (convolve_kernel s time_axis_size wavelet_fft_array
            convolution_size_array (fst item) signal_fft)
         arrays (seq 0 num_wavelets))
    arrays data_iterator.

(** The dims of the labelled output before the frequency axis is moved. *)
Definition output_dims (s : MorletWaveletFilter) : list string :=
  removelast (dims (time_series s)) ++ ["frequency"; "time"].

Definition normalized_pos (s : MorletWaveletFilter) : Z :=
  (Z.of_nat (length (output_dims s)) + frequency_dim_pos s)
    mod Z.of_nat (length (output_dims s)).

Definition transposed_dims_of (dims : list string) (pos : Z)
    (orig_frequency_idx : nat) : list string :=
  if decide (pos <> Z.of_nat orig_frequency_idx) then
    Py.insert pos "frequency"
      (firstn orig_frequency_idx dims ++ skipn (orig_frequency_idx + 1) dims)
  else [].

(** The [coords] dictionary assembled by [build_output_arrays]. *)
Definition output_coords (s : MorletWaveletFilter) (time_axis : coord)
  : result (gmap string coord) :=
  let ts := time_series s in
  d ← for_each (fun (m : gmap string coord) dim_name =>
                  c ← getitem ts dim_name; Ok (<[dim_name := c]> m))
               ∅ (removelast (dims ts));
  let d := <["frequency" := mk_coord ["frequency"] (freqs s)]> d in
  let d := <["time" := time_axis]> d in
  d ← (match d !! "samplerate" with
       | None => c ← getitem ts "samplerate"; Ok (<["samplerate" := c]> d)
       | Some _ => Ok d
       end);
  match coords ts !! "offsets" with
  | Some _ =>
      offsets ← getitem ts "offsets";
      Ok (<["offsets" := mk_coord ["time"] (coord_values offsets)]> d)
  | None => Ok d
  end.

(** One labelled output: wrap the dense array, move the frequency axis if
    a transposition was computed, copy the attributes of the input. *)
Definition label_output (s : MorletWaveletFilter)
    (array : option (dense_array)) (coords : gmap string coord)
    (dims transposed_dims : list string)
  : result (option (labelled_array)) :=
  match array with
  | None => Ok None
  | Some a =>
      let x := new_TimeSeriesX a coords dims in
      x ← (if (0 <? length transposed_dims)%nat
           then transpose x transposed_dims else Ok x);
      Ok (Some (set_attrs x (attrs (time_series s))))
  end.

(** [build_output_arrays]; the outcome [None] is Python's [None], returned
    when the function falls off its end. *)
Definition build_output_arrays
    (wavelet_pow_array wavelet_phase_array : option (dense_array))
    (time_axis : coord)
  : M (option (option (labelled_array) * option (labelled_array))) :=
  s ← get_self;
  if isinstance_DataArray (time_series s) then
    let dims := output_dims s in
    let pos := normalized_pos s in
    _ ← put_frequency_dim_pos pos;
    orig_frequency_idx ← lift (Py.index "frequency" dims);
    let transposed_dims := transposed_dims_of dims pos orig_frequency_idx in
    coords ← lift (output_coords s time_axis);
    wavelet_pow_array_xray ←
      lift (label_output s wavelet_pow_array coords dims transposed_dims);
    wavelet_phase_array_xray ←
      lift (label_output s wavelet_phase_array coords dims transposed_dims);
    mret (Some (wavelet_pow_array_xray, wavelet_phase_array_xray))
  else mret None.

(** [filter] *)
Definition filter
  : M (option (option (labelled_array) * option (labelled_array))) :=
  s ← get_self;
  let data_iterator := get_data_iterator s in
  time_axis ← lift (getitem (time_series s) "time");
  time_axis_size ← lift (shape0 time_axis);
  let arrays := allocate_output_arrays s time_axis_size in
  ffts ← lift (compute_wavelet_ffts s);
  let '(wavelet_fft_array, convolution_size_array, convolution_size_pow2) :=
    ffts in
  wavelet_start ← time_time;
  arrays ← lift (wavelet_loop s time_axis_size wavelet_fft_array
                   convolution_size_array convolution_size_pow2
                   data_iterator arrays);
  _ ← (if verbose s then
         now ← time_time;
         print (Printed "total time wavelet loop: " (now - wavelet_start))
       else mret tt);
  build_output_arrays (fst arrays) (snd arrays) time_axis.

(** ** Valid inputs *)

(** The bank built for sample rate [samplerate]. *)
Definition bank (s : MorletWaveletFilter) (samplerate : R)
  : list (list C) :=
  morlet_multi (freqs s) (width s) samplerate.

Definition kernel_lengths (wavelets : list (list C)) : list Z :=
  map (fun wavelet => Z.of_nat (length wavelet)) wavelets.

(** What the filter relies on without checking it: the input carries a
    time axis and a scalar sample rate, the bank has one non-empty kernel
    per frequency and at least one kernel, the strategy is the one
    [__init__] selects for [output], and, for a DataArray, every leading
    dimension has a coordinate. *)
Record well_formed (s : MorletWaveletFilter) (time_axis : coord)
    (samplerate : R) : Prop := {
  wf_time : getitem (time_series s) "time" = Ok time_axis;
  wf_time_dims : coord_dims time_axis <> [];
  wf_samplerate :
    exists c, getitem (time_series s) "samplerate" = Ok c
              /\ float c = Ok samplerate;
  wf_bank_size : length (bank s samplerate) = length (freqs s);
  wf_bank_nonempty : bank s samplerate <> [];
  wf_kernels :
    Forall (fun wavelet => (1 <= length wavelet)%nat) (bank s samplerate);
  wf_strategy : compute_power_and_phase_fcn s = select_strategy (output s);
  wf_coords :
    isinstance_DataArray (time_series s) = true ->
    Forall (fun d => is_Some (coords (time_series s) !! d))
           (removelast (dims (time_series s)))
}.

(** The shape of the dense output arrays. *)
Definition output_shape (s : MorletWaveletFilter) (time_axis_size : nat)
  : list nat :=
  removelast (shape (time_series s)) ++ [length (freqs s); time_axis_size].

(** Which outputs a value of [output] requests. *)
Definition requested_power (output : string) : bool :=
  negb (String.eqb output "phase").

Definition requested_phase (output : string) : bool :=
  negb (String.eqb output "power").

(** An optional dense array is there exactly if requested, with the
    expected shape; likewise for an optional row. *)
Definition array_ok (present : bool) (shape : list nat)
    (a : option (dense_array)) : Prop :=
  match a with
  | Some a => present = true /\ nd_shape a = shape
  | None => present = false
  end.

Definition row_ok (present : bool) (n : nat) (r : option (list R)) : Prop :=
  match r with
  | Some row => present = true /\ length row = n
  | None => present = false
  end.

Definition arrays_ok (s : MorletWaveletFilter) (time_axis_size : nat)
    (arrays : option (dense_array) * option (dense_array)) : Prop :=
  array_ok (requested_power (output s)) (output_shape s time_axis_size)
           (fst arrays)
  /\ array_ok (requested_phase (output s)) (output_shape s time_axis_size)
              (snd arrays).

(** The dims of the labelled outputs once the frequency axis is placed. *)
Definition final_dims (s : MorletWaveletFilter) : list string :=
  match Py.index "frequency" (output_dims s) with
  | Ok orig_frequency_idx =>
      let t := transposed_dims_of (output_dims s) (normalized_pos s)
                 orig_frequency_idx in
      if (0 <? length t)%nat then t else output_dims s
  | Raise _ => output_dims s
  end.

(** [x.shape[x.dims.index(d)]]: the extent of [x] along dimension [d]. *)
Definition dim_size {A} (x : TimeSeriesX A) (d : string) : result nat :=
  i ← Py.index d (dims x);
  match nth_error (shape x) i with
  | Some n => Ok n
  | None => Raise (IndexError "tuple index out of range")
  end.

(** [x] is the labelled output made of the dense array [a]. *)
Definition labels (s : MorletWaveletFilter) (time_axis : coord)
    (a : option (dense_array)) (x : option (labelled_array)) : Prop :=
  match a, x with
  | None, None => True
  | Some a, Some x =>
      isinstance_DataArray x = true
      /\ dims x = final_dims s
      /\ coords x !! "time" = Some time_axis
      /\ coords x !! "frequency" = Some (mk_coord ["frequency"] (freqs s))
      /\ attrs x = attrs (time_series s)
      /\ ((values x = a /\ dims x = output_dims s)
          \/ exists axes, axes_of (dims x) (output_dims s) = Ok axes
                          /\ values x = nd_transpose axes a)
  | _, _ => False
  end.

(** The state in which [filter] reaches [build_output_arrays]: the clock
    was read once before the loop and, if [verbose], once more for the
    printed line. *)
Definition after_loop (st : state) : state :=
  let n := clock_reads st in
  if verbose (self st) then
    mk_state (self st)
      (stdout st
       ++ [Printed "total time wavelet loop: "
             (wall_clock (S n) - wall_clock n)])
      (S (S n))
  else mk_state (self st) (stdout st) (S n).

(** The state [build_output_arrays] leaves for a DataArray input. *)
Definition after_build (st : state) : state :=
  mk_state (set_frequency_dim_pos (normalized_pos (self st)) (self st))
    (stdout st) (clock_reads st).

(** What [filter] computes between reading the time axis and assembling
    the outputs: the bank, then the two loops over the allocated arrays. *)
Definition run_loops (s : MorletWaveletFilter) (time_axis_size : nat)
  : result (option (dense_array) * option (dense_array)) :=
  ffts ← compute_wavelet_ffts s;
  let '(wavelet_fft_array, convolution_size_array, convolution_size_pow2) :=
    ffts in
  wavelet_loop s time_axis_size wavelet_fft_array convolution_size_array
    convolution_size_pow2 (get_data_iterator s)
    (allocate_output_arrays s time_axis_size).

(** The value [build_output_arrays] returns, as a function of the filter
    object alone. *)
Definition build_output_value (s : MorletWaveletFilter)
    (wavelet_pow_array wavelet_phase_array : option (dense_array))
    (time_axis : coord)
  : result (option (option (labelled_array) * option (labelled_array))) :=
  if isinstance_DataArray (time_series s) then
    orig_frequency_idx ← Py.index "frequency" (output_dims s);
    let transposed_dims :=
      transposed_dims_of (output_dims s) (normalized_pos s)
        orig_frequency_idx in
    coords ← output_coords s time_axis;
    wavelet_pow_array_xray ←
      label_output s wavelet_pow_array coords (output_dims s)
        transposed_dims;
    wavelet_phase_array_xray ←
      label_output s wavelet_phase_array coords (output_dims s)
        transposed_dims;
    Ok (Some (wavelet_pow_array_xray, wavelet_phase_array_xray))
  else Ok None.

(** The value [filter] returns, as a function of the filter object alone. *)
Definition filter_value (s : MorletWaveletFilter)
  : result (option (option (labelled_array) * option (labelled_array))) :=
  time_axis ← getitem (time_series s) "time";
  time_axis_size ← shape0 time_axis;
  arrays ← run_loops s time_axis_size;
  build_output_value s (fst arrays) (snd arrays) time_axis.

(** The line [filter] prints when [verbose] is set, called in state [st]. *)
Definition timing_line (st : state) : printed :=
  Printed "total time wavelet loop: "
    (wall_clock (S (clock_reads st)) - wall_clock (clock_reads st)).

(** The complex64 buffer [filter] holds for signal [idx] and kernel [w]:
    the trimmed convolution of the two, cast item by item. *)
Definition coefficients (s : MorletWaveletFilter) (time_axis_size : nat)
    (wavelets : list (list C)) (convolution_size_pow2 : Z)
    (idx : list nat) (w : nat) : list C :=
  let T := Z.of_nat time_axis_size in
  let wavelet := nth w wavelets [] in
  let signal := getrow (values (time_series s)) idx in
  let v := Z.of_nat (length wavelet) + T - 1 in
  map to_complex64
    (Py.slice
       (ifft (zip_with Cmul (fft wavelet convolution_size_pow2)
                       (fft signal convolution_size_pow2)))
       (start_offset v T) (end_offset v T)).

(** Row [idx] of an optional dense array is an optional row. *)
Definition row_is (a : option (dense_array)) (idx : list nat)
    (row : option (list R)) : Prop :=
  match a, row with
  | Some a, Some r => getrow a idx = map Some r
  | None, None => True
  | _, _ => False
  end.

(** Rows [idx, w] of the dense arrays hold what the strategy makes of the
    coefficients of signal [idx] and kernel [w]. *)
Definition rows_filled (s : MorletWaveletFilter) (time_axis_size : nat)
    (wavelets : list (list C)) (convolution_size_pow2 : Z)
    (arrays : option (dense_array) * option (dense_array))
    (idx : list nat) (w : nat) : Prop :=
  let single :=
    compute_power_and_phase_fcn s
      (coefficients s time_axis_size wavelets convolution_size_pow2 idx w) in
  row_is (fst arrays) (idx ++ [w]) (fst single)
  /\ row_is (snd arrays) (idx ++ [w]) (snd single).

(** The linear convolution of two finite sequences, the reference the
    FFT convolution of [filter] is compared with:
    [(a * b)[n] = sum_j a[j] b[n - j]], of length [len(a) + len(b) - 1]. *)
Definition linear_convolution (a b : list C) : list C :=
  map (fun n =>
         Csum (map (fun j => Cmul (nth j a C0) (nth (n - j) b C0))
                   (seq 0 (S n))))
      (seq 0 (length a + length b - 1)).


(** An optional dense array, if there, has the given shape. *)
Definition has_shape (shape : list nat) (a : option dense_array) : Prop :=
  match a with
  | Some a => nd_shape a = shape
  | None => True
  end.

(** * Properties *)

(** ** The result monad *)

(** Run the monad [M]: expose the state passing of a computation. *)
Ltac run_M :=
  unfold mbind, M_bind, lift, get_self, put_frequency_dim_pos, print, mret,
    M_ret.

Lemma bind_Ok {A B} (m : result A) (f : A -> result B) (b : B) :
  (m ≫= f) = Ok b -> exists a, m = Ok a /\ f a = Ok b.
Proof. destruct m as [a|e]; simpl; [eauto | discriminate]. Qed.

Lemma for_each_app {A B} (f : A -> B -> result A) (acc : A)
    (xs ys : list B) :
  for_each f acc (xs ++ ys) = (for_each f acc xs ≫= fun a => for_each f a ys).
Proof.
  revert acc. induction xs as [|x xs IH]; intros acc; simpl; [reflexivity|].
  destruct (f acc x) as [a|e]; simpl; [apply IH | reflexivity].
Qed.

(** A loop whose body keeps an invariant and cannot raise under it
    runs to the end and keeps the invariant. *)
Lemma for_each_invariant {A B} (I : A -> Prop) (P : B -> Prop)
    (f : A -> B -> result A) (xs : list B) (acc : A) :
  (forall a x, I a -> P x -> exists a', f a x = Ok a' /\ I a') ->
  Forall P xs -> I acc ->
  exists a', for_each f acc xs = Ok a' /\ I a'.
Proof.
  intros Hstep HP. revert acc.
  induction HP as [|x xs Hx _ IH]; intros acc Hacc; simpl; [eauto|].
  destruct (Hstep acc x Hacc Hx) as (a' & -> & Ha'). simpl. apply IH, Ha'.
Qed.

(** The same with an invariant that knows what was already visited. *)
Lemma for_each_invariant_prefix {A B} (I : list B -> A -> Prop)
    (P : B -> Prop) (f : A -> B -> result A) (xs done : list B) (acc : A) :
  (forall a x d, I d a -> P x -> exists a', f a x = Ok a' /\ I (d ++ [x]) a') ->
  Forall P xs -> I done acc ->
  exists a', for_each f acc xs = Ok a' /\ I (done ++ xs) a'.
Proof.
  intros Hstep HP. revert done acc.
  induction HP as [|x xs Hx _ IH]; intros done acc Hacc; simpl.
  - rewrite app_nil_r. eauto.
  - destruct (Hstep acc x done Hacc Hx) as (a' & -> & Ha'). simpl.
    destruct (IH (done ++ [x]) a' Ha') as (a'' & Hf & Ha'').
    rewrite <- app_assoc in Ha''. eauto.
Qed.

(** ** Python sequences *)

Lemma slice_length {A} (l : list A) (start stop : Z) :
  0 <= start -> start <= stop -> stop <= Z.of_nat (length l) ->
  length (Py.slice l start stop) = Z.to_nat (stop - start).
Proof.
  intros H0 H1 H2. unfold Py.slice, Py.slice_bound.
  destruct (Z.ltb_spec start 0); [lia|].
  destruct (Z.ltb_spec stop 0); [lia|].
  rewrite length_firstn, length_skipn. lia.
Qed.

(** Under Python 3 the offset would be [int(x / 2)] with true division,
    which truncates; on the differences that occur, which are not negative,
    this is the same offset. *)
Lemma start_offset_truncated (convolution_size time_axis_size : Z) :
  time_axis_size <= convolution_size ->
  Z.quot (convolution_size - time_axis_size) 2
  = start_offset convolution_size time_axis_size.
Proof.
  intros H. unfold start_offset. apply Z.quot_div_nonneg; lia.
Qed.

Lemma max_spec (l : list Z) (m : Z) :
  Py.max l = Ok m -> In m l /\ Forall (fun x => x <= m) l.
Proof.
  destruct l as [|x l]; simpl; [discriminate|].
  intros [= <-].
  assert (forall (k : list Z) a,
             (fold_left Z.max k a = a \/ In (fold_left Z.max k a) k)
             /\ a <= fold_left Z.max k a
             /\ Forall (fun y => y <= fold_left Z.max k a) k) as Hgen.
  { induction k as [|y k IH]; intros a; simpl.
    - repeat split; [left; reflexivity | lia | constructor].
    - destruct (IH (Z.max a y)) as (Hin & Hle & Hall).
      repeat split.
      + destruct Hin as [Heq|Hin]; [|right; right; exact Hin].
        rewrite Heq. destruct (Z.max_spec a y) as [[_ ->]|[_ ->]]; auto.
      + lia.
      + constructor; [lia | exact Hall]. }
  destruct (Hgen l x) as (Hin & Hle & Hall).
  split.
  - destruct Hin as [->|Hin]; [left; reflexivity | right; exact Hin].
  - constructor; assumption.
Qed.

Lemma max_nonempty (l : list Z) : l <> [] -> exists m, Py.max l = Ok m.
Proof. destruct l; [congruence | simpl; eauto]. Qed.

Lemma in_bounds_app (idx shape : list nat) (w n : nat) :
  in_bounds (idx ++ [w]) (shape ++ [n])
  = in_bounds idx shape && (w <? n)%nat.
Proof.
  revert shape. induction idx as [|i idx IH]; intros [|m shape]; simpl.
  - rewrite andb_true_r. reflexivity.
  - destruct shape; simpl; rewrite andb_false_r; reflexivity.
  - destruct idx; simpl; rewrite andb_false_r; reflexivity.
  - rewrite IH, andb_assoc. reflexivity.
Qed.

Lemma product_in_bounds (sizes idx : list nat) :
  In idx (Py.product (map (seq 0) sizes)) -> in_bounds idx sizes = true.
Proof.
  revert idx. induction sizes as [|n sizes IH]; intros idx; simpl.
  - intros [<-|[]]. reflexivity.
  - rewrite in_flat_map. intros (i & Hi & Hidx).
    apply in_map_iff in Hidx as (idx' & <- & Hidx').
    apply in_seq in Hi. simpl.
    rewrite (IH _ Hidx'), andb_true_r. apply Nat.ltb_lt. lia.
Qed.

Lemma removelast_app2 {A} (l : list A) (a b : A) :
  removelast (l ++ [a; b]) = l ++ [a].
Proof.
  change [a; b] with ([a] ++ [b]). rewrite app_assoc.
  apply removelast_last.
Qed.

Lemma last_app2 {A} (l : list A) (a b d : A) :
  List.last (l ++ [a; b]) d = b.
Proof.
  change [a; b] with ([a] ++ [b]). rewrite app_assoc. apply last_last.
Qed.

(** ** Dense arrays *)

Lemma map_nth_seq {A} (r : list A) (g : nat -> A) :
  map (fun t => nth t r (g t)) (seq 0 (length r)) = r.
Proof.
  apply (nth_ext _ _ (g O) (g O)).
  - rewrite length_map, length_seq. reflexivity.
  - intros k Hk. rewrite length_map, length_seq in Hk.
    rewrite (nth_indep _ (g O) (nth (length r) r (g (length r))))
      by (rewrite length_map, length_seq; exact Hk).
    rewrite (map_nth (fun t => nth t r (g t)) (seq 0 (length r))
               (length r) k).
    rewrite seq_nth by exact Hk. simpl. apply nth_indep. exact Hk.
Qed.

Lemma setrow_shape {A} (a a' : ndarray A) (idx : list nat) (row : list A) :
  setrow a idx row = Ok a' -> nd_shape a' = nd_shape a.
Proof.
  unfold setrow.
  destruct (negb (in_bounds idx (removelast (nd_shape a)))); [discriminate|].
  destruct (length row =? List.last (nd_shape a) O)%nat.
  - intros [= <-]. reflexivity.
  - destruct row as [|x [|y row]]; try discriminate.
    intros [= <-]. reflexivity.
Qed.

(** A row that fits is read back as it was written. *)
Lemma getrow_setrow_same {A} (a a' : ndarray A) (idx : list nat)
    (row : list A) :
  length row = List.last (nd_shape a) O ->
  setrow a idx row = Ok a' -> getrow a' idx = row.
Proof.
  intros Hlen. unfold setrow.
  destruct (negb (in_bounds idx (removelast (nd_shape a)))); [discriminate|].
  rewrite Hlen, Nat.eqb_refl. intros [= <-].
  unfold getrow. simpl. rewrite <- Hlen.
  rewrite <- (map_nth_seq row (fun t => nd_item a (idx ++ [t]))) at 2.
  apply map_ext. intros t.
  destruct (decide (removelast (idx ++ [t]) = idx /\ idx ++ [t] <> []))
    as [_|Hn].
  - rewrite last_last. reflexivity.
  - exfalso. apply Hn. split; [apply removelast_last|].
    destruct idx; discriminate.
Qed.

(** Writing a row leaves every other row as it was. *)
Lemma getrow_setrow_other {A} (a a' : ndarray A) (idx j : list nat)
    (row : list A) :
  j <> idx -> setrow a idx row = Ok a' -> getrow a' j = getrow a j.
Proof.
  intros Hne Hset. unfold getrow.
  rewrite (setrow_shape _ _ _ _ Hset).
  apply map_ext. intros t. revert Hset. unfold setrow.
  destruct (negb (in_bounds idx (removelast (nd_shape a)))); [discriminate|].
  destruct (length row =? List.last (nd_shape a) O)%nat.
  - intros [= <-]. simpl.
    destruct (decide (removelast (j ++ [t]) = idx /\ j ++ [t] <> []))
      as [[Heq _]|_]; [|reflexivity].
    rewrite removelast_last in Heq. contradiction.
  - destruct row as [|x [|y row]]; try discriminate.
    intros [= <-]. simpl.
    destruct (decide (removelast (j ++ [t]) = idx /\ j ++ [t] <> []
                      /\ (List.last (j ++ [t]) O
                          < List.last (nd_shape a) O)%nat))
      as [[Heq _]|_]; [|reflexivity].
    rewrite removelast_last in Heq. contradiction.
Qed.

(** ** scipy.fftpack *)

Lemma fft_length (x : list C) (n : Z) : length (fft x n) = Z.to_nat n.
Proof. unfold fft. rewrite length_map, length_seq. reflexivity. Qed.

Lemma ifft_length (y : list C) : length (ifft y) = length y.
Proof. unfold ifft. rewrite length_map, length_seq. reflexivity. Qed.

(** ** The padded length *)

Lemma next_pow2_ge (n : Z) : n <= 2 ^ next_pow2 n.
Proof.
  unfold next_pow2. destruct (Z.le_gt_cases n 1) as [H|H].
  - rewrite Z.log2_up_eqn0 by exact H. simpl. exact H.
  - apply Z.log2_up_spec. exact H.
Qed.

Lemma next_pow2_least (n q : Z) :
  0 <= q -> n <= 2 ^ q -> 2 ^ next_pow2 n <= 2 ^ q.
Proof.
  intros Hq Hn. unfold next_pow2.
  apply Z.pow_le_mono_r; [lia|].
  destruct (Z.le_gt_cases n 0) as [H|H].
  - rewrite Z.log2_up_eqn0 by lia. exact Hq.
  - apply Z.log2_up_le_pow2; assumption.
Qed.

Lemma next_pow2_nonneg (n : Z) : 0 <= next_pow2 n.
Proof. apply Z.log2_up_nonneg. Qed.

(** ** The wavelet bank *)

Section Bank.
Variables (s : MorletWaveletFilter) (time_axis : coord) (samplerate : R).
Hypothesis Hwf : well_formed s time_axis samplerate.

Let T : Z := Z.of_nat (length (coord_values time_axis)).
Let wavelets : list (list C) := bank s samplerate.

Lemma compute_wavelet_ffts_eq :
  exists s_w,
    Py.max (kernel_lengths wavelets) = Ok s_w
    /\ compute_wavelet_ffts s
       = if T <? s_w then Raise (ValueError_too_short T s_w)
         else Ok (map (fun wavelet =>
                         fft wavelet (2 ^ next_pow2 (s_w + T - 1)))
                      wavelets,
                  map (fun wavelet =>
                         Z.of_nat (length wavelet) + T - 1) wavelets,
                  2 ^ next_pow2 (s_w + T - 1)).
Proof.
  destruct Hwf as [Ht Htd (c & Hc & Hf) _ Hne _ _ _].
  destruct (max_nonempty (kernel_lengths wavelets)) as [s_w Hmax].
  { unfold kernel_lengths, wavelets. destruct (bank s samplerate);
      [congruence | discriminate]. }
  exists s_w. split; [exact Hmax|].
  unfold compute_wavelet_ffts. rewrite Hc. simpl. rewrite Hf. simpl.
  fold (bank s samplerate). fold wavelets.
  fold (kernel_lengths wavelets). rewrite Hmax. simpl.
  rewrite Ht. simpl. unfold shape0.
  destruct (coord_dims time_axis); [congruence|]. simpl.
  fold T. reflexivity.
Qed.

Lemma kernel_le_longest (s_w : Z) (w : nat) :
  Py.max (kernel_lengths wavelets) = Ok s_w ->
  (w < length wavelets)%nat ->
  Z.of_nat (length (nth w wavelets [])) <= s_w.
Proof.
  intros Hmax Hw. apply max_spec in Hmax as [_ Hall].
  rewrite List.Forall_forall in Hall. apply Hall.
  unfold kernel_lengths. apply in_map_iff.
  exists (nth w wavelets []). split; [reflexivity|].
  apply nth_In. exact Hw.
Qed.

(** *** The convolution loop *)

Lemma select_strategy_rows (o : string) (buf : list C) :
  row_ok (requested_power o) (length buf) (fst (select_strategy o buf))
  /\ row_ok (requested_phase o) (length buf) (snd (select_strategy o buf)).
Proof.
  unfold select_strategy, requested_power, requested_phase.
  destruct (String.eqb_spec o "power") as [->|Hpow]; simpl.
  - rewrite length_map. auto.
  - destruct (String.eqb_spec o "phase") as [->|Hph]; simpl;
      rewrite ?length_map; auto.
Qed.

Lemma allocate_output_arrays_ok (n : nat) :
  arrays_ok s n (allocate_output_arrays s n).
Proof.
  unfold arrays_ok, allocate_output_arrays, requested_power,
    requested_phase, output_shape.
  destruct (String.eqb_spec (output s) "power") as [Heq|Hpow]; simpl.
  - rewrite Heq. simpl. auto.
  - destruct (String.eqb_spec (output s) "phase") as [Heq|Hph];
      simpl; auto.
Qed.

Lemma store_ok (present : bool) (shape idx : list nat)
    (target : option (dense_array)) (row : option (list R)) :
  array_ok present shape target ->
  row_ok present (List.last shape O) row ->
  in_bounds idx (removelast shape) = true ->
  exists target',
    store idx target row = Ok target' /\ array_ok present shape target'.
Proof.
  intros Ht Hr Hb. unfold store.
  destruct row as [r|]; [|eauto].
  destruct Hr as [-> Hlen].
  destruct target as [a|]; [|discriminate Ht].
  destruct Ht as [_ Hshape]. unfold setrow.
  rewrite Hshape, Hb. simpl.
  rewrite length_map, Hlen, Nat.eqb_refl. simpl.
  eexists; split; [reflexivity|]. simpl. auto.
Qed.

Lemma store_rows (present : bool) (shape idx : list nat)
    (target : option (dense_array)) (row : option (list R)) :
  array_ok present shape target ->
  row_ok present (List.last shape O) row ->
  in_bounds idx (removelast shape) = true ->
  exists target',
    store idx target row = Ok target'
    /\ array_ok present shape target'
    /\ row_is target' idx row
    /\ forall j r, j <> idx -> row_is target j r -> row_is target' j r.
Proof.
  intros Ht Hr Hb.
  destruct (store_ok present shape idx target row Ht Hr Hb)
    as (target' & Hst & Hok).
  exists target'. split; [exact Hst|]. split; [exact Hok|].
  unfold store in Hst.
  destruct row as [r|].
  - destruct Hr as [-> Hlen].
    destruct target as [a|]; [|discriminate Ht].
    destruct Ht as [_ Hshape].
    destruct (setrow a idx (map Some r)) as [a'|] eqn:Hset; [|discriminate].
    injection Hst as <-. simpl. split.
    + apply (getrow_setrow_same a a' idx (map Some r)); [|exact Hset].
      rewrite length_map, Hshape. exact Hlen.
    + intros j [r'|] Hne Hrow; [|exact Hrow].
      rewrite (getrow_setrow_other a a' idx j (map Some r) Hne Hset).
      exact Hrow.
  - injection Hst as <-. simpl in Hr. subst present.
    destruct target; [destruct Ht; discriminate|].
    simpl. split; [exact I | intros; assumption].
Qed.

Lemma assign_buffer_ok (n : nat) (src : list C) :
  length src = n ->
  assign_buffer to_complex64 n src = Ok (map to_complex64 src).
Proof.
  intros H. unfold assign_buffer. rewrite H, Nat.eqb_refl. reflexivity.
Qed.

Section Fits.
(** [s_w] is the length of the longest kernel. *)
Variable s_w : Z.
Hypothesis Hmax : Py.max (kernel_lengths wavelets) = Ok s_w.

Let Tn : nat := length (coord_values time_axis).
Let P : Z := 2 ^ next_pow2 (s_w + T - 1).
Let wavelet_fft_array : list (list C) :=
  map (fun wavelet => fft wavelet P) wavelets.
Let convolution_size_array : list Z :=
  map (fun wavelet => Z.of_nat (length wavelet) + T - 1) wavelets.

Lemma kernel_bounds (w : nat) :
  (w < length wavelets)%nat ->
  1 <= Z.of_nat (length (nth w wavelets [])) <= s_w.
Proof.
  intros Hw. split.
  - pose proof (wf_kernels _ _ _ Hwf) as Hk.
    rewrite List.Forall_forall in Hk.
    specialize (Hk (nth w wavelets []) (nth_In _ _ Hw)). lia.
  - apply kernel_le_longest; assumption.
Qed.

Lemma nth_wavelet_fft (w : nat) :
  (w < length wavelets)%nat ->
  nth w wavelet_fft_array [] = fft (nth w wavelets []) P.
Proof.
  intros Hw. unfold wavelet_fft_array.
  rewrite (nth_indep _ [] (fft [] P)) by (rewrite length_map; exact Hw).
  apply (map_nth (fun wavelet => fft wavelet P)).
Qed.

Lemma nth_convolution_size (w : nat) :
  (w < length wavelets)%nat ->
  nth w convolution_size_array 0
  = Z.of_nat (length (nth w wavelets [])) + T - 1.
Proof.
  intros Hw. unfold convolution_size_array.
  rewrite (nth_indep _ 0 (Z.of_nat (length (@nil C)) + T - 1))
    by (rewrite length_map; exact Hw).
  apply (map_nth (fun wavelet => Z.of_nat (length wavelet) + T - 1)).
Qed.

(** The trim window of every kernel lies inside the padded
    convolution and spans [Tn] samples. *)
Lemma trim_window (w : nat) :
  (w < length wavelets)%nat ->
  let v := nth w convolution_size_array 0 in
  0 <= start_offset v T
  /\ start_offset v T <= end_offset v T
  /\ end_offset v T <= P
  /\ end_offset v T - start_offset v T = T.
Proof.
  intros Hw v. subst v. rewrite nth_convolution_size by exact Hw.
  pose proof (kernel_bounds w Hw) as [H1 H2].
  pose proof (next_pow2_ge (s_w + T - 1)) as HP. fold P in HP.
  unfold end_offset, start_offset.
  set (L := Z.of_nat (length (nth w wavelets []))) in *.
  assert (0 <= T) by (unfold T; lia).
  assert (0 <= (L + T - 1 - T) / 2 <= L - 1).
  { replace (L + T - 1 - T) with (L - 1) by lia.
    split; [apply Z.div_pos; lia|].
    apply Z.div_le_upper_bound; lia. }
  lia.
Qed.

Lemma trim_length (w : nat) (signal_fft : list C) :
  (w < length wavelets)%nat ->
  length signal_fft = Z.to_nat P ->
  let v := nth w convolution_size_array 0 in
  length (Py.slice
            (ifft (zip_with Cmul (nth w wavelet_fft_array [])
                            signal_fft))
            (start_offset v T) (end_offset v T)) = Tn.
Proof.
  intros Hw Hs v.
  destruct (trim_window w Hw) as (H0 & H1 & H2 & H3). fold v in H0, H1, H2, H3.
  assert (0 < P) as HP
    by (apply Z.pow_pos_nonneg; [lia | apply next_pow2_nonneg]).
  rewrite slice_length;
    [rewrite H3; unfold T; apply Nat2Z.id | exact H0 | exact H1 |].
  rewrite ifft_length, length_zip_with, nth_wavelet_fft by exact Hw.
  rewrite fft_length, Hs. lia.
Qed.

Lemma output_shape_last : List.last (output_shape s Tn) O = Tn.
Proof. unfold output_shape. apply last_app2. Qed.

Lemma output_shape_removelast :
  removelast (output_shape s Tn)
  = removelast (shape (time_series s)) ++ [length (freqs s)].
Proof. unfold output_shape. apply removelast_app2. Qed.

Lemma convolve_kernel_ok (idx : list nat) (signal_fft : list C)
    (arrays : option (dense_array) * option (dense_array)) (w : nat) :
  arrays_ok s Tn arrays ->
  in_bounds idx (removelast (shape (time_series s))) = true ->
  length signal_fft = Z.to_nat P ->
  (w < length wavelets)%nat ->
  exists arrays',
    convolve_kernel s Tn wavelet_fft_array convolution_size_array
      idx signal_fft arrays w = Ok arrays'
    /\ arrays_ok s Tn arrays'.
Proof.
  intros [Hpow Hph] Hidx Hs Hw. unfold convolve_kernel.
  fold T.
  rewrite assign_buffer_ok by (apply trim_length; assumption).
  simpl.
  set (buf := map to_complex64 _).
  assert (length buf = Tn) as Hbuf.
  { unfold buf. rewrite length_map. apply trim_length; assumption. }
  rewrite (wf_strategy _ _ _ Hwf).
  destruct (select_strategy_rows (output s) buf) as [Hrp Hrph].
  rewrite Hbuf in Hrp, Hrph.
  assert (in_bounds (idx ++ [w]) (removelast (output_shape s Tn)) = true)
    as Hb.
  { rewrite output_shape_removelast, in_bounds_app, Hidx. simpl.
    apply Nat.ltb_lt. rewrite <- (wf_bank_size _ _ _ Hwf). exact Hw. }
  destruct (store_ok _ _ (idx ++ [w]) _ _ Hpow
              ltac:(rewrite output_shape_last; exact Hrp) Hb)
    as (pow' & -> & Hpow').
  simpl.
  destruct (store_ok _ _ (idx ++ [w]) _ _ Hph
              ltac:(rewrite output_shape_last; exact Hrph) Hb)
    as (ph' & -> & Hph').
  simpl. eexists; split; [reflexivity|]. split; assumption.
Qed.

Lemma data_iterator_in_bounds :
  Forall (fun item : list nat * list C =>
            in_bounds (fst item) (removelast (shape (time_series s)))
            = true)
         (get_data_iterator s).
Proof.
  unfold get_data_iterator, all_but_time_iterator.
  rewrite List.Forall_forall. intros item Hin.
  apply in_map_iff in Hin as (idx & <- & Hidx). simpl.
  apply product_in_bounds. exact Hidx.
Qed.

(** The two nested loops run to their end on a valid input and leave
    every requested array in place with its shape. *)
Lemma wavelet_loop_ok
    (arrays : option (dense_array) * option (dense_array)) :
  arrays_ok s Tn arrays ->
  exists arrays',
    wavelet_loop s Tn wavelet_fft_array convolution_size_array P
      (get_data_iterator s) arrays = Ok arrays'
    /\ arrays_ok s Tn arrays'.
Proof.
  intros Harr. unfold wavelet_loop.
  apply (for_each_invariant (arrays_ok s Tn)
           (fun item : list nat * list C =>
              in_bounds (fst item) (removelast (shape (time_series s)))
              = true));
    [| apply data_iterator_in_bounds | exact Harr].
  intros a item Ha Hitem.
  apply (for_each_invariant (arrays_ok s Tn)
           (fun w => (w < length wavelets)%nat)); [| | exact Ha].
  - intros a' w Ha' Hw.
    apply convolve_kernel_ok; try assumption.
    apply fft_length.
  - rewrite List.Forall_forall. intros w Hw. apply in_seq in Hw.
    unfold wavelet_fft_array in Hw. rewrite length_map in Hw. lia.
Qed.

(** *** What the loops leave in the arrays *)

Lemma convolve_kernel_rows (D : list nat -> nat -> Prop) (idx : list nat)
    (arrays : option (dense_array) * option (dense_array)) (w : nat) :
  arrays_ok s Tn arrays ->
  (forall i v, D i v -> rows_filled s Tn wavelets P arrays i v) ->
  in_bounds idx (removelast (shape (time_series s))) = true ->
  (w < length wavelets)%nat ->
  exists arrays',
    convolve_kernel s Tn wavelet_fft_array convolution_size_array idx
      (fft (getrow (values (time_series s)) idx) P) arrays w = Ok arrays'
    /\ arrays_ok s Tn arrays'
    /\ forall i v, D i v \/ (i = idx /\ v = w) ->
                   rows_filled s Tn wavelets P arrays' i v.
Proof.
  intros [Hpow Hph] Hrows Hidx Hw. unfold convolve_kernel.
  pose proof (trim_length w (fft (getrow (values (time_series s)) idx) P)
                Hw (fft_length _ _)) as Hlen.
  cbv zeta in Hlen. fold T.
  rewrite assign_buffer_ok by exact Hlen. simpl.
  rewrite nth_wavelet_fft, nth_convolution_size by exact Hw.
  rewrite nth_wavelet_fft, nth_convolution_size in Hlen by exact Hw.
  change (map to_complex64 _)
    with (coefficients s Tn wavelets P idx w).
  set (buf := coefficients s Tn wavelets P idx w).
  assert (length buf = Tn) as Hbuf.
  { unfold buf, coefficients. rewrite length_map. exact Hlen. }
  set (single := compute_power_and_phase_fcn s buf).
  assert (row_ok (requested_power (output s)) Tn (fst single)
          /\ row_ok (requested_phase (output s)) Tn (snd single))
    as [Hrp Hrph].
  { unfold single. rewrite (wf_strategy _ _ _ Hwf), <- Hbuf.
    apply select_strategy_rows. }
  assert (in_bounds (idx ++ [w]) (removelast (output_shape s Tn)) = true)
    as Hb.
  { rewrite output_shape_removelast, in_bounds_app, Hidx. simpl.
    apply Nat.ltb_lt. rewrite <- (wf_bank_size _ _ _ Hwf). exact Hw. }
  destruct (store_rows _ _ (idx ++ [w]) _ _ Hpow
              ltac:(rewrite output_shape_last; exact Hrp) Hb)
    as (pow' & -> & Hpow' & Hsame & Hother).
  simpl.
  destruct (store_rows _ _ (idx ++ [w]) _ _ Hph
              ltac:(rewrite output_shape_last; exact Hrph) Hb)
    as (ph' & -> & Hph' & Hsame' & Hother').
  simpl. eexists; split; [reflexivity|].
  split; [split; assumption|].
  assert (rows_filled s Tn wavelets P (pow', ph') idx w) as Hnew
    by (split; assumption).
  intros i v [HD|[-> ->]]; [|exact Hnew].
  destruct (decide (i ++ [v] = idx ++ [w])) as [Heq|Hne].
  - apply app_inj_tail in Heq as [-> ->]. exact Hnew.
  - destruct (Hrows i v HD) as [H1 H2].
    split; [apply Hother | apply Hother']; assumption.
Qed.

(** After the two loops, row [idx, w] of every requested array holds what
    the strategy makes of the coefficients of signal [idx] and kernel [w],
    for every index tuple of the leading axes and every kernel. *)
Lemma wavelet_loop_rows
    (arrays : option (dense_array) * option (dense_array)) :
  arrays_ok s Tn arrays ->
  exists arrays',
    wavelet_loop s Tn wavelet_fft_array convolution_size_array P
      (get_data_iterator s) arrays = Ok arrays'
    /\ arrays_ok s Tn arrays'
    /\ forall idx w,
         In idx (Py.product
                   (map (seq 0) (removelast (shape (time_series s))))) ->
         (w < length wavelets)%nat ->
         rows_filled s Tn wavelets P arrays' idx w.
Proof.
  intros Harr. unfold wavelet_loop.
  set (W := length wavelets).
  assert (length wavelet_fft_array = W) as HW
    by (unfold wavelet_fft_array; apply length_map).
  rewrite HW.
  destruct (for_each_invariant_prefix
              (fun done a =>
                 arrays_ok s Tn a
                 /\ forall item v, In item done -> (v < W)%nat ->
                      rows_filled s Tn wavelets P a (fst item) v)
              (fun item : list nat * list C =>
                 in_bounds (fst item) (removelast (shape (time_series s)))
                 = true
                 /\ snd item = getrow (values (time_series s)) (fst item))
              (fun arrays item =>
                 for_each
                   (convolve_kernel s Tn wavelet_fft_array
                      convolution_size_array (fst item)
                      (fft (snd item) P))
                   arrays (seq 0 W))
              (get_data_iterator s) [] arrays)
    as (arrays' & Hloop & Hok & Hrows).
  - intros a item done [Ha Hdone] [Hitem Hsig]. rewrite Hsig.
    destruct (for_each_invariant_prefix
                (fun wd a' =>
                   arrays_ok s Tn a'
                   /\ forall i v,
                        (exists item', In item' done /\ i = fst item'
                                       /\ (v < W)%nat)
                        \/ (i = fst item /\ In v wd) ->
                        rows_filled s Tn wavelets P a' i v)
                (fun w => (w < W)%nat)
                (convolve_kernel s Tn wavelet_fft_array
                   convolution_size_array (fst item)
                   (fft (getrow (values (time_series s)) (fst item)) P))
                (seq 0 W) [] a)
      as (a' & Hinner & Ha' & Hrows').
    + intros b w wd [Hb Hwd] Hw.
      destruct (convolve_kernel_rows
                  (fun i v =>
                     (exists item', In item' done /\ i = fst item'
                                    /\ (v < W)%nat)
                     \/ (i = fst item /\ In v wd))
                  (fst item) b w Hb Hwd Hitem Hw)
        as (b' & Hstep & Hb' & Hnew).
      exists b'. split; [exact Hstep|]. split; [exact Hb'|].
      intros i v [Hold|[Hi Hv]].
      * apply Hnew. left. left. exact Hold.
      * apply in_app_or in Hv as [Hv|[<-|[]]].
        -- apply Hnew. left. right. auto.
        -- apply Hnew. right. auto.
    + rewrite List.Forall_forall. intros w Hw. apply in_seq in Hw. lia.
    + split; [exact Ha|].
      intros i v [(item' & Hin & -> & Hv)|[_ []]].
      apply Hdone; assumption.
    + exists a'. split; [exact Hinner|]. split; [exact Ha'|].
      intros item' v Hin Hv.
      apply in_app_or in Hin as [Hin|[<-|[]]].
      * apply Hrows'. left. exists item'. auto.
      * apply Hrows'. right. split; [reflexivity|].
        simpl. apply in_seq. lia.
  - unfold get_data_iterator, all_but_time_iterator.
    rewrite List.Forall_forall. intros item Hin.
    apply in_map_iff in Hin as (idx & <- & Hidx). simpl.
    split; [apply product_in_bounds; exact Hidx | reflexivity].
  - split; [exact Harr|]. intros item v [].
  - exists arrays'. split; [exact Hloop|]. split; [exact Hok|].
    intros idx w Hidx Hw. simpl in Hrows.
    apply (Hrows (idx, getrow (values (time_series s)) idx) w); [|exact Hw].
    unfold get_data_iterator, all_but_time_iterator.
    apply in_map_iff. exists idx. split; [reflexivity | exact Hidx].
Qed.

End Fits.

End Bank.

(** ** Placing the frequency axis *)

Lemma index_In (x : string) (l : list string) :
  In x l ->
  exists i, Py.index x l = Ok i /\ nth_error l i = Some x
            /\ (i < length l)%nat.
Proof.
  induction l as [|y l IH]; simpl; [intros []|].
  intros Hin. destruct (String.eqb_spec x y) as [->|Hne].
  - exists O. repeat split. lia.
  - destruct Hin as [Heq|Hin]; [congruence|].
    destruct (IH Hin) as (i & -> & Hnth & Hlt). simpl.
    exists (S i). repeat split; [exact Hnth | lia].
Qed.

Lemma index_nth (x : string) (l : list string) (i : nat) :
  Py.index x l = Ok i -> nth_error l i = Some x.
Proof.
  revert i. induction l as [|y l IH]; simpl; intros i; [discriminate|].
  destruct (String.eqb_spec x y) as [->|Hne].
  - intros [= <-]. reflexivity.
  - destruct (Py.index x l) as [j|e]; simpl; [|discriminate].
    intros [= <-]. simpl. apply IH. reflexivity.
Qed.

Lemma index_app_fresh (x : string) (l r : list string) :
  ~ In x l -> Py.index x (l ++ x :: r) = Ok (length l).
Proof.
  induction l as [|y l IH]; simpl; intros Hnin.
  - rewrite String.eqb_refl. reflexivity.
  - destruct (String.eqb_spec x y) as [->|Hne]; [tauto|].
    rewrite IH by tauto. reflexivity.
Qed.

Lemma axes_of_ok (new old : list string) :
  Forall (fun d => In d old) new ->
  exists axes, axes_of new old = Ok axes.
Proof.
  induction 1 as [|d new Hd _ (axes & IH)]; simpl; [eauto|].
  destruct (index_In d old Hd) as (k & -> & _). simpl.
  rewrite IH. simpl. eauto.
Qed.

Lemma axes_of_nth (new old : list string) (axes : list nat)
    (j : nat) (d : string) :
  axes_of new old = Ok axes -> nth_error new j = Some d ->
  exists k, nth_error axes j = Some k /\ Py.index d old = Ok k.
Proof.
  revert axes j. induction new as [|e new IH]; simpl; intros axes j.
  - intros _ H. destruct j; discriminate.
  - destruct (Py.index e old) as [k|] eqn:Hk; simpl; [|discriminate].
    destruct (axes_of new old) as [ks|]; simpl; [|discriminate].
    intros [= <-]. destruct j as [|j]; simpl.
    + intros [= <-]. eauto.
    + intros Hj. apply (IH ks j eq_refl Hj).
Qed.

Lemma insert_length {A} (i : Z) (x : A) (l : list A) :
  length (Py.insert i x l) = S (length l).
Proof.
  unfold Py.insert. rewrite length_app. simpl.
  rewrite length_firstn, length_skipn. lia.
Qed.

Lemma transposed_dims_length (ds : list string) (pos : Z) (i : nat) :
  (i < length ds)%nat ->
  transposed_dims_of ds pos i = []
  \/ length (transposed_dims_of ds pos i) = length ds.
Proof.
  intros Hi. unfold transposed_dims_of.
  destruct (decide (pos <> Z.of_nat i)); [right | left; reflexivity].
  rewrite insert_length, length_app, length_firstn, length_skipn. lia.
Qed.

Lemma In_firstn {A} (n : nat) (l : list A) (x : A) :
  In x (firstn n l) -> In x l.
Proof.
  intros H. rewrite <- (firstn_skipn n l). apply in_or_app. left. exact H.
Qed.

Lemma In_skipn {A} (n : nat) (l : list A) (x : A) :
  In x (skipn n l) -> In x l.
Proof.
  intros H. rewrite <- (firstn_skipn n l). apply in_or_app. right. exact H.
Qed.

Lemma transposed_dims_incl (ds : list string) (pos : Z) (i : nat) :
  nth_error ds i = Some "frequency" ->
  Forall (fun d => In d ds) (transposed_dims_of ds pos i).
Proof.
  intros Hi. unfold transposed_dims_of.
  destruct (decide (pos <> Z.of_nat i)); [|constructor].
  unfold Py.insert. rewrite List.Forall_forall. intros d Hd.
  apply in_app_or in Hd as [Hd|[<-|Hd]].
  - apply In_firstn in Hd. apply in_app_or in Hd as [Hd|Hd].
    + apply (In_firstn _ _ _ Hd).
    + apply (In_skipn _ _ _ Hd).
  - apply (nth_error_In _ _ Hi).
  - apply In_skipn in Hd. apply in_app_or in Hd as [Hd|Hd].
    + apply (In_firstn _ _ _ Hd).
    + apply (In_skipn _ _ _ Hd).
Qed.

(** ** Assembling the labelled outputs *)

Lemma output_coords_ok (s : MorletWaveletFilter) (time_axis : coord) :
  Forall (fun d => is_Some (coords (time_series s) !! d))
         (removelast (dims (time_series s))) ->
  is_Some (coords (time_series s) !! "samplerate") ->
  exists d,
    output_coords s time_axis = Ok d
    /\ d !! "time" = Some time_axis
    /\ d !! "frequency" = Some (mk_coord ["frequency"] (freqs s)).
Proof.
  intros Hdims [sr Hsr]. unfold output_coords.
  destruct (for_each_invariant (fun _ : gmap string coord => True)
              (fun d => is_Some (coords (time_series s) !! d))
              (fun (m : gmap string coord) dim_name =>
                 c ← getitem (time_series s) dim_name;
                 Ok (<[dim_name := c]> m))
              (removelast (dims (time_series s))) ∅)
    as (d0 & -> & _); [| exact Hdims | exact I |].
  { intros m d _ [c Hc]. unfold getitem. rewrite Hc. simpl. eauto. }
  simpl.
  set (d1 := <["time" := time_axis]>
               (<["frequency" := mk_coord ["frequency"] (freqs s)]> d0)).
  assert (d1 !! "time" = Some time_axis) as Ht
    by (unfold d1; apply lookup_insert_eq).
  assert (d1 !! "frequency" = Some (mk_coord ["frequency"] (freqs s)))
    as Hf.
  { unfold d1. rewrite lookup_insert_ne by discriminate.
    apply lookup_insert_eq. }
  assert (exists d2, (match d1 !! "samplerate" with
                      | None => c ← getitem (time_series s) "samplerate";
                                Ok (<["samplerate" := c]> d1)
                      | Some _ => Ok d1
                      end) = Ok d2
                     /\ d2 !! "time" = Some time_axis
                     /\ d2 !! "frequency"
                        = Some (mk_coord ["frequency"] (freqs s)))
    as (d2 & -> & Ht2 & Hf2).
  { destruct (d1 !! "samplerate"); [eauto|].
    unfold getitem. rewrite Hsr. simpl. eexists; split; [reflexivity|].
    rewrite !lookup_insert_ne by discriminate. auto. }
  simpl. unfold getitem.
  destruct (coords (time_series s) !! "offsets"); simpl.
  - eexists; split; [reflexivity|].
    rewrite !lookup_insert_ne by discriminate. auto.
  - eauto.
Qed.

Lemma label_output_ok (s : MorletWaveletFilter) (a : dense_array)
    (d : gmap string coord) (ds tds : list string) :
  Forall (fun x => In x ds) tds ->
  tds = [] \/ length tds = length ds ->
  exists x,
    label_output s (Some a) d ds tds = Ok (Some x)
    /\ isinstance_DataArray x = true
    /\ dims x = (if (0 <? length tds)%nat then tds else ds)
    /\ coords x = d
    /\ attrs x = attrs (time_series s)
    /\ ((values x = a /\ dims x = ds)
        \/ exists axes, axes_of (dims x) ds = Ok axes
                        /\ values x = nd_transpose axes a).
Proof.
  intros Hincl Hlen. unfold label_output.
  destruct (Nat.ltb_spec 0 (length tds)) as [Hpos|Hzero].
  - destruct Hlen as [->|Hlen]; [simpl in Hpos; lia|].
    unfold transpose. simpl. rewrite Hlen, Nat.eqb_refl. simpl.
    destruct (axes_of_ok tds ds Hincl) as (axes & Haxes).
    rewrite Haxes. simpl.
    eexists; split; [reflexivity|]. simpl.
    repeat split. right. exists axes. auto.
  - simpl. eexists; split; [reflexivity|]. simpl.
    repeat split. left. auto.
Qed.

Lemma frequency_in_output_dims (s : MorletWaveletFilter) :
  exists i, Py.index "frequency" (output_dims s) = Ok i
            /\ nth_error (output_dims s) i = Some "frequency"
            /\ (i < length (output_dims s))%nat.
Proof.
  apply index_In. unfold output_dims. apply in_or_app. right. left.
  reflexivity.
Qed.

Lemma build_output_arrays_DataArray (st : state) (time_axis : coord)
    (pow phase : option (dense_array)) :
  isinstance_DataArray (time_series (self st)) = true ->
  Forall (fun d => is_Some (coords (time_series (self st)) !! d))
         (removelast (dims (time_series (self st)))) ->
  is_Some (coords (time_series (self st)) !! "samplerate") ->
  exists pow_x phase_x,
    build_output_arrays pow phase time_axis st
    = (Ok (Some (pow_x, phase_x)), after_build st)
    /\ labels (self st) time_axis pow pow_x
    /\ labels (self st) time_axis phase phase_x.
Proof.
  intros Hda Hdims Hsr.
  unfold build_output_arrays. run_M.
  rewrite Hda. cbv beta iota.
  destruct (frequency_in_output_dims (self st)) as (i & Hi & Hnth & Hlt).
  rewrite Hi. cbv beta iota.
  destruct (output_coords_ok (self st) time_axis Hdims Hsr)
    as (d & Hd & Htime & Hfreq).
  rewrite Hd. cbv beta iota.
  set (tds := transposed_dims_of (output_dims (self st))
                (normalized_pos (self st)) i).
  assert (final_dims (self st)
          = if (0 <? length tds)%nat then tds else output_dims (self st))
    as Hfinal by (unfold final_dims; rewrite Hi; reflexivity).
  assert (forall a : option (dense_array),
             exists x, label_output (self st) a d (output_dims (self st)) tds
                       = Ok x
                       /\ labels (self st) time_axis a x) as Hlabel.
  { intros [a|]; [|exists None; split; reflexivity].
    destruct (label_output_ok (self st) a d (output_dims (self st)) tds)
      as (x & Hx & Hinst & Hdx & Hcx & Hax & Hval).
    - apply transposed_dims_incl. exact Hnth.
    - apply transposed_dims_length. exact Hlt.
    - exists (Some x). split; [exact Hx|]. simpl.
      rewrite Hfinal, Hcx. repeat split; assumption. }
  destruct (Hlabel pow) as (pow_x & -> & Hpow).
  destruct (Hlabel phase) as (phase_x & -> & Hphase).
  exists pow_x, phase_x. repeat split; assumption.
Qed.

Lemma build_output_arrays_other (st : state) (time_axis : coord)
    (pow phase : option (dense_array)) :
  isinstance_DataArray (time_series (self st)) = false ->
  build_output_arrays pow phase time_axis st = (Ok None, st).
Proof.
  intros Hda.
  unfold build_output_arrays. run_M.
  rewrite Hda. reflexivity.
Qed.

(** ** Running [filter] *)

Section Run.
Variables (st : state) (time_axis : coord) (samplerate : R) (s_w : Z).
Hypothesis Hwf : well_formed (self st) time_axis samplerate.
Hypothesis Hmax :
  Py.max (kernel_lengths (bank (self st) samplerate)) = Ok s_w.

Let Tn : nat := length (coord_values time_axis).
Let T : Z := Z.of_nat Tn.
Let P : Z := 2 ^ next_pow2 (s_w + T - 1).

Lemma compute_wavelet_ffts_run :
  compute_wavelet_ffts (self st)
  = if T <? s_w then Raise (ValueError_too_short T s_w)
    else Ok (map (fun wavelet => fft wavelet P)
                 (bank (self st) samplerate),
             map (fun wavelet => Z.of_nat (length wavelet) + T - 1)
                 (bank (self st) samplerate),
             P).
Proof.
  destruct (compute_wavelet_ffts_eq _ _ _ Hwf) as (m & Hm & Heq).
  rewrite Hmax in Hm. injection Hm as <-. exact Heq.
Qed.

(** Too short a time axis: the exception leaves [filter] before any
    state was touched. *)
Lemma filter_too_short :
  T < s_w -> filter st = (Raise (ValueError_too_short T s_w), st).
Proof.
  intros Hlt.
  unfold filter. run_M.
  rewrite (wf_time _ _ _ Hwf). cbv beta iota.
  unfold shape0.
  destruct (coord_dims time_axis) eqn:Hd;
    [exfalso; apply (wf_time_dims _ _ _ Hwf); exact Hd|].
  cbv beta iota. rewrite compute_wavelet_ffts_run.
  destruct (Z.ltb_spec T s_w); [reflexivity | lia].
Qed.

(** A time axis that holds the longest kernel: [filter] runs the two
    loops to their end and hands the arrays to [build_output_arrays]. *)
Lemma filter_run :
  s_w <= T ->
  exists arrays,
    wavelet_loop (self st) Tn
      (map (fun wavelet => fft wavelet P) (bank (self st) samplerate))
      (map (fun wavelet => Z.of_nat (length wavelet) + T - 1)
           (bank (self st) samplerate))
      P (get_data_iterator (self st))
      (allocate_output_arrays (self st) Tn) = Ok arrays
    /\ arrays_ok (self st) Tn arrays
    /\ (forall idx w,
           In idx (Py.product
                     (map (seq 0)
                          (removelast (shape (time_series (self st)))))) ->
           (w < length (bank (self st) samplerate))%nat ->
           rows_filled (self st) Tn (bank (self st) samplerate) P arrays
             idx w)
    /\ filter st
       = build_output_arrays (fst arrays) (snd arrays) time_axis
           (after_loop st).
Proof.
  intros Hle.
  destruct (wavelet_loop_rows _ _ _ Hwf s_w Hmax
              (allocate_output_arrays (self st) Tn)
              (allocate_output_arrays_ok _ _))
    as (arrays & Hloop & Hok & Hrows).
  exists arrays. split; [exact Hloop|]. split; [exact Hok|].
  split; [exact Hrows|].
  unfold filter, time_time. run_M.
  rewrite (wf_time _ _ _ Hwf). cbv beta iota.
  unfold shape0.
  destruct (coord_dims time_axis) eqn:Hd;
    [exfalso; apply (wf_time_dims _ _ _ Hwf); exact Hd|].
  cbv beta iota. rewrite compute_wavelet_ffts_run.
  destruct (Z.ltb_spec T s_w); [lia|].
  cbv beta iota. cbn [self stdout clock_reads].
  unfold P, T, Tn in *. rewrite Hloop. cbv beta iota.
  unfold after_loop, print, mret, M_ret.
  destruct (verbose (self st)); reflexivity.
Qed.

Lemma self_after_loop : self (after_loop st) = self st.
Proof. unfold after_loop. destruct (verbose (self st)); reflexivity. Qed.

Lemma samplerate_is_Some :
  is_Some (coords (time_series (self st)) !! "samplerate").
Proof.
  destruct (wf_samplerate _ _ _ Hwf) as (c & Hc & _).
  unfold getitem in Hc.
  destruct (coords (time_series (self st)) !! "samplerate");
    [eauto | discriminate].
Qed.

(** On a DataArray the run ends with both labelled outputs.  Each is made
    of the dense array the loops filled, and row [idx, w] of that array
    holds what the strategy makes of the cast coefficients of signal [idx]
    and kernel [w]. *)
Lemma filter_DataArray :
  s_w <= T ->
  isinstance_DataArray (time_series (self st)) = true ->
  exists arrays pow_x phase_x,
    arrays_ok (self st) Tn arrays
    /\ filter st
       = (Ok (Some (pow_x, phase_x)), after_build (after_loop st))
    /\ labels (self st) time_axis (fst arrays) pow_x
    /\ labels (self st) time_axis (snd arrays) phase_x
    /\ forall idx w,
         In idx (Py.product
                   (map (seq 0)
                        (removelast (shape (time_series (self st)))))) ->
         (w < length (bank (self st) samplerate))%nat ->
         rows_filled (self st) Tn (bank (self st) samplerate) P arrays
           idx w.
Proof.
  intros Hle Hda.
  destruct (filter_run Hle) as (arrays & _ & Hok & Hrows & Hrun).
  destruct (build_output_arrays_DataArray (after_loop st) time_axis
              (fst arrays) (snd arrays))
    as (pow_x & phase_x & Hb & Hp & Hph).
  - rewrite self_after_loop. exact Hda.
  - rewrite self_after_loop. apply (wf_coords _ _ _ Hwf Hda).
  - rewrite self_after_loop. apply samplerate_is_Some.
  - rewrite self_after_loop in Hp, Hph.
    exists arrays, pow_x, phase_x. rewrite Hrun. auto.
Qed.

(** On any other input the run ends with Python's [None]. *)
Lemma filter_other :
  s_w <= T ->
  isinstance_DataArray (time_series (self st)) = false ->
  filter st = (Ok None, after_loop st).
Proof.
  intros Hle Hda.
  destruct (filter_run Hle) as (arrays & _ & _ & _ & ->).
  apply build_output_arrays_other. rewrite self_after_loop. exact Hda.
Qed.

End Run.



(** ** The extent of the time dimension of a labelled output *)

Lemma nth_error_middle {A} (l : list A) (i : nat) (y : A) :
  nth_error l i = Some y -> l = firstn i l ++ y :: skipn (S i) l.
Proof.
  revert i. induction l as [|z l IH]; intros [|i]; simpl; try discriminate.
  - intros [= ->]. reflexivity.
  - intros H. f_equal. apply IH. exact H.
Qed.

Lemma In_without {A} (l : list A) (i : nat) (x y : A) :
  In x l -> nth_error l i = Some y -> x <> y ->
  In x (firstn i l ++ skipn (i + 1) l).
Proof.
  intros Hin Hnth Hne. rewrite Nat.add_1_r.
  rewrite (nth_error_middle l i y Hnth) in Hin.
  apply in_app_or in Hin as [Hin|[Heq|Hin]];
    [apply in_or_app; left; exact Hin
    | congruence
    | apply in_or_app; right; exact Hin].
Qed.

Lemma In_insert {A} (i : Z) (x y : A) (l : list A) :
  In x l -> In x (Py.insert i y l).
Proof.
  intros Hin. unfold Py.insert.
  set (k := Z.to_nat _).
  rewrite <- (firstn_skipn k l) in Hin.
  apply in_app_or in Hin as [Hin|Hin]; apply in_or_app;
    [left | right; right]; exact Hin.
Qed.

Lemma nth_second_last {A} (l : list A) (a b d : A) :
  nth (S (length l)) (l ++ [a; b]) d = b.
Proof. induction l as [|x l IH]; simpl; [reflexivity | exact IH]. Qed.

Lemma index_time_output_dims (s : MorletWaveletFilter) :
  ~ In "time" (removelast (dims (time_series s))) ->
  Py.index "time" (output_dims s)
  = Ok (S (length (removelast (dims (time_series s))))).
Proof.
  intros Hnin. unfold output_dims.
  change ["frequency"; "time"] with (["frequency"] ++ ["time"]).
  rewrite app_assoc.
  rewrite index_app_fresh.
  - rewrite length_app. simpl. f_equal. lia.
  - intros Hin. apply in_app_or in Hin as [Hin|[Heq|[]]];
      [tauto | discriminate].
Qed.

Lemma time_in_final_dims (s : MorletWaveletFilter) :
  In "time" (final_dims s).
Proof.
  assert (In "time" (output_dims s)) as Hin.
  { unfold output_dims. apply in_or_app. right. right. left. reflexivity. }
  unfold final_dims.
  destruct (frequency_in_output_dims s) as (i & -> & Hnth & _).
  cbv zeta. unfold transposed_dims_of.
  destruct (decide (normalized_pos s <> Z.of_nat i)); [|exact Hin].
  rewrite insert_length. simpl.
  apply In_insert. apply (In_without _ _ _ _ Hin Hnth). discriminate.
Qed.

Lemma labels_time_extent (s : MorletWaveletFilter) (time_axis : coord)
    (a : dense_array) (x : labelled_array) (n : nat) :
  labels s time_axis (Some a) (Some x) ->
  nd_shape a = output_shape s n ->
  ~ In "time" (removelast (dims (time_series s))) ->
  length (dims (time_series s)) = length (shape (time_series s)) ->
  dim_size x "time" = Ok n.
Proof.
  intros (_ & Hdims & _ & _ & _ & Hval) Hshape Hnin Hlen.
  assert (length (removelast (dims (time_series s)))
          = length (removelast (shape (time_series s)))) as Hlen'.
  { rewrite !removelast_firstn_len, !length_firstn. lia. }
  assert (nth (S (length (removelast (dims (time_series s)))))
              (nd_shape a) O = n) as Hn.
  { rewrite Hshape, Hlen'. unfold output_shape. apply nth_second_last. }
  pose proof (time_in_final_dims s) as Hin. rewrite <- Hdims in Hin.
  destruct (index_In _ _ Hin) as (j & Hj & Hnth & Hlt).
  unfold dim_size. rewrite Hj. simpl.
  pose proof (index_time_output_dims s Hnin) as Hk.
  destruct Hval as [[Hv Hd]|(axes & Haxes & Hv)].
  - rewrite Hd, Hk in Hj. injection Hj as <-.
    unfold shape. rewrite Hv.
    rewrite (nth_error_nth' _ O).
    + rewrite Hn. reflexivity.
    + rewrite Hshape, Hlen'. unfold output_shape. rewrite length_app.
      simpl. lia.
  - destruct (axes_of_nth _ _ _ _ _ Haxes Hnth) as (k & Hax & Hk').
    rewrite Hk in Hk'. injection Hk' as <-.
    unfold shape. rewrite Hv. simpl.
    rewrite (map_nth_error _ _ _ Hax). rewrite Hn. reflexivity.
Qed.

Lemma output_time_extent (s : MorletWaveletFilter) (time_axis : coord)
    (present : bool) (a : option (dense_array)) (x : labelled_array)
    (n : nat) :
  array_ok present (output_shape s n) a ->
  labels s time_axis a (Some x) ->
  ~ In "time" (removelast (dims (time_series s))) ->
  length (dims (time_series s)) = length (shape (time_series s)) ->
  dim_size x "time" = Ok n.
Proof.
  intros Hok Hl Hnin Hlen.
  destruct a as [a|]; [|contradiction].
  destruct Hok as [_ Hshape].
  apply (labels_time_extent s time_axis a x n Hl Hshape Hnin Hlen).
Qed.

(** ** Where the frequency axis ends up *)

Lemma placed_at {A} (k : nat) (l : list A) (f : A) :
  (k <= length l)%nat ->
  let d := firstn k l ++ f :: skipn k l in
  length d = S (length l)
  /\ nth_error d k = Some f
  /\ firstn k d ++ skipn (S k) d = l.
Proof.
  intros Hk d. subst d.
  assert (length (firstn k l) = k) as Hlen
    by (rewrite length_firstn; lia).
  split; [|split].
  - rewrite length_app. simpl. rewrite length_firstn, length_skipn. lia.
  - rewrite nth_error_app2 by lia. rewrite Hlen, Nat.sub_diag. reflexivity.
  - rewrite firstn_app, Hlen, Nat.sub_diag. simpl.
    rewrite firstn_firstn, Nat.min_id, app_nil_r.
    rewrite skipn_app, Hlen.
    replace (S k - k)%nat with 1%nat by lia. simpl.
    rewrite skipn_all2 by lia. simpl.
    exact (firstn_skipn k l).
Qed.

Lemma normalized_pos_mod (s : MorletWaveletFilter) :
  let rank := Z.of_nat (length (output_dims s)) in
  normalized_pos s = frequency_dim_pos s mod rank
  /\ 0 <= normalized_pos s < rank.
Proof.
  intros rank.
  assert (0 < rank) as Hpos.
  { unfold rank, output_dims. rewrite length_app. simpl. lia. }
  unfold normalized_pos. fold rank.
  split; [|apply Z.mod_pos_bound; exact Hpos].
  rewrite Z.add_comm.
  replace (frequency_dim_pos s + rank) with (frequency_dim_pos s + 1 * rank)
    by lia.
  apply Z_mod_plus_full.
Qed.

Lemma final_dims_placed (s : MorletWaveletFilter) :
  ~ In "frequency" (removelast (dims (time_series s))) ->
  let l := removelast (dims (time_series s)) ++ ["time"] in
  let k := Z.to_nat (normalized_pos s) in
  final_dims s = firstn k l ++ "frequency" :: skipn k l
  /\ (k <= length l)%nat.
Proof.
  intros Hnin l k.
  set (leading := removelast (dims (time_series s))) in *.
  destruct (normalized_pos_mod s) as [_ [H0 Hlt]].
  assert (length (output_dims s) = S (length l)) as Hrank.
  { unfold output_dims, l. fold leading. rewrite !length_app. simpl. lia. }
  rewrite Hrank in Hlt.
  assert (k <= length l)%nat as Hk by (unfold k; lia).
  split; [|exact Hk].
  assert (firstn (length leading) (output_dims s) = leading) as Hfirst.
  { unfold output_dims. fold leading.
    rewrite firstn_app, Nat.sub_diag, firstn_all. simpl.
    apply app_nil_r. }
  assert (skipn (length leading + 1) (output_dims s) = ["time"]) as Hskip.
  { unfold output_dims. fold leading.
    rewrite skipn_app, skipn_all2 by lia.
    replace (length leading + 1 - length leading)%nat with 1%nat by lia.
    reflexivity. }
  unfold final_dims.
  assert (Py.index "frequency" (output_dims s) = Ok (length leading))
    as ->.
  { unfold output_dims. fold leading. apply index_app_fresh. exact Hnin. }
  cbv zeta. unfold transposed_dims_of.
  destruct (decide (normalized_pos s <> Z.of_nat (length leading)))
    as [Hne|Heq].
  - rewrite insert_length. simpl.
    rewrite Hfirst, Hskip. fold l.
    unfold Py.insert, Py.slice_bound.
    destruct (Z.ltb_spec (normalized_pos s) 0); [lia|].
    rewrite Z.min_l by lia. reflexivity.
  - simpl.
    assert (k = length leading) as -> by (unfold k; lia).
    unfold l. rewrite firstn_app, Nat.sub_diag, firstn_all. simpl.
    rewrite skipn_app, skipn_all, Nat.sub_diag. simpl.
    rewrite app_nil_r. reflexivity.
Qed.

(** ** The value and the output of [filter] *)

Lemma build_output_arrays_value (st : state) (time_axis : coord)
    (pow phase : option (dense_array)) :
  fst (build_output_arrays pow phase time_axis st)
  = build_output_value (self st) pow phase time_axis
  /\ stdout (snd (build_output_arrays pow phase time_axis st)) = stdout st.
Proof.
  unfold build_output_arrays, build_output_value. run_M.
  destruct (isinstance_DataArray (time_series (self st)));
    [|split; reflexivity].
  cbv beta iota.
  destruct (Py.index "frequency" (output_dims (self st))) as [i|e];
    [|split; reflexivity].
  cbv beta iota zeta. simpl result_bind.
  destruct (output_coords (self st) time_axis) as [d|e];
    [|split; reflexivity].
  cbv beta iota. simpl result_bind.
  destruct (label_output (self st) pow d (output_dims (self st)) _)
    as [p|e]; [|split; reflexivity].
  cbv beta iota. simpl result_bind.
  destruct (label_output (self st) phase d (output_dims (self st)) _)
    as [ph|e]; split; reflexivity.
Qed.

(** [filter] returns [filter_value] of the filter object, whatever the
    rest of the state; it prints the timing line if [verbose] is set and
    the two loops ran to their end, and nothing otherwise. *)
Lemma filter_value_stdout (st : state) :
  fst (filter st) = filter_value (self st)
  /\ stdout (snd (filter st))
     = if verbose (self st)
          && match (time_axis ← getitem (time_series (self st)) "time";
                    time_axis_size ← shape0 time_axis;
                    run_loops (self st) time_axis_size) with
             | Ok _ => true
             | Raise _ => false
             end
       then stdout st ++ [timing_line st]
       else stdout st.
Proof.
  unfold filter, filter_value, run_loops, timing_line, time_time. run_M.
  destruct (getitem (time_series (self st)) "time") as [time_axis|e];
    [|rewrite andb_false_r; split; reflexivity].
  cbv beta iota. simpl result_bind.
  destruct (shape0 time_axis) as [n|e];
    [|rewrite andb_false_r; split; reflexivity].
  cbv beta iota. simpl result_bind.
  destruct (compute_wavelet_ffts (self st)) as [[[wfa csa] P]|e];
    [|rewrite andb_false_r; split; reflexivity].
  cbv beta iota. simpl result_bind. cbn [self stdout clock_reads].
  destruct (wavelet_loop (self st) n wfa csa P _ _) as [arrays|e];
    [|rewrite andb_false_r; split; reflexivity].
  cbv beta iota. rewrite andb_true_r.
  destruct (verbose (self st)); cbv beta iota; cbn [self stdout clock_reads].
  - match goal with
    | |- context [build_output_arrays ?p ?ph ?t ?st'] =>
        destruct (build_output_arrays_value st' t p ph) as [-> ->]
    end.
    split; reflexivity.
  - match goal with
    | |- context [build_output_arrays ?p ?ph ?t ?st'] =>
        destruct (build_output_arrays_value st' t p ph) as [-> ->]
    end.
    split; reflexivity.
Qed.

(** With an [output] that is neither 'power' nor 'phase', a DataArray
    run ends with both outputs, made of two dense arrays whose rows are the
    squared moduli and the angles of the coefficients. *)
Lemma filter_both_outputs (st : state) (time_axis : coord)
    (samplerate : R) (s_w : Z) :
  well_formed (self st) time_axis samplerate ->
  Py.max (kernel_lengths (bank (self st) samplerate)) = Ok s_w ->
  s_w <= Z.of_nat (length (coord_values time_axis)) ->
  isinstance_DataArray (time_series (self st)) = true ->
  output (self st) <> "power" -> output (self st) <> "phase" ->
  let time_axis_size := length (coord_values time_axis) in
  let P := 2 ^ next_pow2 (s_w + Z.of_nat time_axis_size - 1) in
  exists a b pow phase,
    filter st = (Ok (Some (Some pow, Some phase)), after_build (after_loop st))
    /\ labels (self st) time_axis (Some a) (Some pow)
    /\ labels (self st) time_axis (Some b) (Some phase)
    /\ forall idx w,
         In idx (Py.product
                   (map (seq 0)
                        (removelast (shape (time_series (self st)))))) ->
         (w < length (bank (self st) samplerate))%nat ->
         let coef :=
           coefficients (self st) time_axis_size (bank (self st) samplerate)
             P idx w in
         getrow a (idx ++ [w])
         = map Some (map (fun c => (real c ^ 2 + imag c ^ 2)%R) coef)
         /\ getrow b (idx ++ [w]) = map Some (map np_angle coef).
Proof.
  intros Hwf Hmax Hle Hda Hpow Hph Tn P.
  apply String.eqb_neq in Hpow, Hph.
  destruct (filter_DataArray st time_axis samplerate s_w Hwf Hmax Hle Hda)
    as (arrays & pow & phase & [Hp Hphs] & Hf & Hlp & Hlph & Hrows).
  assert (compute_power_and_phase_fcn (self st) = compute_power_and_phase)
    as Hfcn.
  { rewrite (wf_strategy _ _ _ Hwf). unfold select_strategy.
    rewrite Hpow, Hph. reflexivity. }
  unfold requested_power, requested_phase in Hp, Hphs.
  rewrite Hph in Hp. rewrite Hpow in Hphs.
  destruct arrays as [[a|] [b|]]; simpl in Hp, Hphs;
    try discriminate Hp; try discriminate Hphs.
  destruct pow as [pow|]; [|contradiction].
  destruct phase as [phase|]; [|contradiction].
  exists a, b, pow, phase. split; [exact Hf|].
  split; [exact Hlp|]. split; [exact Hlph|].
  intros idx w Hidx Hw coef.
  destruct (Hrows idx w Hidx Hw) as [H1 H2].
  unfold rows_filled in H1, H2. rewrite Hfcn in H1, H2.
  split; assumption.
Qed.

(** * The claims *)

(** C1.  On a valid input (the time axis holds the longest kernel) the
    loops of [filter] trim the convolution with kernel [w] from
    [floor((validLength_w - timeLength) / 2)] to that offset plus
    [timeLength], where [validLength_w = kernelLength_w + timeLength - 1]
    is the valid length of that kernel: the window so cut has exactly
    [timeLength] items and enters the coefficient buffer whole, and for
    every signal and every kernel the row that [filter] has written into
    each dense array is what the strategy makes of that window, a row of
    [timeLength] items.  The time dimension of every labelled power and
    phase output, made of these arrays, has [timeLength] items. *)
Theorem C1_trim_keeps_time_length (st : state) (time_axis : coord)
    (samplerate : R) (s_w : Z) :
  well_formed (self st) time_axis samplerate ->
  Py.max (kernel_lengths (bank (self st) samplerate)) = Ok s_w ->
  s_w <= Z.of_nat (length (coord_values time_axis)) ->
  let time_axis_size := length (coord_values time_axis) in
  let T := Z.of_nat time_axis_size in
  let s := self st in
  exists wavelet_fft_array convolution_size_array convolution_size_pow2
         arrays,
    compute_wavelet_ffts s
    = Ok (wavelet_fft_array, convolution_size_array, convolution_size_pow2)
    /\ wavelet_loop s time_axis_size wavelet_fft_array
         convolution_size_array convolution_size_pow2
         (get_data_iterator s) (allocate_output_arrays s time_axis_size)
       = Ok arrays
    /\ filter st
       = build_output_arrays (fst arrays) (snd arrays) time_axis
           (after_loop st)
    /\ (forall (w : nat) (signal : list C),
           (w < length wavelet_fft_array)%nat ->
           let v := nth w convolution_size_array 0 in
           let trimmed :=
             Py.slice
               (ifft (zip_with Cmul (nth w wavelet_fft_array [])
                               (fft signal convolution_size_pow2)))
               (start_offset v T) (end_offset v T) in
           v = Z.of_nat (length (nth w (bank s samplerate) [])) + T - 1
           /\ start_offset v T = Z.div (v - T) 2
           /\ end_offset v T = start_offset v T + T
           /\ length trimmed = time_axis_size
           /\ exists buf,
                assign_buffer to_complex64 time_axis_size trimmed = Ok buf
                /\ length buf = time_axis_size)
    /\ (forall (idx : list nat) (w : nat),
           In idx (Py.product
                     (map (seq 0) (removelast (shape (time_series s))))) ->
           (w < length wavelet_fft_array)%nat ->
           let v := nth w convolution_size_array 0 in
           let trimmed :=
             Py.slice
               (ifft (zip_with Cmul (nth w wavelet_fft_array [])
                               (fft (getrow (values (time_series s)) idx)
                                    convolution_size_pow2)))
               (start_offset v T) (end_offset v T) in
           let single :=
             compute_power_and_phase_fcn s (map to_complex64 trimmed) in
           row_is (fst arrays) (idx ++ [w]) (fst single)
           /\ row_is (snd arrays) (idx ++ [w]) (snd single)
           /\ forall a, fst arrays = Some a \/ snd arrays = Some a ->
                        length (getrow a (idx ++ [w])) = time_axis_size)
    /\ (isinstance_DataArray (time_series s) = true ->
        ~ In "time" (removelast (dims (time_series s))) ->
        length (dims (time_series s)) = length (shape (time_series s)) ->
        exists pow phase st',
          filter st = (Ok (Some (pow, phase)), st')
          /\ labels s time_axis (fst arrays) pow
          /\ labels s time_axis (snd arrays) phase
          /\ forall x, pow = Some x \/ phase = Some x ->
                       dim_size x "time" = Ok time_axis_size).
Proof.
  intros Hwf Hmax Hle Tn T s. subst s.
  destruct (filter_run st time_axis samplerate s_w Hwf Hmax Hle)
    as (arrays & Hloop & [Hp Hph] & Hrows & Hrun).
  fold Tn T in Hloop, Hp, Hph, Hrows.
  eexists _, _, _, arrays. split; [|split; [|split; [|split; [|split]]]].
  - rewrite (compute_wavelet_ffts_run st time_axis samplerate s_w Hwf Hmax).
    destruct (Z.ltb_spec (Z.of_nat (length (coord_values time_axis))) s_w);
      [lia | reflexivity].
  - exact Hloop.
  - exact Hrun.
  - intros w signal Hw v trimmed. rewrite length_map in Hw.
    pose proof (trim_length (self st) time_axis samplerate Hwf s_w Hmax w
                  (fft signal (2 ^ next_pow2 (s_w + T - 1))) Hw
                  (fft_length _ _)) as Hlen.
    cbv zeta in Hlen. fold T in Hlen. fold v in Hlen. fold trimmed in Hlen.
    split; [apply (nth_convolution_size (self st) time_axis samplerate
                     w Hw)|].
    split; [reflexivity|]. split; [reflexivity|].
    split; [exact Hlen|].
    exists (map to_complex64 trimmed).
    split; [apply assign_buffer_ok; exact Hlen|].
    rewrite length_map. exact Hlen.
  - intros idx w Hidx Hw. rewrite length_map in Hw.
    destruct (Hrows idx w Hidx Hw) as [Hr1 Hr2].
    unfold coefficients in Hr1, Hr2. cbv zeta in Hr1, Hr2.
    fold T in Hr1, Hr2.
    rewrite (nth_convolution_size (self st) time_axis samplerate w Hw).
    rewrite (nth_wavelet_fft (self st) time_axis samplerate s_w w Hw).
    fold T. cbv zeta.
    split; [exact Hr1|]. split; [exact Hr2|].
    intros a Ha. unfold getrow. rewrite length_map, length_seq.
    destruct Ha as [Ha|Ha]; [rewrite Ha in Hp | rewrite Ha in Hph].
    + destruct Hp as [_ ->]. apply output_shape_last.
    + destruct Hph as [_ ->]. apply output_shape_last.
  - intros Hda Hnin Hdims.
    destruct (build_output_arrays_DataArray (after_loop st) time_axis
                (fst arrays) (snd arrays))
      as (pow & phase & Hb & Hlp & Hlph).
    + rewrite self_after_loop. exact Hda.
    + rewrite self_after_loop. apply (wf_coords _ _ _ Hwf Hda).
    + rewrite self_after_loop.
      apply (samplerate_is_Some st time_axis samplerate Hwf).
    + rewrite self_after_loop in Hlp, Hlph.
      eexists pow, phase, _. split; [rewrite Hrun; exact Hb|].
      split; [exact Hlp|]. split; [exact Hlph|].
      intros x [->| ->].
      * apply (output_time_extent (self st) time_axis _ _ x Tn Hp Hlp
                 Hnin Hdims).
      * apply (output_time_extent (self st) time_axis _ _ x Tn Hph Hlph
                 Hnin Hdims).
Qed.

(** C2.  On an input that has a time axis, a sample rate and a bank,
    [filter] fails exactly when the longest kernel is strictly longer than
    the time axis.  The exception then carries a message with both
    lengths and [filter] leaves no trace: nothing is returned, printed or
    changed.  With a time axis as long as the longest kernel, or longer,
    [filter] returns. *)
Theorem C2_fails_iff_kernel_longer (st : state) (time_axis : coord)
    (samplerate : R) (s_w : Z) :
  well_formed (self st) time_axis samplerate ->
  Py.max (kernel_lengths (bank (self st) samplerate)) = Ok s_w ->
  let T := Z.of_nat (length (coord_values time_axis)) in
  (T < s_w ->
   filter st
   = (Raise (ValueError
               ("Time series length (l_ts=" +:+ Py.str T
                +:+ ") is shorter than maximum wavelet length (l_w="
                +:+ Py.str s_w
                +:+ "). Please use longer time series or increase lowest wavelet frequency ")),
      st))
  /\ (s_w <= T -> exists out st', filter st = (Ok out, st'))
  /\ ((exists e st', filter st = (Raise e, st')) <-> T < s_w).
Proof.
  intros Hwf Hmax T.
  assert (s_w <= T -> exists out st', filter st = (Ok out, st')) as Hok.
  { intros Hle.
    destruct (isinstance_DataArray (time_series (self st))) eqn:Hda.
    - destruct (filter_DataArray st time_axis samplerate s_w Hwf Hmax
                  Hle Hda) as (arrays & p & ph & _ & -> & _).
      eauto.
    - rewrite (filter_other st time_axis samplerate s_w Hwf Hmax Hle Hda).
      eauto. }
  split; [|split; [exact Hok|split]].
  - intros Hlt.
    apply (filter_too_short st time_axis samplerate s_w Hwf Hmax Hlt).
  - intros (e & st' & He).
    destruct (Z.lt_ge_cases T s_w) as [Hlt|Hle]; [exact Hlt|].
    destruct (Hok Hle) as (out & st'' & Hout). congruence.
  - intros Hlt.
    rewrite (filter_too_short st time_axis samplerate s_w Hwf Hmax Hlt).
    eauto.
Qed.

(** C4.  Whatever position [p] is requested for the frequency axis,
    negative ones included, [filter] normalises it to [p mod rank], where
    [rank] is the number of dims of the output; in the dims of every
    output returned, 'frequency' stands at exactly that index, and what
    remains once it is taken out is the leading dims of the input followed
    by 'time', in their original order. *)
Theorem C4_frequency_axis_position (st : state) (time_axis : coord)
    (samplerate : R) (s_w : Z) :
  well_formed (self st) time_axis samplerate ->
  Py.max (kernel_lengths (bank (self st) samplerate)) = Ok s_w ->
  s_w <= Z.of_nat (length (coord_values time_axis)) ->
  isinstance_DataArray (time_series (self st)) = true ->
  ~ In "frequency" (removelast (dims (time_series (self st)))) ->
  let s := self st in
  let rank := length (output_dims s) in
  let p := frequency_dim_pos s mod Z.of_nat rank in
  exists pow phase st',
    filter st = (Ok (Some (pow, phase)), st')
    /\ frequency_dim_pos (self st') = p
    /\ forall x, pow = Some x \/ phase = Some x ->
         length (dims x) = rank
         /\ nth_error (dims x) (Z.to_nat p) = Some "frequency"
         /\ firstn (Z.to_nat p) (dims x) ++ skipn (S (Z.to_nat p)) (dims x)
            = removelast (dims (time_series s)) ++ ["time"].
Proof.
  intros Hwf Hmax Hle Hda Hnin s rank p. subst s.
  destruct (filter_DataArray st time_axis samplerate s_w Hwf Hmax Hle Hda)
    as (arrays & pow & phase & _ & Hf & Hlp & Hlph & _).
  destruct (normalized_pos_mod (self st)) as [Hnorm _].
  fold rank in Hnorm. fold p in Hnorm.
  eexists pow, phase, _. split; [exact Hf|]. split.
  { unfold after_build. simpl. rewrite self_after_loop. exact Hnorm. }
  assert (forall a x, labels (self st) time_axis a (Some x) ->
                      dims x = final_dims (self st)) as Hdims.
  { intros [a|] x Hl; [|contradiction]. apply Hl. }
  destruct (final_dims_placed (self st) Hnin) as [Hfinal Hk].
  rewrite Hnorm in Hfinal, Hk.
  destruct (placed_at _ _ "frequency" Hk) as (Hlen & Hnth & Hrest).
  rewrite <- Hfinal in Hlen, Hnth, Hrest.
  assert (length (final_dims (self st)) = rank) as Hrank.
  { rewrite Hlen. unfold rank, output_dims. rewrite !length_app. simpl.
    lia. }
  intros x [->| ->].
  - rewrite (Hdims _ _ Hlp). auto.
  - rewrite (Hdims _ _ Hlph). auto.
Qed.

(** C5.  The constructor accepts any [output] string.  If the string is
    neither 'power' nor 'phase' (the default empty string included) the
    strategy is the one that computes both, both dense arrays are
    allocated, and [filter] returns a power output and a phase output,
    neither of them [None]: they are made of two dense arrays in which,
    for every signal and every kernel, the row holds the squared moduli,
    respectively the angles, of the coefficients. *)
Theorem C5_other_output_computes_both (ts : TimeSeriesX C) (kw : kwds)
    (out : list printed) (clock : nat) (time_axis : coord)
    (samplerate : R) (s_w : Z) :
  let s := init ts kw in
  output s <> "power" -> output s <> "phase" ->
  well_formed s time_axis samplerate ->
  Py.max (kernel_lengths (bank s samplerate)) = Ok s_w ->
  s_w <= Z.of_nat (length (coord_values time_axis)) ->
  isinstance_DataArray ts = true ->
  output s = default EmptyString (kw_output kw)
  /\ compute_power_and_phase_fcn s = compute_power_and_phase
  /\ (exists a b,
         allocate_output_arrays s (length (coord_values time_axis))
         = (Some a, Some b))
  /\ exists a b pow phase st',
       filter (mk_state s out clock)
       = (Ok (Some (Some pow, Some phase)), st')
       /\ labels s time_axis (Some a) (Some pow)
       /\ labels s time_axis (Some b) (Some phase)
       /\ forall idx w,
            In idx (Py.product (map (seq 0) (removelast (shape ts)))) ->
            (w < length (bank s samplerate))%nat ->
            let coef :=
              coefficients s (length (coord_values time_axis))
                (bank s samplerate)
                (2 ^ next_pow2
                       (s_w + Z.of_nat (length (coord_values time_axis)) - 1))
                idx w in
            getrow a (idx ++ [w])
            = map Some (map (fun c => (real c ^ 2 + imag c ^ 2)%R) coef)
            /\ getrow b (idx ++ [w]) = map Some (map np_angle coef).
Proof.
  intros s Hpow Hph Hwf Hmax Hle Hda.
  assert (String.eqb (output s) "power" = false) as Epow
    by (apply String.eqb_neq; exact Hpow).
  assert (String.eqb (output s) "phase" = false) as Eph
    by (apply String.eqb_neq; exact Hph).
  split; [reflexivity|].
  split.
  { rewrite (wf_strategy _ _ _ Hwf). unfold select_strategy.
    rewrite Epow, Eph. reflexivity. }
  split.
  { unfold allocate_output_arrays. rewrite Epow, Eph. eauto. }
  assert (time_series s = ts) as Hts.
  { unfold s, init. destruct (init_attrs kw) as [[[[? ?] ?] ?] ?].
    reflexivity. }
  destruct (filter_both_outputs (mk_state s out clock) time_axis samplerate
              s_w Hwf Hmax Hle)
    as (a & b & pow & phase & Hf & Hlp & Hlph & Hrows);
    [| exact Hpow | exact Hph |].
  { cbn [self]. rewrite Hts. exact Hda. }
  cbn [self] in Hlp, Hlph, Hrows. rewrite Hts in Hrows.
  eexists a, b, pow, phase, _. split; [exact Hf|].
  split; [exact Hlp|]. split; [exact Hlph|]. exact Hrows.
Qed.

(** C6.  The padded FFT length is the next power of two at or above
    [maxKernelLength + timeLength - 1]: it is a power of two, it is at
    least that size, and no smaller power of two is.  Every kernel's FFT is
    taken at that one length, and next to kernel [w] the valid convolution
    length of that kernel, [kernelLength_w + timeLength - 1], is stored. *)
Theorem C6_wavelet_bank_lengths (s : MorletWaveletFilter)
    (time_axis : coord) (samplerate : R) (s_w : Z) :
  well_formed s time_axis samplerate ->
  Py.max (kernel_lengths (bank s samplerate)) = Ok s_w ->
  s_w <= Z.of_nat (length (coord_values time_axis)) ->
  let T := Z.of_nat (length (coord_values time_axis)) in
  let wavelets := bank s samplerate in
  exists wavelet_fft_array convolution_size_array convolution_size_pow2,
    compute_wavelet_ffts s
    = Ok (wavelet_fft_array, convolution_size_array, convolution_size_pow2)
    /\ convolution_size_pow2 = 2 ^ next_pow2 (s_w + T - 1)
    /\ 0 <= next_pow2 (s_w + T - 1)
    /\ s_w + T - 1 <= convolution_size_pow2
    /\ (forall q, 0 <= q -> s_w + T - 1 <= 2 ^ q ->
                  convolution_size_pow2 <= 2 ^ q)
    /\ length wavelet_fft_array = length wavelets
    /\ length convolution_size_array = length wavelets
    /\ forall w, (w < length wavelets)%nat ->
         nth w wavelet_fft_array []
         = fft (nth w wavelets []) convolution_size_pow2
         /\ length (nth w wavelet_fft_array [])
            = Z.to_nat convolution_size_pow2
         /\ nth w convolution_size_array 0
            = Z.of_nat (length (nth w wavelets [])) + T - 1.
Proof.
  intros Hwf Hmax Hle T wavelets.
  destruct (compute_wavelet_ffts_eq s time_axis samplerate Hwf)
    as (m & Hm & Heq).
  rewrite Hmax in Hm. injection Hm as <-.
  fold T in Heq. fold wavelets in Heq.
  destruct (Z.ltb_spec T s_w) as [Hlt|_]; [unfold T in Hlt; lia|].
  eexists _, _, _. split; [exact Heq|].
  split; [reflexivity|].
  split; [apply next_pow2_nonneg|].
  split; [apply next_pow2_ge|].
  split; [intros q Hq Hs; apply next_pow2_least; assumption|].
  split; [apply length_map|].
  split; [apply length_map|].
  intros w Hw.
  pose proof (nth_wavelet_fft s time_axis samplerate s_w w Hw) as Hn.
  pose proof (nth_convolution_size s time_axis samplerate w Hw) as Hc.
  fold wavelets T in Hn, Hc. cbv zeta in Hn.
  repeat split.
  - exact Hn.
  - rewrite Hn. apply fft_length.
  - exact Hc.
Qed.

(** C7 (amended).  The time coordinate of every output [filter] returns
    is the original time axis of the input, whether or not a resampling
    rate is attached to the filter object: [filter] never calls
    [resample_time_axis], its value does not depend on [resamplerate], and
    the signals it convolves are the rows of the input array. *)
Theorem C7_time_axis_is_original (st : state) (time_axis : coord)
    (samplerate : R) (s_w : Z) :
  well_formed (self st) time_axis samplerate ->
  Py.max (kernel_lengths (bank (self st) samplerate)) = Ok s_w ->
  s_w <= Z.of_nat (length (coord_values time_axis)) ->
  isinstance_DataArray (time_series (self st)) = true ->
  (forall r,
      fst (filter (mk_state (set_resamplerate r (self st)) (stdout st)
                     (clock_reads st)))
      = fst (filter st))
  /\ Forall (fun item =>
               snd item = getrow (values (time_series (self st))) (fst item))
            (get_data_iterator (self st))
  /\ getitem (time_series (self st)) "time" = Ok time_axis
  /\ exists pow phase st',
       filter st = (Ok (Some (pow, phase)), st')
       /\ forall x, pow = Some x \/ phase = Some x ->
                    coords x !! "time" = Some time_axis.
Proof.
  intros Hwf Hmax Hle Hda.
  split; [|split; [|split]].
  - intros r.
    rewrite (proj1 (filter_value_stdout _)).
    rewrite (proj1 (filter_value_stdout st)).
    reflexivity.
  - unfold get_data_iterator, all_but_time_iterator.
    rewrite List.Forall_forall. intros item Hin.
    apply in_map_iff in Hin as (idx & <- & _). reflexivity.
  - apply (wf_time _ _ _ Hwf).
  - destruct (filter_DataArray st time_axis samplerate s_w Hwf Hmax Hle Hda)
      as (arrays & pow & phase & _ & Hf & Hlp & Hlph & _).
    eexists pow, phase, _. split; [exact Hf|].
    intros x [->| ->].
    + destruct (fst arrays); [apply Hlp | contradiction].
    + destruct (snd arrays); [apply Hlph | contradiction].
Qed.

(** C8.  The value [filter] returns, be it a result or an exception, is
    the same with [verbose] set and unset.  Unset, nothing is printed; set,
    the only effect is the one timing line, printed when the loops ran to
    their end. *)
Theorem C8_verbose_only_prints (st : state) :
  let run b :=
    filter (mk_state (set_verbose b (self st)) (stdout st) (clock_reads st))
  in
  fst (run true) = fst (run false)
  /\ stdout (snd (run false)) = stdout st
  /\ (stdout (snd (run true)) = stdout st
      \/ stdout (snd (run true)) = stdout st ++ [timing_line st])
  /\ (is_Ok (fst (run true)) ->
      stdout (snd (run true)) = stdout st ++ [timing_line st]).
Proof.
  intros run. subst run. cbv beta.
  destruct (filter_value_stdout
              (mk_state (set_verbose true (self st)) (stdout st)
                 (clock_reads st))) as [Vt Ot].
  destruct (filter_value_stdout
              (mk_state (set_verbose false (self st)) (stdout st)
                 (clock_reads st))) as [Vf Of].
  rewrite Vt, Vf, Ot, Of. cbn [self stdout clock_reads].
  change (verbose (set_verbose true (self st))) with true.
  change (verbose (set_verbose false (self st))) with false.
  change (timing_line (mk_state (set_verbose true (self st)) (stdout st)
                         (clock_reads st))) with (timing_line st).
  rewrite andb_true_l, andb_false_l.
  split; [reflexivity|]. split; [reflexivity|].
  unfold filter_value.
  destruct (getitem (time_series (set_verbose true (self st))) "time")
    as [time_axis|e]; simpl; [|tauto].
  destruct (shape0 time_axis) as [n|e]; simpl; [|tauto].
  destruct (run_loops (set_verbose true (self st)) n) as [arrays|e];
    simpl; tauto.
Qed.


(** * Further properties of the code *)

(** ** The iteration over the leading axes *)

Lemma product_complete (sizes idx : list nat) :
  in_bounds idx sizes = true -> In idx (Py.product (map (seq 0) sizes)).
Proof.
  revert idx. induction sizes as [|n sizes IH]; intros [|i idx]; simpl;
    try discriminate.
  - intros _. left. reflexivity.
  - intros H. apply andb_prop in H as [Hi Hidx].
    apply Nat.ltb_lt in Hi. apply in_flat_map.
    exists i. split; [apply in_seq; lia|].
    apply in_map. apply IH. exact Hidx.
Qed.

Lemma product_length (ranges : list (list nat)) :
  length (Py.product ranges)
  = fold_right Nat.mul 1%nat (map (@length nat) ranges).
Proof.
  induction ranges as [|r rs IH]; simpl; [reflexivity|].
  rewrite <- IH. clear IH.
  induction r as [|i r IHr]; simpl; [reflexivity|].
  rewrite length_app, length_map, IHr. reflexivity.
Qed.

Lemma NoDup_map_cons (i : nat) (l : list (list nat)) :
  List.NoDup l -> List.NoDup (map (cons i) l).
Proof.
  induction 1 as [|x l Hx _ IH]; simpl; constructor; [|exact IH].
  intros Hin. apply in_map_iff in Hin as (y & [= ->] & Hy). contradiction.
Qed.

Lemma product_NoDup (ranges : list (list nat)) :
  Forall (@List.NoDup nat) ranges -> List.NoDup (Py.product ranges).
Proof.
  induction 1 as [|r rs Hr _ IH]; simpl.
  - constructor; [intros [] | constructor].
  - induction Hr as [|i r Hi _ IHr]; simpl; [constructor|].
    apply List.NoDup_app.
    + apply NoDup_map_cons. exact IH.
    + exact IHr.
    + intros x Hx1 Hx2.
      apply in_map_iff in Hx1 as (a & <- & _).
      apply in_flat_map in Hx2 as (j & Hj & Hx2).
      apply in_map_iff in Hx2 as (b & [= <- _] & _).
      contradiction.
Qed.

Lemma getrow_length {A} (a : ndarray A) (idx : list nat) :
  length (getrow a idx) = List.last (nd_shape a) O.
Proof. unfold getrow. rewrite length_map, length_seq. reflexivity. Qed.

(** X1.  [all_but_time_iterator] visits every index tuple of the axes
    before the last exactly once: the tuples it yields are pairwise
    different, a tuple is yielded if and only if it is within the bounds of
    those axes, their number is the product of the sizes of those axes, and
    each comes with the row found there, which has as many samples as the
    last axis. *)
Theorem X1_iterator_visits_each_index_once {A} (array : TimeSeriesX A) :
  let items := all_but_time_iterator array in
  List.NoDup (map fst items)
  /\ (forall idx, In idx (map fst items)
                  <-> in_bounds idx (removelast (shape array)) = true)
  /\ length items = fold_right Nat.mul 1%nat (removelast (shape array))
  /\ Forall (fun item =>
               snd item = getrow (values array) (fst item)
               /\ length (snd item) = List.last (shape array) O)
            items.
Proof.
  intros items. subst items. unfold all_but_time_iterator.
  rewrite map_map. simpl. rewrite map_id.
  split; [|split; [|split]].
  - apply product_NoDup. rewrite List.Forall_forall. intros r Hr.
    apply in_map_iff in Hr as (n & <- & _). apply seq_NoDup.
  - intros idx. split; [apply product_in_bounds | apply product_complete].
  - rewrite length_map, product_length, map_map.
    f_equal. rewrite <- (map_id (removelast (shape array))) at 2.
    apply map_ext. intros n. apply length_seq.
  - rewrite List.Forall_forall. intros item Hin.
    apply in_map_iff in Hin as (idx & <- & _). simpl.
    split; [reflexivity | apply getrow_length].
Qed.

Lemma product_empty_range (ranges : list (list nat)) :
  In [] ranges -> Py.product ranges = [].
Proof.
  induction ranges as [|r rs IH]; simpl; [intros []|].
  intros [->|Hin]; [reflexivity|].
  rewrite (IH Hin). induction r as [|i r IHr]; simpl; [reflexivity|].
  exact IHr.
Qed.

(** X2.  The two edge shapes of the iteration.  If some axis before the
    last has size 0 the iterator yields nothing, so the loops of [filter]
    convolve nothing and store nothing: they hand back the arrays as they
    were allocated, whatever the bank.  If the input has the time axis
    only, the iterator yields one item: the empty index tuple with the
    whole array as the signal. *)
Theorem X2_iterator_edge_shapes (s : MorletWaveletFilter) :
  (In O (removelast (shape (time_series s))) ->
   get_data_iterator s = []
   /\ forall time_axis_size wavelet_fft_array convolution_size_array
             convolution_size_pow2 arrays,
        wavelet_loop s time_axis_size wavelet_fft_array
          convolution_size_array convolution_size_pow2
          (get_data_iterator s) arrays = Ok arrays)
  /\ (forall n, shape (time_series s) = [n] ->
        get_data_iterator s
        = [([], map (fun t => nd_item (values (time_series s)) [t])
                    (seq 0 n))]).
Proof.
  split.
  - intros Hin.
    assert (get_data_iterator s = []) as Hnil.
    { unfold get_data_iterator, all_but_time_iterator.
      rewrite product_empty_range; [reflexivity|].
      apply in_map_iff. exists O. split; [reflexivity | exact Hin]. }
    split; [exact Hnil|]. intros. rewrite Hnil. reflexivity.
  - intros n Hn. unfold get_data_iterator, all_but_time_iterator, getrow.
    unfold shape in Hn |- *. rewrite Hn. reflexivity.
Qed.

(** ** Allocation, the strategy and [store] *)

(** X3.  The constructor and [allocate_output_arrays] agree on what is
    computed: on a filter built by [__init__], an output array is allocated
    exactly if the strategy chosen there returns a row for it, so [store]
    never meets a computed row without its array nor leaves an allocated
    array without rows.  The allocated arrays have the shape of the input
    with the time axis replaced by the frequency axis and a time axis of
    the requested size. *)
Theorem X3_allocation_matches_strategy (ts : TimeSeriesX C) (kw : kwds)
    (time_axis_size : nat) (wavelet_coef_array : list C) :
  let s := init ts kw in
  let arrays := allocate_output_arrays s time_axis_size in
  let single := compute_power_and_phase_fcn s wavelet_coef_array in
  (fst arrays = None <-> fst single = None)
  /\ (snd arrays = None <-> snd single = None)
  /\ (fst arrays = None <-> output s = "phase")
  /\ (snd arrays = None <-> output s = "power")
  /\ forall a, fst arrays = Some a \/ snd arrays = Some a ->
       nd_shape a
       = removelast (shape ts) ++ [length (freqs s); time_axis_size].
Proof.
  clear morlet_multi ResampleFilter to_complex64 wall_clock.
  intros s arrays single. subst arrays single.
  assert (time_series s = ts /\ compute_power_and_phase_fcn s
                                = select_strategy (output s)) as [Hts Hfcn].
  { unfold s, init. destruct (init_attrs kw) as [[[[? ?] ?] ?] ?].
    split; reflexivity. }
  clearbody s.
  rewrite Hfcn. unfold allocate_output_arrays, select_strategy.
  rewrite Hts.
  destruct (String.eqb_spec (output s) "power") as [Hpow|Hpow].
  - rewrite Hpow. simpl.
    repeat split; try discriminate; try reflexivity.
    intros a [[= <-]|[=]]. reflexivity.
  - destruct (String.eqb_spec (output s) "phase") as [Hph|Hph]; simpl.
    + rewrite Hph.
      repeat split; try discriminate; try reflexivity.
      intros a [[=]|[= <-]]. reflexivity.
    + repeat split; try discriminate; try (intros; contradiction).
      intros a [[= <-]|[= <-]]; reflexivity.
Qed.

(** X4.  [store] writes one row and nothing else.  Without a source row
    the target comes back as it was.  With a source row of the length of
    the last axis and an index tuple within the bounds of the other axes,
    the new array has the old shape, the row is read back at that index,
    and every other row is as before.  A source row for a target that is
    [None] is a TypeError, an index tuple with one index per leading axis
    and some index beyond its axis an IndexError, and a row of another
    length, unless it has one item, a ValueError. *)
Theorem X4_store_writes_one_row (idx_tuple : list nat) (a : dense_array)
    (row : list R) :
  (forall target, store idx_tuple target None = Ok target)
  /\ store idx_tuple None (Some row)
     = Raise (TypeError "'NoneType' object does not support item assignment")
  /\ (length idx_tuple = length (removelast (nd_shape a)) ->
      in_bounds idx_tuple (removelast (nd_shape a)) = false ->
      store idx_tuple (Some a) (Some row)
      = Raise (IndexError "index is out of bounds"))
  /\ (in_bounds idx_tuple (removelast (nd_shape a)) = true ->
      length row = List.last (nd_shape a) O ->
      exists a',
        store idx_tuple (Some a) (Some row) = Ok (Some a')
        /\ nd_shape a' = nd_shape a
        /\ getrow a' idx_tuple = map Some row
        /\ forall j, j <> idx_tuple -> getrow a' j = getrow a j)
  /\ (in_bounds idx_tuple (removelast (nd_shape a)) = true ->
      length row <> List.last (nd_shape a) O -> length row <> 1%nat ->
      store idx_tuple (Some a) (Some row)
      = Raise (ValueError "could not broadcast input array")).
Proof.
  split; [reflexivity|]. split; [reflexivity|].
  split; [|split].
  - intros _ Hb. unfold store, setrow. rewrite Hb. reflexivity.
  - intros Hb Hlen. unfold store.
    destruct (setrow a idx_tuple (map Some row)) as [a'|e] eqn:Hset.
    + exists a'. split; [reflexivity|].
      split; [apply (setrow_shape _ _ _ _ Hset)|].
      split.
      * apply (getrow_setrow_same a a' idx_tuple (map Some row));
          [rewrite length_map; exact Hlen | exact Hset].
      * intros j Hj.
        apply (getrow_setrow_other a a' idx_tuple j (map Some row) Hj Hset).
    + exfalso. unfold setrow in Hset. rewrite Hb in Hset. simpl in Hset.
      rewrite length_map, Hlen, Nat.eqb_refl in Hset. discriminate.
  - intros Hb Hlen H1. unfold store, setrow. rewrite Hb. simpl.
    rewrite length_map.
    destruct (Nat.eqb_spec (length row) (List.last (nd_shape a) O));
      [contradiction|].
    destruct row as [|x [|y row]]; simpl; try reflexivity.
    exfalso. apply H1. reflexivity.
Qed.

(** ** [resample_time_axis] *)

(** X5.  [resample_time_axis] reads [self.resamplerate], which [__init__]
    never sets: on a freshly constructed filter it raises AttributeError.
    Once a caller has attached a rate, the second component of whatever
    the method returns is the time axis of the input; with a rate that is
    not positive the first component is that same axis, and with a
    positive rate an input of fewer than three axes cannot be indexed by
    [[0, 0, :]] and the method raises IndexError. *)
Theorem X5_resample_time_axis :
  (forall ts kw,
      resample_time_axis (init ts kw)
      = Raise (AttributeError "resamplerate"))
  /\ forall s rate,
       resamplerate s = Some rate ->
       (forall rs_time_axis time_axis,
           resample_time_axis s = Ok (rs_time_axis, time_axis) ->
           getitem (time_series s) "time" = Ok time_axis)
       /\ ((rate <= 0)%R ->
           resample_time_axis s
           = (time_axis ← getitem (time_series s) "time";
              Ok (time_axis, time_axis)))
       /\ ((0 < rate)%R -> (length (shape (time_series s)) < 3)%nat ->
           resample_time_axis s
           = Raise (IndexError "too many indices for array")).
Proof.
  split.
  - intros ts kw. unfold init.
    destruct (init_attrs kw) as [[[[? ?] ?] ?] ?]. reflexivity.
  - intros s rate Hrate. unfold resample_time_axis. rewrite Hrate.
    split; [|split].
    + intros rs t H.
      apply bind_Ok in H as (rs' & _ & H).
      apply bind_Ok in H as (t' & Ht & H).
      injection H as _ <-. exact Ht.
    + intros Hle. destruct (Rlt_dec 0 rate) as [Hlt|_]; [lra|].
      destruct (getitem (time_series s) "time"); reflexivity.
    + intros Hlt Hrank. destruct (Rlt_dec 0 rate) as [_|Hn]; [|lra].
      unfold getitem_0_0.
      destruct (Nat.ltb_spec (length (shape (time_series s))) 3); [|lia].
      reflexivity.
Qed.

(** ** The order of the checks *)

(** X6.  The order in which [compute_wavelet_ffts] can fail.  The sample
    rate is read first: without that coordinate the method raises
    KeyError 'samplerate', and with one that is no single number
    TypeError, whatever else is wrong.  Then the bank is built, and an
    empty bank makes [max] raise ValueError.  Only then the time axis is
    looked up: KeyError 'time' without it, IndexError if it is a scalar. *)
Theorem X6_compute_wavelet_ffts_errors (s : MorletWaveletFilter) :
  let ts := time_series s in
  (coords ts !! "samplerate" = None ->
   compute_wavelet_ffts s = Raise (KeyError "samplerate"))
  /\ (forall c, coords ts !! "samplerate" = Some c ->
        length (coord_values c) <> 1%nat ->
        exists msg, compute_wavelet_ffts s = Raise (TypeError msg))
  /\ forall c samplerate,
       coords ts !! "samplerate" = Some c ->
       coord_values c = [samplerate] ->
       (bank s samplerate = [] ->
        exists msg, compute_wavelet_ffts s = Raise (ValueError msg))
       /\ (bank s samplerate <> [] ->
           (coords ts !! "time" = None ->
            compute_wavelet_ffts s = Raise (KeyError "time"))
           /\ forall time_axis,
                coords ts !! "time" = Some time_axis ->
                coord_dims time_axis = [] ->
                exists msg, compute_wavelet_ffts s = Raise (IndexError msg)).
Proof.
  intros ts. unfold compute_wavelet_ffts, getitem. fold ts.
  split; [|split].
  - intros ->. reflexivity.
  - intros c -> Hlen. simpl. unfold float.
    destruct (coord_values c) as [|v [|v' l]]; simpl in Hlen;
      [eauto | lia | eauto].
  - intros c samplerate -> Hv. simpl. unfold float. rewrite Hv. simpl.
    unfold bank. split.
    + intros ->. simpl. eauto.
    + intros Hne.
      destruct (max_nonempty
                  (map (fun wavelet => Z.of_nat (length wavelet))
                       (morlet_multi (freqs s) (width s) samplerate)))
        as (m & ->).
      { destruct (morlet_multi (freqs s) (width s) samplerate);
          [congruence | discriminate]. }
      simpl. split.
      * intros ->. reflexivity.
      * intros time_axis -> Hd. simpl. unfold shape0. rewrite Hd. simpl.
        eauto.
Qed.

Lemma build_output_arrays_clock (st : state) (time_axis : coord)
    (pow phase : option (dense_array)) :
  clock_reads (snd (build_output_arrays pow phase time_axis st))
  = clock_reads st.
Proof.
  unfold build_output_arrays. run_M.
  destruct (isinstance_DataArray (time_series (self st))); [|reflexivity].
  cbv beta iota.
  destruct (Py.index "frequency" (output_dims (self st))); [|reflexivity].
  cbv beta iota zeta.
  destruct (output_coords (self st) time_axis); [|reflexivity].
  cbv beta iota.
  destruct (label_output (self st) pow _ _ _); [|reflexivity].
  cbv beta iota.
  destruct (label_output (self st) phase _ _ _); reflexivity.
Qed.

(** X7.  [filter] checks before it works.  It looks up the time axis
    first, so a missing time axis is reported even if the sample rate is
    missing too; an exception of the lookup, of the size of the axis or
    of [compute_wavelet_ffts] leaves [filter] with the state as it was:
    nothing printed, the clock not read, the filter object unchanged.
    Once these three have passed the clock is read, whatever happens
    afterwards. *)
Theorem X7_filter_fails_before_clock (st : state) :
  let s := self st in
  (forall e, getitem (time_series s) "time" = Raise e ->
             filter st = (Raise e, st))
  /\ (forall time_axis e,
         getitem (time_series s) "time" = Ok time_axis ->
         shape0 time_axis = Raise e ->
         filter st = (Raise e, st))
  /\ (forall time_axis time_axis_size e,
         getitem (time_series s) "time" = Ok time_axis ->
         shape0 time_axis = Ok time_axis_size ->
         compute_wavelet_ffts s = Raise e ->
         filter st = (Raise e, st))
  /\ (forall time_axis time_axis_size ffts,
         getitem (time_series s) "time" = Ok time_axis ->
         shape0 time_axis = Ok time_axis_size ->
         compute_wavelet_ffts s = Ok ffts ->
         (clock_reads st < clock_reads (snd (filter st)))%nat).
Proof.
  intros s. subst s. unfold filter, time_time. run_M.
  split; [|split; [|split]].
  - intros e ->. reflexivity.
  - intros t e -> ->. reflexivity.
  - intros t n e -> -> ->. reflexivity.
  - intros t n [[wfa csa] P] -> -> ->. cbv beta iota.
    cbn [self stdout clock_reads].
    destruct (wavelet_loop (self st) n wfa csa P _ _) as [arrays|e];
      cbv beta iota; [|cbn [snd clock_reads]; lia].
    destruct (verbose (self st)); cbv beta iota;
      cbn [self stdout clock_reads];
      rewrite build_output_arrays_clock; cbn [clock_reads]; lia.
Qed.

(** ** Calling [filter] again *)

Lemma build_output_arrays_self (st : state) (time_axis : coord)
    (pow phase : option (dense_array)) :
  self (snd (build_output_arrays pow phase time_axis st)) = self st
  \/ self (snd (build_output_arrays pow phase time_axis st))
     = set_frequency_dim_pos (normalized_pos (self st)) (self st).
Proof.
  unfold build_output_arrays. run_M.
  destruct (isinstance_DataArray (time_series (self st)));
    [|left; reflexivity].
  cbv beta iota. right.
  destruct (Py.index "frequency" (output_dims (self st))); [|reflexivity].
  cbv beta iota zeta.
  destruct (output_coords (self st) time_axis); [|reflexivity].
  cbv beta iota.
  destruct (label_output (self st) pow _ _ _); [|reflexivity].
  cbv beta iota.
  destruct (label_output (self st) phase _ _ _); reflexivity.
Qed.

(** The only attribute [filter] ever writes is [frequency_dim_pos], and
    only with its normalised value. *)
Lemma filter_self (st : state) :
  self (snd (filter st)) = self st
  \/ self (snd (filter st))
     = set_frequency_dim_pos (normalized_pos (self st)) (self st).
Proof.
  unfold filter, time_time. run_M.
  destruct (getitem (time_series (self st)) "time") as [t|e];
    [|left; reflexivity].
  cbv beta iota.
  destruct (shape0 t) as [n|e]; [|left; reflexivity].
  cbv beta iota.
  destruct (compute_wavelet_ffts (self st)) as [[[wfa csa] P]|e];
    [|left; reflexivity].
  cbv beta iota. cbn [self stdout clock_reads].
  destruct (wavelet_loop (self st) n wfa csa P _ _) as [arrays|e];
    [|left; reflexivity].
  cbv beta iota.
  destruct (verbose (self st)); cbv beta iota;
    cbn [self stdout clock_reads];
    match goal with
    | |- context [build_output_arrays ?p ?ph ?t ?st'] =>
        destruct (build_output_arrays_self st' t p ph) as [H|H];
          rewrite H; [left | right]; reflexivity
    end.
Qed.

Lemma normalized_pos_idempotent (s : MorletWaveletFilter) :
  normalized_pos (set_frequency_dim_pos (normalized_pos s) s)
  = normalized_pos s.
Proof.
  destruct (normalized_pos_mod s) as [_ Hrange].
  unfold normalized_pos at 1. cbn [frequency_dim_pos set_frequency_dim_pos].
  change (output_dims (set_frequency_dim_pos (normalized_pos s) s))
    with (output_dims s).
  set (rank := Z.of_nat (length (output_dims s))) in *.
  replace (rank + normalized_pos s) with (normalized_pos s + 1 * rank)
    by lia.
  rewrite Z_mod_plus_full. apply Z.mod_small. exact Hrange.
Qed.

Lemma filter_value_normalized (s : MorletWaveletFilter) :
  filter_value (set_frequency_dim_pos (normalized_pos s) s) = filter_value s.
Proof.
  unfold filter_value, build_output_value.
  rewrite normalized_pos_idempotent. reflexivity.
Qed.

(** X8.  [filter] writes one attribute of the filter object, the
    normalised [frequency_dim_pos], and leaves the input, the
    frequencies, the width, [output] and [verbose] alone.  Normalising
    twice changes nothing, so a second call on the same object returns
    what the first call returned, be it the outputs, [None] or an
    exception. *)
Theorem X8_filter_again_same_value (st : state) :
  let st' := snd (filter st) in
  fst (filter st') = fst (filter st)
  /\ time_series (self st') = time_series (self st)
  /\ freqs (self st') = freqs (self st)
  /\ width (self st') = width (self st)
  /\ output (self st') = output (self st)
  /\ verbose (self st') = verbose (self st)
  /\ (frequency_dim_pos (self st') = frequency_dim_pos (self st)
      \/ frequency_dim_pos (self st') = normalized_pos (self st)).
Proof.
  intros st'. subst st'.
  destruct (filter_value_stdout (snd (filter st))) as [-> _].
  destruct (filter_value_stdout st) as [-> _].
  destruct (filter_self st) as [->| ->].
  - repeat split; auto.
  - rewrite filter_value_normalized. repeat split; auto.
Qed.

(** ** The extents of the labelled outputs *)

Lemma In_inserted {A} (i : Z) (x : A) (l : list A) :
  In x (Py.insert i x l).
Proof. unfold Py.insert. apply in_or_app. right. left. reflexivity. Qed.

Lemma In_final_dims (s : MorletWaveletFilter) (d : string) :
  In d (output_dims s) -> In d (final_dims s).
Proof.
  intros Hin. unfold final_dims.
  destruct (frequency_in_output_dims s) as (i & -> & Hnth & _).
  cbv zeta. unfold transposed_dims_of.
  destruct (decide (normalized_pos s <> Z.of_nat i)); [|exact Hin].
  rewrite insert_length. simpl.
  destruct (String.eqb_spec d "frequency") as [->|Hne].
  - apply In_inserted.
  - apply In_insert. apply (In_without _ _ _ _ Hin Hnth Hne).
Qed.

Lemma final_dims_length (s : MorletWaveletFilter) :
  length (final_dims s) = length (output_dims s).
Proof.
  unfold final_dims.
  destruct (frequency_in_output_dims s) as (i & -> & Hnth & Hlt).
  cbv zeta.
  destruct (transposed_dims_length (output_dims s) (normalized_pos s) i Hlt)
    as [-> | Hlen]; [reflexivity|].
  destruct (0 <? _)%nat; [exact Hlen | reflexivity].
Qed.

Lemma axes_of_length (new old : list string) (axes : list nat) :
  axes_of new old = Ok axes -> length axes = length new.
Proof.
  revert axes. induction new as [|d new IH]; simpl; intros axes.
  - intros [= <-]. reflexivity.
  - destruct (Py.index d old); simpl; [|discriminate].
    destruct (axes_of new old) as [ks|]; simpl; [|discriminate].
    intros [= <-]. simpl. f_equal. apply IH. reflexivity.
Qed.

Lemma index_lt (x : string) (l : list string) (i : nat) :
  Py.index x l = Ok i -> (i < length l)%nat.
Proof.
  intros H. apply index_nth in H.
  apply nth_error_Some. congruence.
Qed.

(** Every dimension of a labelled output has the extent of the axis of
    the dense array that carried it before the transposition. *)
Lemma labels_extent (s : MorletWaveletFilter) (time_axis : coord)
    (a : dense_array) (x : labelled_array) (d : string) (k : nat) :
  labels s time_axis (Some a) (Some x) ->
  length (nd_shape a) = length (output_dims s) ->
  Py.index d (output_dims s) = Ok k ->
  dim_size x d = Ok (nth k (nd_shape a) O)
  /\ length (shape x) = length (nd_shape a).
Proof.
  intros (_ & Hdims & _ & _ & _ & Hval) Hlen Hk.
  assert (In d (dims x)) as Hin.
  { rewrite Hdims. apply In_final_dims.
    apply index_nth in Hk. apply (nth_error_In _ _ Hk). }
  destruct (index_In _ _ Hin) as (j & Hj & Hnth & Hlt).
  unfold dim_size. rewrite Hj. simpl.
  destruct Hval as [[Hv Hd]|(axes & Haxes & Hv)].
  - rewrite Hd, Hk in Hj. injection Hj as <-.
    unfold shape. rewrite Hv. split; [|reflexivity].
    rewrite (nth_error_nth' _ O); [reflexivity|].
    rewrite Hlen. apply (index_lt _ _ _ Hk).
  - destruct (axes_of_nth _ _ _ _ _ Haxes Hnth) as (k' & Hax & Hk').
    rewrite Hk in Hk'. injection Hk' as <-.
    unfold shape. rewrite Hv. simpl.
    rewrite (map_nth_error _ _ _ Hax). split; [reflexivity|].
    rewrite length_map, (axes_of_length _ _ _ Haxes), Hdims.
    rewrite final_dims_length. symmetry. exact Hlen.
Qed.

(** X9.  The shape of what [filter] returns.  On a valid DataArray input
    each labelled output has the leading axes of the input and two more,
    as many dims as axes, and each of its
    dimensions has the extent of the axis that carried it in the dense
    array: a dimension found at position [k] of the input's leading
    dimensions followed by 'frequency' and 'time' has extent number [k]
    of the input's leading extents followed by the number of frequencies
    and the length of the time axis, wherever the frequency axis was
    moved to. *)
Theorem X9_output_extents (st : state) (time_axis : coord) (samplerate : R)
    (s_w : Z) :
  let s := self st in
  let time_axis_size := length (coord_values time_axis) in
  well_formed s time_axis samplerate ->
  Py.max (kernel_lengths (bank s samplerate)) = Ok s_w ->
  s_w <= Z.of_nat time_axis_size ->
  isinstance_DataArray (time_series s) = true ->
  length (dims (time_series s)) = length (shape (time_series s)) ->
  exists pow phase,
    fst (filter st) = Ok (Some (pow, phase))
    /\ forall x, pow = Some x \/ phase = Some x ->
         length (shape x)
         = (length (removelast (shape (time_series s))) + 2)%nat
         /\ length (dims x) = length (shape x)
         /\ forall d k,
              Py.index d (output_dims s) = Ok k ->
              dim_size x d
              = Ok (nth k (removelast (shape (time_series s))
                           ++ [length (freqs s); time_axis_size]) O).
Proof.
  intros s Tn Hwf Hmax Hle Hda Hlen.
  destruct (filter_DataArray st time_axis samplerate s_w Hwf Hmax Hle Hda)
    as (arrays & pow & phase & [Hp Hph] & Hf & Hlp & Hlph & _).
  exists pow, phase. rewrite Hf. split; [reflexivity|].
  fold s in Hp, Hph, Hlp, Hlph. fold Tn in Hp, Hph.
  assert (length (output_shape s Tn) = length (output_dims s)) as Hrank.
  { unfold output_shape, output_dims. rewrite !length_app.
    rewrite !removelast_firstn_len, !length_firstn. simpl. lia. }
  intros x Hx.
  assert (exists a, labels s time_axis (Some a) (Some x)
                    /\ nd_shape a = output_shape s Tn) as (a & Hl & Hsh).
  { destruct Hx as [-> | ->].
    - destruct (fst arrays) as [a|]; [|contradiction].
      exists a. split; [exact Hlp | apply Hp].
    - destruct (snd arrays) as [a|]; [|contradiction].
      exists a. split; [exact Hlph | apply Hph]. }
  assert (length (nd_shape a) = length (output_dims s)) as Hla
    by (rewrite Hsh; exact Hrank).
  split; [|split].
  - destruct (frequency_in_output_dims s) as (i & Hi & _).
    destruct (labels_extent s time_axis a x _ _ Hl Hla Hi) as [_ ->].
    rewrite Hsh. unfold output_shape. rewrite length_app. reflexivity.
  - destruct (frequency_in_output_dims s) as (i & Hi & _).
    destruct (labels_extent s time_axis a x _ _ Hl Hla Hi) as [_ ->].
    destruct Hl as (_ & -> & _). rewrite final_dims_length. lia.
  - intros d k Hk.
    destruct (labels_extent s time_axis a x d k Hl Hla Hk) as [-> _].
    rewrite Hsh. reflexivity.
Qed.

(** ** The coordinates of the labelled outputs *)

Lemma copy_coords_spec {A} (ts : TimeSeriesX A) (l : list string)
    (m d : gmap string coord) :
  for_each (fun (m : gmap string coord) dim_name =>
              c ← getitem ts dim_name; Ok (<[dim_name := c]> m)) m l
  = Ok d ->
  forall k, (In k l -> d !! k = coords ts !! k /\ is_Some (d !! k))
            /\ (~ In k l -> d !! k = m !! k).
Proof.
  revert m. induction l as [|x l IH]; simpl; intros m.
  - intros [= <-] k. split; [intros [] | reflexivity].
  - intros H k.
    apply bind_Ok in H as (m' & Hm' & H).
    apply bind_Ok in Hm' as (c & Hc & Hm'). injection Hm' as <-.
    unfold getitem in Hc.
    destruct (coords ts !! x) as [c'|] eqn:Hx; [|discriminate].
    injection Hc as ->.
    specialize (IH _ H k) as [IHin IHout].
    split.
    + intros Hin.
      destruct (in_dec String.string_dec k l) as [Hl|Hl]; [apply (IHin Hl)|].
      destruct Hin as [->|Hin]; [|contradiction].
      rewrite (IHout Hl), lookup_insert_eq, Hx. eauto.
    + intros Hn. rewrite IHout by tauto.
      apply lookup_insert_ne. tauto.
Qed.

(** The [coords] dictionary of [build_output_arrays], entry by entry. *)
Lemma output_coords_spec (s : MorletWaveletFilter) (time_axis : coord)
    (d : gmap string coord) :
  output_coords s time_axis = Ok d ->
  let ts := time_series s in
  d !! "time" = Some time_axis
  /\ d !! "frequency" = Some (mk_coord ["frequency"] (freqs s))
  /\ d !! "samplerate" = coords ts !! "samplerate"
  /\ is_Some (d !! "samplerate")
  /\ d !! "offsets"
     = (fun offsets => mk_coord ["time"] (coord_values offsets))
         <$> coords ts !! "offsets"
  /\ forall k,
       k <> "time" -> k <> "frequency" -> k <> "samplerate" ->
       k <> "offsets" ->
       (In k (removelast (dims ts)) -> d !! k = coords ts !! k)
       /\ (~ In k (removelast (dims ts)) -> d !! k = None).
Proof.
  intros H ts. unfold output_coords in H. fold ts in H.
  apply bind_Ok in H as (d0 & H0 & H).
  pose proof (copy_coords_spec ts _ _ _ H0) as Hcopy.
  cbv zeta in H.
  set (d2 := <["time" := time_axis]>
               (<["frequency" := mk_coord ["frequency"] (freqs s)]> d0))
    in *.
  apply bind_Ok in H as (d3 & H3 & H).
  assert (d2 !! "samplerate" = d0 !! "samplerate") as Hsr2.
  { unfold d2. rewrite !lookup_insert_ne by discriminate. reflexivity. }
  assert (d3 !! "samplerate" = coords ts !! "samplerate"
          /\ is_Some (d3 !! "samplerate")
          /\ forall k, k <> "samplerate" -> d3 !! k = d2 !! k)
    as (Hsr & Hsome & Hd3).
  { rewrite Hsr2 in H3.
    destruct (d0 !! "samplerate") as [c|] eqn:Hc.
    - injection H3 as <-. rewrite Hsr2.
      split; [|split; [eauto | reflexivity]].
      destruct (in_dec String.string_dec "samplerate" (removelast (dims ts)))
        as [Hin|Hn].
      + destruct (Hcopy "samplerate") as [Hc' _].
        destruct (Hc' Hin) as [<- _]. symmetry. exact Hc.
      + destruct (Hcopy "samplerate") as [_ Hc'].
        rewrite (Hc' Hn), lookup_empty in Hc. discriminate.
    - unfold getitem in H3.
      destruct (coords ts !! "samplerate") as [c|]; simpl in H3;
        [|discriminate].
      injection H3 as <-. rewrite lookup_insert_eq.
      split; [reflexivity|]. split; [eauto|].
      intros k Hk. apply lookup_insert_ne. congruence. }
  assert (forall k, k <> "offsets" -> d !! k = d3 !! k) as Hd.
  { intros k Hk. destruct (coords ts !! "offsets") as [o|] eqn:Ho.
    - unfold getitem in H. rewrite Ho in H. simpl in H.
      injection H as <-. apply lookup_insert_ne. congruence.
    - injection H as <-. reflexivity. }
  split; [|split; [|split; [|split; [|split]]]].
  - rewrite Hd, Hd3 by discriminate. unfold d2. apply lookup_insert_eq.
  - rewrite Hd, Hd3 by discriminate. unfold d2.
    rewrite lookup_insert_ne by discriminate. apply lookup_insert_eq.
  - rewrite Hd by discriminate. exact Hsr.
  - rewrite Hd by discriminate. exact Hsome.
  - destruct (coords ts !! "offsets") as [o|] eqn:Ho.
    + unfold getitem in H. rewrite Ho in H. simpl in H.
      injection H as <-. rewrite lookup_insert_eq. reflexivity.
    + injection H as <-. simpl.
      rewrite Hd3 by discriminate. unfold d2.
      rewrite !lookup_insert_ne by discriminate.
      destruct (in_dec String.string_dec "offsets" (removelast (dims ts)))
        as [Hin|Hn].
      * destruct (Hcopy "offsets") as [Hc' _].
        destruct (Hc' Hin) as [Heq [c Hc]]. rewrite Heq, Ho in Hc.
        discriminate.
      * destruct (Hcopy "offsets") as [_ Hc'].
        rewrite (Hc' Hn). apply lookup_empty.
  - intros k Ht Hf Hs Ho.
    assert (d !! k = d0 !! k) as ->.
    { rewrite Hd, Hd3 by assumption. unfold d2.
      rewrite !lookup_insert_ne by congruence. reflexivity. }
    destruct (Hcopy k) as [Hin Hout]. split.
    + intros Hk. apply (Hin Hk).
    + intros Hk. rewrite (Hout Hk). apply lookup_empty.
Qed.

Lemma label_output_coords (s : MorletWaveletFilter)
    (array : option (dense_array)) (d : gmap string coord)
    (ds tds : list string) (x : labelled_array) :
  label_output s array d ds tds = Ok (Some x) ->
  coords x = d /\ attrs x = attrs (time_series s).
Proof.
  unfold label_output. destruct array as [a|]; [|discriminate].
  intros H. apply bind_Ok in H as (x' & Hx' & H).
  injection H as <-. simpl. split; [|reflexivity].
  destruct (0 <? length tds)%nat.
  - unfold transpose in Hx'.
    destruct (negb _); [discriminate|].
    apply bind_Ok in Hx' as (axes & _ & Hx'). injection Hx' as <-.
    reflexivity.
  - injection Hx' as <-. reflexivity.
Qed.

(** X10.  The coordinates and attributes of what [filter] returns.
    Whenever [filter] returns outputs, each of them carries the time
    axis and the sample rate of the input, a frequency coordinate holding
    [freqs], the offsets of the input, if it has any, laid on 'time', and
    the coordinate of every leading dimension of the input.  It carries no
    other coordinate: what the input has beside these is dropped.  The
    attributes are those of the input. *)
Theorem X10_output_coordinates (st : state)
    (pow phase : option (labelled_array)) :
  let ts := time_series (self st) in
  fst (filter st) = Ok (Some (pow, phase)) ->
  forall x, pow = Some x \/ phase = Some x ->
    attrs x = attrs ts
    /\ coords x !! "time" = coords ts !! "time"
    /\ coords x !! "samplerate" = coords ts !! "samplerate"
    /\ coords x !! "frequency"
       = Some (mk_coord ["frequency"] (freqs (self st)))
    /\ coords x !! "offsets"
       = (fun offsets => mk_coord ["time"] (coord_values offsets))
           <$> coords ts !! "offsets"
    /\ forall k,
         k <> "time" -> k <> "frequency" -> k <> "samplerate" ->
         k <> "offsets" ->
         (In k (removelast (dims ts)) -> coords x !! k = coords ts !! k)
         /\ (~ In k (removelast (dims ts)) -> coords x !! k = None).
Proof.
  intros ts H x Hx.
  destruct (filter_value_stdout st) as [Hv _]. rewrite Hv in H.
  unfold filter_value in H. fold ts in H.
  apply bind_Ok in H as (time_axis & Ht & H).
  apply bind_Ok in H as (n & _ & H).
  apply bind_Ok in H as (arrays & _ & H).
  unfold build_output_value in H. fold ts in H.
  destruct (isinstance_DataArray ts); [|discriminate].
  apply bind_Ok in H as (i & _ & H). cbv zeta in H.
  apply bind_Ok in H as (d & Hd & H).
  apply bind_Ok in H as (p & Hp & H).
  apply bind_Ok in H as (ph & Hph & H).
  injection H as <- <-.
  assert (coords x = d /\ attrs x = attrs ts) as [Hc Ha].
  { destruct Hx as [-> | ->];
      [apply (label_output_coords _ _ _ _ _ _ Hp)
      |apply (label_output_coords _ _ _ _ _ _ Hph)]. }
  destruct (output_coords_spec _ _ _ Hd)
    as (Htime & Hfreq & Hsr & _ & Hoff & Hrest).
  fold ts in Hsr, Hoff, Hrest.
  rewrite Hc. split; [exact Ha|].
  split.
  { rewrite Htime. unfold getitem in Ht.
    destruct (coords ts !! "time"); [congruence | discriminate]. }
  auto.
Qed.

(** ** The requested position of the frequency axis *)

Lemma normalized_pos_congruent (s : MorletWaveletFilter) (p : Z) :
  p mod Z.of_nat (length (output_dims s))
  = frequency_dim_pos s mod Z.of_nat (length (output_dims s)) ->
  normalized_pos (set_frequency_dim_pos p s) = normalized_pos s.
Proof.
  intros Hp.
  destruct (normalized_pos_mod s) as [-> _].
  destruct (normalized_pos_mod (set_frequency_dim_pos p s)) as [-> _].
  exact Hp.
Qed.

(** X15.  [frequency_dim_pos] is taken modulo the number of output dims:
    no position is rejected, and two positions that differ by a multiple
    of that number, such as -1 and 3 with four dims, make [filter] return
    the same value. *)
Theorem X15_position_modulo_rank (st : state) (p : Z) :
  let s := self st in
  let rank := Z.of_nat (length (output_dims s)) in
  p mod rank = frequency_dim_pos s mod rank ->
  fst (filter (mk_state (set_frequency_dim_pos p s) (stdout st)
                 (clock_reads st)))
  = fst (filter st).
Proof.
  intros s rank Hp.
  destruct (filter_value_stdout
              (mk_state (set_frequency_dim_pos p s) (stdout st)
                 (clock_reads st))) as [-> _].
  destruct (filter_value_stdout st) as [-> _].
  cbn [self]. fold s.
  unfold filter_value, build_output_value.
  rewrite (normalized_pos_congruent s p Hp). reflexivity.
Qed.

(** ** The two outputs side by side *)

(** A loop whose body keeps a property whenever it returns keeps it
    whenever the loop returns. *)
Lemma for_each_preserves {A B} (I : A -> Prop) (f : A -> B -> result A)
    (xs : list B) (acc acc' : A) :
  (forall a x a', f a x = Ok a' -> I a -> I a') ->
  I acc -> for_each f acc xs = Ok acc' -> I acc'.
Proof.
  intros Hstep. revert acc.
  induction xs as [|x xs IH]; simpl; intros acc Hacc.
  - intros [= <-]. exact Hacc.
  - intros H. apply bind_Ok in H as (a & Ha & H).
    apply (IH a (Hstep _ _ _ Ha Hacc) H).
Qed.

Lemma store_has_shape (shape idx : list nat) (target : option dense_array)
    (row : option (list R)) (target' : option dense_array) :
  store idx target row = Ok target' ->
  has_shape shape target -> has_shape shape target'.
Proof.
  unfold store. destruct row as [row|]; [|intros [= <-]; auto].
  destruct target as [a|]; [|discriminate].
  intros H. apply bind_Ok in H as (a' & Ha' & H). injection H as <-.
  simpl. intros <-. apply (setrow_shape _ _ _ _ Ha').
Qed.

(** Whatever the loops write, they keep the shapes of the arrays. *)
Lemma wavelet_loop_has_shape (s : MorletWaveletFilter) (n : nat)
    (wfa : list (list C)) (csa : list Z) (P : Z)
    (items : list (list nat * list C)) (shape : list nat)
    (arrays arrays' : option dense_array * option dense_array) :
  wavelet_loop s n wfa csa P items arrays = Ok arrays' ->
  has_shape shape (fst arrays) /\ has_shape shape (snd arrays) ->
  has_shape shape (fst arrays') /\ has_shape shape (snd arrays').
Proof.
  unfold wavelet_loop. intros Hloop Hinit.
  refine (for_each_preserves
            (fun arr => has_shape shape (fst arr)
                        /\ has_shape shape (snd arr))
            _ _ _ _ _ Hinit Hloop).
  intros a item a' Hitem Ha.
  refine (for_each_preserves
            (fun arr => has_shape shape (fst arr)
                        /\ has_shape shape (snd arr))
            _ _ _ _ _ Ha Hitem).
  intros b w b' Hw [Hb1 Hb2]. unfold convolve_kernel in Hw.
  apply bind_Ok in Hw as (buf & _ & Hw).
  apply bind_Ok in Hw as (pow & Hpow & Hw).
  apply bind_Ok in Hw as (phase & Hphase & Hw).
  injection Hw as <-. simpl.
  split; [apply (store_has_shape _ _ _ _ _ Hpow Hb1)
         |apply (store_has_shape _ _ _ _ _ Hphase Hb2)].
Qed.

Lemma label_output_shape (s : MorletWaveletFilter)
    (a b : option dense_array) (d : gmap string coord)
    (ds tds : list string) (x y : labelled_array) (shape0 : list nat) :
  label_output s a d ds tds = Ok (Some x) ->
  label_output s b d ds tds = Ok (Some y) ->
  has_shape shape0 a -> has_shape shape0 b ->
  dims x = dims y /\ shape x = shape y.
Proof.
  unfold label_output.
  destruct a as [a|]; [|discriminate]. destruct b as [b|]; [|discriminate].
  simpl. intros Hx Hy Ha Hb.
  apply bind_Ok in Hx as (x' & Hx' & Hx). injection Hx as <-.
  apply bind_Ok in Hy as (y' & Hy' & Hy). injection Hy as <-.
  unfold shape. simpl.
  destruct (0 <? length tds)%nat.
  - unfold transpose in Hx', Hy'. simpl in Hx', Hy'.
    destruct (negb _); [discriminate|].
    destruct (axes_of tds ds) as [axes|]; simpl in Hx', Hy';
      [|discriminate].
    injection Hx' as <-. injection Hy' as <-. simpl.
    rewrite Ha, Hb. split; reflexivity.
  - injection Hx' as <-. injection Hy' as <-. simpl.
    rewrite Ha, Hb. split; reflexivity.
Qed.

(** X16.  The two outputs are aligned.  Whenever [filter] returns both a
    power and a phase output, the two have the same dims in the same
    order, the same shape, the same coordinates and the same attributes:
    they differ in their values only. *)
Theorem X16_outputs_aligned (st : state) (pow phase : labelled_array) :
  fst (filter st) = Ok (Some (Some pow, Some phase)) ->
  dims pow = dims phase
  /\ shape pow = shape phase
  /\ coords pow = coords phase
  /\ attrs pow = attrs phase.
Proof.
  intros H.
  destruct (filter_value_stdout st) as [Hv _]. rewrite Hv in H.
  unfold filter_value in H.
  apply bind_Ok in H as (time_axis & _ & H).
  apply bind_Ok in H as (n & _ & H).
  apply bind_Ok in H as (arrays & Hrun & H).
  unfold run_loops in Hrun.
  apply bind_Ok in Hrun as ([[wfa csa] P] & _ & Hloop).
  assert (has_shape (output_shape (self st) n) (fst arrays)
          /\ has_shape (output_shape (self st) n) (snd arrays))
    as [Ha Hb].
  { apply (wavelet_loop_has_shape _ _ _ _ _ _ _ _ _ Hloop).
    unfold allocate_output_arrays, output_shape.
    destruct (String.eqb (output (self st)) "power"); [split; simpl; auto|].
    destruct (String.eqb (output (self st)) "phase"); split; simpl; auto. }
  unfold build_output_value in H.
  destruct (isinstance_DataArray (time_series (self st))); [|discriminate].
  apply bind_Ok in H as (i & _ & H). cbv zeta in H.
  apply bind_Ok in H as (d & _ & H).
  apply bind_Ok in H as (p & Hp & H).
  apply bind_Ok in H as (ph & Hph & H).
  injection H as -> ->.
  destruct (label_output_shape _ _ _ _ _ _ _ _ _ Hp Hph Ha Hb)
    as [Hd Hs].
  destruct (label_output_coords _ _ _ _ _ _ Hp) as [Hc1 Ha1].
  destruct (label_output_coords _ _ _ _ _ _ Hph) as [Hc2 Ha2].
  repeat split; congruence.
Qed.

End Filter.

(** ** Facts on the scalar functions *)

Lemma np_abs_sqr (c : C) :
  (np_abs c ^ 2 = real c ^ 2 + imag c ^ 2)%R.
Proof.
  unfold np_abs.
  replace (sqrt (real c * real c + imag c * imag c) ^ 2)%R
    with (sqrt (real c * real c + imag c * imag c)
          * sqrt (real c * real c + imag c * imag c))%R by ring.
  rewrite sqrt_sqrt; [ring|].
  pose proof (Rle_0_sqr (real c)); pose proof (Rle_0_sqr (imag c)).
  unfold Rsqr in *; lra.
Qed.

Lemma arctan2_range (y x : R) : (- PI < arctan2 y x <= PI)%R.
Proof.
  pose proof PI_RGT_0 as Hpi.
  pose proof (atan_bound (y / x)) as [Hlo Hhi].
  unfold arctan2.
  destruct (Rlt_dec 0 x) as [Hx|Hx]; [lra|].
  destruct (Rlt_dec x 0) as [Hx'|Hx'].
  - destruct (Rle_dec 0 y) as [Hy|Hy].
    + (* y/x <= 0, so atan (y/x) <= 0 *)
      assert (y / x <= 0)%R as Hq.
      { unfold Rdiv.
        assert (/ x < 0)%R by (apply Rinv_lt_0_compat; exact Hx').
        nra. }
      assert (atan (y / x) <= 0)%R.
      { rewrite <- atan_0.
        destruct Hq as [Hq|Hq]; [left; apply atan_increasing; exact Hq|].
        rewrite Hq; right; reflexivity. }
      lra.
    + assert (0 < y / x)%R as Hq.
      { unfold Rdiv.
        assert (/ x < 0)%R by (apply Rinv_lt_0_compat; exact Hx').
        nra. }
      assert (0 < atan (y / x))%R.
      { rewrite <- atan_0. apply atan_increasing; exact Hq. }
      lra.
  - destruct (Rlt_dec 0 y); [lra|].
    destruct (Rlt_dec y 0); lra.
Qed.

(** ** Rounding to single and double precision *)

Section Precision.
Local Open Scope R_scope.

Lemma powerRZ_2_exp (e : Z) : powerRZ 2 e = exp (IZR e * ln 2).
Proof. rewrite powerRZ_Rpower by lra. reflexivity. Qed.

Lemma ln_2_pos : 0 < ln 2.
Proof. pose proof ln_lt_2. lra. Qed.

(** [x] lies in the binade of its exponent. *)
Lemma mag_spec (x : R) :
  x <> 0 ->
  powerRZ 2 (Float.mag x) <= Rabs x < powerRZ 2 (Float.mag x + 1).
Proof.
  intros Hx. pose proof ln_2_pos as H2.
  assert (0 < Rabs x) as Hpos by (apply Rabs_pos_lt; exact Hx).
  unfold Float.mag.
  set (t := ln (Rabs x) / ln 2).
  destruct (base_Int_part t) as [Hlo Hhi].
  assert (ln (Rabs x) = t * ln 2) as Hln by (unfold t; field; lra).
  assert (Rabs x = exp (t * ln 2)) as Habs
    by (rewrite <- Hln; symmetry; apply exp_ln; exact Hpos).
  rewrite !powerRZ_2_exp, plus_IZR. rewrite Habs.
  split.
  - destruct Hlo as [Hlt|Heq].
    + left. apply exp_increasing. nra.
    + right. rewrite Heq. reflexivity.
  - apply exp_increasing. nra.
Qed.

(** The binade determines the exponent. *)
Lemma mag_unique (x : R) (e : Z) :
  powerRZ 2 e <= Rabs x < powerRZ 2 (e + 1) -> Float.mag x = e.
Proof.
  intros [Hlo Hhi]. pose proof ln_2_pos as H2.
  assert (0 < powerRZ 2 e) as Hp by (apply powerRZ_lt; lra).
  assert (0 < Rabs x) as Hpos by lra.
  unfold Float.mag. symmetry. apply Int_part_spec.
  rewrite !powerRZ_2_exp, plus_IZR in *.
  rewrite <- (exp_ln (Rabs x) Hpos) in Hlo, Hhi.
  apply exp_lt_inv in Hhi.
  assert (IZR e * ln 2 <= ln (Rabs x)) as Hlo'.
  { destruct Hlo as [Hlt|Heq]; [left; apply exp_lt_inv; exact Hlt|].
    right. apply exp_inv. exact Heq. }
  split.
  - apply (Rmult_lt_reg_r (ln 2)); [exact H2|].
    replace ((ln (Rabs x) / ln 2 - 1) * ln 2) with (ln (Rabs x) - ln 2)
      by (field; lra).
    lra.
  - apply (Rmult_le_reg_r (ln 2)); [exact H2|].
    replace (ln (Rabs x) / ln 2 * ln 2) with (ln (Rabs x)) by (field; lra).
    exact Hlo'.
Qed.

Lemma nearest_even_error (r : R) :
  Rabs (IZR (Float.nearest_even r) - r) <= 1 / 2.
Proof.
  unfold Float.nearest_even. cbv zeta.
  destruct (base_Int_part r) as [Hlo Hhi].
  set (f := Int_part r) in *.
  destruct (Rlt_dec (r - IZR f) (1 / 2)) as [H1|H1].
  - apply Rabs_le. lra.
  - destruct (Rlt_dec (1 / 2) (r - IZR f)) as [H2|H2].
    + rewrite plus_IZR. apply Rabs_le. lra.
    + destruct (Z.even f); [|rewrite plus_IZR]; apply Rabs_le; lra.
Qed.

Lemma nearest_even_unique (r : R) (n : Z) :
  IZR n - 1 / 2 < r < IZR n + 1 / 2 -> Float.nearest_even r = n.
Proof.
  intros [Hlo Hhi]. unfold Float.nearest_even. cbv zeta.
  destruct (base_Int_part r) as [Hf1 Hf2].
  set (f := Int_part r) in *.
  assert (f = n \/ f = (n - 1)%Z) as [->| ->].
  { assert (IZR f < IZR (n + 1)) as Ha by (rewrite plus_IZR; lra).
    assert (IZR (n - 2) < IZR f) as Hb by (rewrite minus_IZR; lra).
    apply lt_IZR in Ha, Hb. lia. }
  - destruct (Rlt_dec (r - IZR n) (1 / 2)); [reflexivity | lra].
  - rewrite minus_IZR.
    destruct (Rlt_dec (r - (IZR n - 1)) (1 / 2)); [lra|].
    destruct (Rlt_dec (1 / 2) (r - (IZR n - 1))); [lia | lra].
Qed.

(** Rounding a number of a known binade that is nearest to [n] units in
    the last place. *)
Lemma round_in_binade (prec : Z) (x : R) (e n : Z) :
  powerRZ 2 e <= Rabs x < powerRZ 2 (e + 1) ->
  IZR n - 1 / 2 < x / powerRZ 2 (e - prec + 1) < IZR n + 1 / 2 ->
  Float.round prec x = IZR n * powerRZ 2 (e - prec + 1).
Proof.
  intros Hb Hn. unfold Float.round.
  assert (0 < powerRZ 2 e) as Hp by (apply powerRZ_lt; lra).
  destruct (Req_dec_T x 0) as [->|_].
  - rewrite Rabs_R0 in Hb. lra.
  - cbv zeta. rewrite (mag_unique x e Hb).
    rewrite (nearest_even_unique _ n Hn). reflexivity.
Qed.

(** Rounding to [prec] bits is accurate to a relative [2 ^ - prec]. *)
Lemma round_error (prec : Z) (x : R) :
  Rabs (Float.round prec x - x) <= powerRZ 2 (- prec) * Rabs x.
Proof.
  unfold Float.round.
  destruct (Req_dec_T x 0) as [->|Hx].
  - rewrite Rminus_0_r, Rabs_R0. lra.
  - cbv zeta. destruct (mag_spec x Hx) as [Hlo _].
    set (e := Float.mag x) in *.
    set (ulp := powerRZ 2 (e - prec + 1)).
    assert (0 < ulp) as Hu by (apply powerRZ_lt; lra).
    pose proof (nearest_even_error (x / ulp)) as Hn.
    set (n := IZR (Float.nearest_even (x / ulp))) in *.
    replace (n * ulp - x) with ((n - x / ulp) * ulp) by (field; lra).
    rewrite Rabs_mult, (Rabs_pos_eq ulp) by lra.
    assert (ulp = 2 * (powerRZ 2 (- prec) * powerRZ 2 e)) as Hulp.
    { unfold ulp.
      replace (e - prec + 1)%Z with (1 + (- prec + e))%Z by lia.
      rewrite !powerRZ_add by lra. simpl. ring. }
    assert (0 < powerRZ 2 (- prec)) as Hq by (apply powerRZ_lt; lra).
    assert (0 < powerRZ 2 e) as Hp by (apply powerRZ_lt; lra).
    clearbody n. rewrite Hulp in Hn |- *.
    apply (Rle_trans _ (1 / 2 * (2 * (powerRZ 2 (- prec) * powerRZ 2 e)))).
    + apply Rmult_le_compat_r; [nra | exact Hn].
    + replace (1 / 2 * (2 * (powerRZ 2 (- prec) * powerRZ 2 e)))
        with (powerRZ 2 (- prec) * powerRZ 2 e) by field.
      apply Rmult_le_compat_l; [lra | exact Hlo].
Qed.






(** *** The angle *)

Lemma np_abs_nonneg (c : C) : 0 <= np_abs c.
Proof. unfold np_abs. apply sqrt_pos. Qed.

Lemma np_abs_scaled (x y d : R) :
  0 <= d -> d * d = x * x + y * y -> np_abs (x, y) = d.
Proof.
  intros Hd Hdd. unfold np_abs. simpl.
  apply sqrt_lem_1; [nra | exact Hd | exact Hdd].
Qed.

(** A coefficient is its modulus times the unit vector of its angle:
    [np.angle] is the argument of the coefficient. *)
Lemma np_angle_polar (c : C) :
  real c = np_abs c * cos (np_angle c)
  /\ imag c = np_abs c * sin (np_angle c).
Proof.
  destruct c as [x y]. unfold np_angle, arctan2. simpl real. simpl imag.
  set (t := y / x).
  assert (0 < sqrt (1 + t²)) as Hd.
  { apply sqrt_lt_R0. pose proof (Rle_0_sqr t). lra. }
  assert (sqrt (1 + t²) * sqrt (1 + t²) = 1 + t²) as Hdd.
  { apply sqrt_def. pose proof (Rle_0_sqr t). lra. }
  assert (x <> 0 -> y = x * t) as Hyt by (intros; unfold t; field; lra).
  destruct (Rlt_dec 0 x) as [Hx|Hx].
  - assert (np_abs (x, y) = x * sqrt (1 + t²)) as ->.
    { apply np_abs_scaled; [nra|].
      replace (x * sqrt (1 + t²) * (x * sqrt (1 + t²)))
        with (x * x * (sqrt (1 + t²) * sqrt (1 + t²))) by ring.
      rewrite Hdd. unfold t, Rsqr. field. lra. }
    rewrite cos_atan, sin_atan. split.
    + field. lra.
    + rewrite (Hyt ltac:(lra)) at 1. field. lra.
  - destruct (Rlt_dec x 0) as [Hx'|Hx'].
    + assert (np_abs (x, y) = - x * sqrt (1 + t²)) as Habs.
      { apply np_abs_scaled; [nra|].
        replace (- x * sqrt (1 + t²) * (- x * sqrt (1 + t²)))
          with (x * x * (sqrt (1 + t²) * sqrt (1 + t²))) by ring.
        rewrite Hdd. unfold t, Rsqr. field. lra. }
      rewrite Habs.
      assert (cos (atan t - PI) = - cos (atan t)) as Hc.
      { rewrite cos_minus, cos_PI, sin_PI. ring. }
      assert (sin (atan t - PI) = - sin (atan t)) as Hs.
      { rewrite sin_minus, cos_PI, sin_PI. ring. }
      destruct (Rle_dec 0 y);
        rewrite ?neg_cos, ?neg_sin, ?Hc, ?Hs, cos_atan, sin_atan;
        (split; [field; lra | rewrite (Hyt ltac:(lra)) at 1; field; lra]).
    + assert (x = 0) as -> by lra.
      destruct (Rlt_dec 0 y) as [Hy|Hy].
      * rewrite (np_abs_scaled 0 y y) by nra.
        rewrite cos_PI2, sin_PI2. split; ring.
      * destruct (Rlt_dec y 0) as [Hy'|Hy'].
        -- rewrite (np_abs_scaled 0 y (- y)) by nra.
           rewrite cos_neg, sin_neg, cos_PI2, sin_PI2. split; ring.
        -- assert (y = 0) as -> by lra.
           rewrite (np_abs_scaled 0 0 0) by nra. split; ring.
Qed.

Lemma np_angle_0 : np_angle C0 = 0.
Proof.
  unfold np_angle, arctan2, C0. simpl.
  destruct (Rlt_dec 0 0); [lra|]. reflexivity.
Qed.

(** *** The two powers in single precision *)

Lemma float32_error (x : R) :
  Rabs (Float.float32 x - x) <= / 16777216 * Rabs x.
Proof.
  pose proof (round_error 24 x) as H.
  replace (powerRZ 2 (- (24))) with (/ 16777216) in H;
    [exact H | simpl; field].
Qed.

Lemma float32_between (x : R) :
  0 <= x ->
  x * (1 - / 16777216) <= Float.float32 x <= x * (1 + / 16777216).
Proof.
  intros Hx. pose proof (float32_error x) as H.
  rewrite (Rabs_pos_eq x Hx) in H.
  unfold Rabs in H. destruct (Rcase_abs (Float.float32 x - x)); lra.
Qed.

Lemma square_between (lo a hi : R) :
  0 <= lo -> lo <= a -> a <= hi -> lo * lo <= a * a <= hi * hi.
Proof. intros. split; nra. Qed.

(** The power of the power-only mode and the power of the both mode are
    two roundings of the same real number. *)
Lemma single_powers_close (c : C) :
  let s := real c ^ 2 + imag c ^ 2 in
  let u := / 16777216 in
  s * (1 - u) ^ 3 <= Single.square (Single.np_abs c) <= s * (1 + u) ^ 3
  /\ s * (1 - u) ^ 2
     <= Float.float32 (Single.square (real c) + Single.square (imag c))
     <= s * (1 + u) ^ 2.
Proof.
  intros s u. destruct c as [x y]. simpl real in *. simpl imag in *.
  assert (0 <= x * x) as Hxx by nra. assert (0 <= y * y) as Hyy by nra.
  assert (s = x * x + y * y) as Hs by (unfold s; ring).
  split.
  - unfold Single.square, Single.np_abs.
    set (h := np_abs (x, y)).
    assert (0 <= h) as Hh by apply np_abs_nonneg.
    assert (h * h = s) as Hhh.
    { unfold h, np_abs. simpl. rewrite sqrt_def by lra. lra. }
    pose proof (float32_between h Hh) as Ha. fold u in Ha.
    set (a := Float.float32 h) in *.
    assert (0 <= h * (1 - u)) as Hlo by (unfold u; nra).
    destruct (square_between _ _ _ Hlo (proj1 Ha) (proj2 Ha)) as [A1 A2].
    assert (0 <= a * a) as Haa by nra.
    pose proof (float32_between (a * a) Haa) as Hp. fold u in Hp.
    replace (h * (1 - u) * (h * (1 - u))) with (s * (1 - u) ^ 2) in A1
      by (rewrite <- Hhh; ring).
    replace (h * (1 + u) * (h * (1 + u))) with (s * (1 + u) ^ 2) in A2
      by (rewrite <- Hhh; ring).
    assert (0 <= s) as Hs0 by lra.
    unfold u in *. split; nra.
  - unfold Single.square.
    pose proof (float32_between (x * x) Hxx) as H1.
    pose proof (float32_between (y * y) Hyy) as H2.
    fold u in H1, H2.
    set (x1 := Float.float32 (x * x)) in *.
    set (x2 := Float.float32 (y * y)) in *.
    assert (0 <= x1 + x2) as Ht by (unfold u in *; lra).
    pose proof (float32_between (x1 + x2) Ht) as H3. fold u in H3.
    unfold u in *. split; nra.
Qed.

Lemma single_powers_bound (c : C) :
  Rabs (Single.square (Single.np_abs c)
        - Float.float32 (Single.square (real c) + Single.square (imag c)))
  <= 6 * / 16777216 * (real c ^ 2 + imag c ^ 2).
Proof.
  destruct (single_powers_close c) as [[P1 P2] [B1 B2]].
  cbv zeta in *.
  assert (0 <= real c ^ 2 + imag c ^ 2) as Hs
    by (pose proof (pow2_ge_0 (real c)); pose proof (pow2_ge_0 (imag c));
        lra).
  apply Rabs_le. split; nra.
Qed.

(** *** The coefficient 1 + 1j *)

Lemma float32_1 : Float.float32 1 = 1.
Proof.
  unfold Float.float32.
  rewrite (round_in_binade 24 1 0 8388608).
  - simpl. field.
  - rewrite Rabs_R1. simpl. lra.
  - simpl. lra.
Qed.

Lemma float32_2 : Float.float32 2 = 2.
Proof.
  unfold Float.float32.
  rewrite (round_in_binade 24 2 1 8388608).
  - simpl. field.
  - rewrite (Rabs_pos_eq 2) by lra. simpl. lra.
  - simpl. lra.
Qed.

Lemma sqrt_2_bounds : 23726565 / 16777216 < sqrt 2 < 23726567 / 16777216.
Proof.
  split.
  - rewrite <- (sqrt_square (23726565 / 16777216)) by lra.
    apply sqrt_lt_1; lra.
  - rewrite <- (sqrt_square (23726567 / 16777216)) by lra.
    apply sqrt_lt_1; lra.
Qed.

Lemma float32_sqrt_2 : Float.float32 (sqrt 2) = 11863283 / 8388608.
Proof.
  pose proof sqrt_2_bounds as [Hlo Hhi].
  unfold Float.float32.
  rewrite (round_in_binade 24 (sqrt 2) 0 11863283).
  - simpl. field.
  - rewrite (Rabs_pos_eq (sqrt 2)) by lra. simpl. lra.
  - simpl. lra.
Qed.

Lemma float32_near_2 :
  Float.float32 (11863283 / 8388608 * (11863283 / 8388608))
  = 16777215 / 8388608.
Proof.
  unfold Float.float32.
  rewrite (round_in_binade 24 _ 0 16777215).
  - simpl. field.
  - rewrite Rabs_pos_eq by lra. simpl. lra.
  - simpl. lra.
Qed.

End Precision.

(** C3.  For every coefficient [c] of the buffer, in exact arithmetic the
    power output is [|c|^2], which is [real^2 + imag^2], and the phase
    output is [atan2 (imag c) (real c)]: the angle in (-pi, pi] that
    turns the modulus into [c], and 0 for [c = 0]; the "both" strategy
    then returns the power row of [compute_power] and the phase row of
    [compute_phase].  As NumPy computes them in single precision, the
    phase row of the "both" strategy is the phase row of [compute_phase],
    the very same computation, but its power row comes from another
    expression than the one of [compute_power]: the two powers are both
    within a few roundings of [|c|^2], hence of each other, and need not
    be equal. *)
Theorem C3_power_phase_consistent (arr : list C) :
  fst (compute_power arr) = Some (map (fun c => (np_abs c ^ 2)%R) arr)
  /\ snd (compute_phase arr)
     = Some (map (fun c => arctan2 (imag c) (real c)) arr)
  /\ (forall c, (np_abs c ^ 2 = real c ^ 2 + imag c ^ 2)%R
                /\ (- PI < np_angle c <= PI)%R
                /\ real c = (np_abs c * cos (np_angle c))%R
                /\ imag c = (np_abs c * sin (np_angle c))%R)
  /\ np_angle C0 = 0%R
  /\ fst (compute_power_and_phase arr) = fst (compute_power arr)
  /\ snd (compute_power_and_phase arr) = snd (compute_phase arr)
  /\ snd (Single.compute_power_and_phase arr)
     = snd (Single.compute_phase arr)
  /\ exists pow both,
       fst (Single.compute_power arr) = Some pow
       /\ fst (Single.compute_power_and_phase arr) = Some both
       /\ forall i c,
            nth_error arr i = Some c ->
            exists p b,
              nth_error pow i = Some p
              /\ nth_error both i = Some b
              /\ (Rabs (p - (real c ^ 2 + imag c ^ 2))
                  <= 4 * / 16777216 * (real c ^ 2 + imag c ^ 2))%R
              /\ (Rabs (b - (real c ^ 2 + imag c ^ 2))
                  <= 3 * / 16777216 * (real c ^ 2 + imag c ^ 2))%R
              /\ (Rabs (p - b)
                  <= 6 * / 16777216 * (real c ^ 2 + imag c ^ 2))%R.
Proof.
  split; [reflexivity|]. split; [reflexivity|].
  split.
  { intros c. split; [apply np_abs_sqr|].
    split; [apply arctan2_range|]. apply np_angle_polar. }
  split; [apply np_angle_0|].
  split.
  { simpl. f_equal. apply map_ext. intros c. symmetry. apply np_abs_sqr. }
  split; [reflexivity|]. split; [reflexivity|].
  eexists _, _. split; [reflexivity|]. split; [reflexivity|].
  intros i c Hc.
  rewrite !nth_error_map, Hc. simpl.
  eexists _, _. split; [reflexivity|]. split; [reflexivity|].
  destruct (single_powers_close c) as [[P1 P2] [B1 B2]].
  cbv zeta in P1, P2, B1, B2.
  assert (0 <= real c ^ 2 + imag c ^ 2)%R as Hs
    by (pose proof (pow2_ge_0 (real c)); pose proof (pow2_ge_0 (imag c));
        lra).
  split; [apply Rabs_le; split; nra|].
  split; [apply Rabs_le; split; nra|].
  apply single_powers_bound.
Qed.


(** ** What the dense arrays hold *)




(** ** The convolution theorem *)

Section Fourier.
Local Open Scope R_scope.

Lemma Cadd_0_l (a : C) : Cadd C0 a = a.
Proof. destruct a. unfold Cadd, C0; simpl. f_equal; ring. Qed.

Lemma Cadd_0_r (a : C) : Cadd a C0 = a.
Proof. destruct a. unfold Cadd, C0; simpl. f_equal; ring. Qed.

Lemma Cadd_comm (a b : C) : Cadd a b = Cadd b a.
Proof. unfold Cadd. f_equal; ring. Qed.

Lemma Cadd_assoc (a b c : C) : Cadd a (Cadd b c) = Cadd (Cadd a b) c.
Proof. unfold Cadd; simpl. f_equal; ring. Qed.

Lemma Cmul_0_l (a : C) : Cmul C0 a = C0.
Proof. unfold Cmul, C0; simpl. f_equal; ring. Qed.

Lemma Cmul_0_r (a : C) : Cmul a C0 = C0.
Proof. unfold Cmul, C0; simpl. f_equal; ring. Qed.

Lemma Cmul_1_r (a : C) : Cmul a (1, 0) = a.
Proof. destruct a. unfold Cmul; simpl. f_equal; ring. Qed.

Lemma Cmul_comm (a b : C) : Cmul a b = Cmul b a.
Proof. unfold Cmul. f_equal; ring. Qed.

Lemma Cmul_assoc (a b c : C) : Cmul a (Cmul b c) = Cmul (Cmul a b) c.
Proof. unfold Cmul; simpl. f_equal; ring. Qed.

Lemma Cmul_add_distr_l (a b c : C) :
  Cmul a (Cadd b c) = Cadd (Cmul a b) (Cmul a c).
Proof. unfold Cmul, Cadd; simpl. f_equal; ring. Qed.

Lemma Cmul_add_distr_r (a b c : C) :
  Cmul (Cadd a b) c = Cadd (Cmul a c) (Cmul b c).
Proof. unfold Cmul, Cadd; simpl. f_equal; ring. Qed.

Lemma Cscale_0 (r : R) : Cscale r C0 = C0.
Proof. unfold Cscale, C0; simpl. f_equal; ring. Qed.

Lemma Cscale_add (r : R) (a b : C) :
  Cscale r (Cadd a b) = Cadd (Cscale r a) (Cscale r b).
Proof. unfold Cscale, Cadd; simpl. f_equal; ring. Qed.

Lemma Csum_map_ext {A} (f g : A -> C) (l : list A) :
  (forall x, In x l -> f x = g x) -> Csum (map f l) = Csum (map g l).
Proof.
  induction l as [|x l IH]; simpl; intros H; [reflexivity|].
  rewrite (H x) by auto. rewrite IH by auto. reflexivity.
Qed.

Lemma Csum_map_zero {A} (f : A -> C) (l : list A) :
  (forall x, In x l -> f x = C0) -> Csum (map f l) = C0.
Proof.
  induction l as [|x l IH]; simpl; intros H; [reflexivity|].
  rewrite (H x) by auto. rewrite IH by auto. apply Cadd_0_l.
Qed.

Lemma Csum_map_add {A} (f g : A -> C) (l : list A) :
  Csum (map (fun x => Cadd (f x) (g x)) l)
  = Cadd (Csum (map f l)) (Csum (map g l)).
Proof.
  induction l as [|x l IH]; simpl; [symmetry; apply Cadd_0_l|].
  rewrite IH. unfold Cadd; simpl. f_equal; ring.
Qed.

Lemma Csum_map_mul_l {A} (c : C) (f : A -> C) (l : list A) :
  Csum (map (fun x => Cmul c (f x)) l) = Cmul c (Csum (map f l)).
Proof.
  induction l as [|x l IH]; simpl; [symmetry; apply Cmul_0_r|].
  rewrite IH. symmetry. apply Cmul_add_distr_l.
Qed.

Lemma Csum_map_mul_r {A} (c : C) (f : A -> C) (l : list A) :
  Csum (map (fun x => Cmul (f x) c) l) = Cmul (Csum (map f l)) c.
Proof.
  induction l as [|x l IH]; simpl; [symmetry; apply Cmul_0_l|].
  rewrite IH. symmetry. apply Cmul_add_distr_r.
Qed.

Lemma Csum_map_scale {A} (r : R) (f : A -> C) (l : list A) :
  Csum (map (fun x => Cscale r (f x)) l) = Cscale r (Csum (map f l)).
Proof.
  induction l as [|x l IH]; simpl; [symmetry; apply Cscale_0|].
  rewrite IH. symmetry. apply Cscale_add.
Qed.

(** Two nested finite sums can be exchanged. *)
Lemma Csum_swap {A B} (f : A -> B -> C) (l1 : list A) (l2 : list B) :
  Csum (map (fun x => Csum (map (fun y => f x y) l2)) l1)
  = Csum (map (fun y => Csum (map (fun x => f x y) l1)) l2).
Proof.
  induction l1 as [|x l1 IH]; simpl.
  - symmetry. apply Csum_map_zero. reflexivity.
  - rewrite IH. symmetry.
    apply (Csum_map_add (fun y => f x y)
             (fun y => Csum (map (fun x => f x y) l1))).
Qed.

(** A sum whose terms vanish from [M] on stops at [M]. *)
Lemma Csum_seq_trunc (g : nat -> C) (M N : nat) :
  (M <= N)%nat -> (forall j, (M <= j < N)%nat -> g j = C0) ->
  Csum (map g (seq 0 N)) = Csum (map g (seq 0 M)).
Proof.
  intros HMN Hz.
  replace N with (M + (N - M))%nat by lia.
  rewrite seq_app, map_app. simpl.
  assert (forall l1 l2, Csum (l1 ++ l2) = Cadd (Csum l1) (Csum l2)) as Happ.
  { induction l1 as [|x l1 IH]; intros l2; simpl.
    - symmetry. apply Cadd_0_l.
    - rewrite IH. apply Cadd_assoc. }
  rewrite Happ. rewrite (Csum_map_zero g (seq M (N - M))).
  - apply Cadd_0_r.
  - intros j Hj. apply in_seq in Hj. apply Hz. lia.
Qed.

(** A sum with a single term that does not vanish. *)
Lemma Csum_seq_single (g : nat -> C) (j0 N : nat) :
  Csum (map (fun j => if (j =? j0)%nat then g j else C0) (seq 0 N))
  = if (j0 <? N)%nat then g j0 else C0.
Proof.
  induction N as [|N IH]; [reflexivity|].
  rewrite seq_S, map_app. simpl.
  assert (forall l x, Csum (l ++ [x]) = Cadd (Csum l) x) as Hsnoc.
  { induction l as [|y l IHl]; intros x; simpl.
    - rewrite Cadd_0_l, Cadd_0_r. reflexivity.
    - rewrite IHl. apply Cadd_assoc. }
  rewrite Hsnoc, IH.
  destruct (Nat.eqb_spec N j0) as [->|Hne].
  - destruct (Nat.ltb_spec j0 j0); [lia|].
    destruct (Nat.ltb_spec j0 (S j0)); [|lia]. apply Cadd_0_l.
  - destruct (Nat.ltb_spec j0 N), (Nat.ltb_spec j0 (S N)); try lia;
      apply Cadd_0_r.
Qed.

(** *** Roots of unity *)

Lemma cis_add (a b : R) : cis (a + b) = Cmul (cis a) (cis b).
Proof.
  unfold cis, Cmul; simpl. rewrite cos_plus, sin_plus. f_equal; ring.
Qed.

Lemma cis_0 : cis 0 = (1, 0).
Proof. unfold cis. rewrite cos_0, sin_0. reflexivity. Qed.

Lemma cis_turns (d : Z) : cis (2 * PI * IZR d) = (1, 0).
Proof.
  assert (sin (PI * IZR d) = 0) as Hs.
  { apply sin_eq_0_1. exists d. ring. }
  unfold cis. f_equal.
  - replace (2 * PI * IZR d) with (2 * (PI * IZR d)) by ring.
    rewrite cos_2a_sin, Hs. ring.
  - replace (2 * PI * IZR d) with (2 * (PI * IZR d)) by ring.
    rewrite sin_2a, Hs. ring.
Qed.

Lemma cis_not_1 (d : Z) (m : nat) :
  (d <> 0)%Z -> (Z.abs d < Z.of_nat m)%Z ->
  cis (2 * PI * IZR d / INR m) <> (1, 0).
Proof.
  intros Hd Hlt Heq.
  assert (0 < INR m) as Hm by (apply lt_0_INR; lia).
  injection Heq as Hc _.
  replace (2 * PI * IZR d / INR m) with (2 * (PI * IZR d / INR m)) in Hc
    by (field; lra).
  rewrite cos_2a_sin in Hc.
  assert (sin (PI * IZR d / INR m) = 0) as Hs by nra.
  apply sin_eq_0_0 in Hs as (k & Hk).
  pose proof PI_RGT_0 as Hpi.
  assert (IZR d = IZR k * INR m) as Hdk.
  { apply (Rmult_eq_reg_l PI); [|lra].
    replace (PI * IZR d) with (PI * IZR d / INR m * INR m) by (field; lra).
    rewrite Hk. ring. }
  rewrite INR_IZR_INZ, <- mult_IZR in Hdk. apply eq_IZR in Hdk.
  destruct (Z.eq_dec k 0%Z) as [->|Hk0]; [lia|]. nia.
Qed.

Lemma geometric_sum (theta : R) (m : nat) :
  cis (INR m * theta) = (1, 0) -> cis theta <> (1, 0) ->
  Csum (map (fun k => cis (INR k * theta)) (seq 0 m)) = C0.
Proof.
  intros Hm Hne.
  set (S0 := Csum (map (fun k => cis (INR k * theta)) (seq 0 m))).
  assert (forall n,
             Cadd (Cmul (cis theta)
                     (Csum (map (fun k => cis (INR k * theta)) (seq 0 n))))
                  (1, 0)
             = Cadd (Csum (map (fun k => cis (INR k * theta)) (seq 0 n)))
                    (cis (INR n * theta))) as Hshift.
  { induction n as [|n IH].
    - simpl. rewrite Cmul_0_r, Rmult_0_l, cis_0. reflexivity.
    - rewrite seq_S, map_app. simpl map.
      assert (forall l x, Csum (l ++ [x]) = Cadd (Csum l) x) as Hsnoc.
      { induction l as [|y l IHl]; intros x; simpl.
        - rewrite Cadd_0_l, Cadd_0_r. reflexivity.
        - rewrite IHl. apply Cadd_assoc. }
      rewrite !Hsnoc.
      rewrite Cmul_add_distr_l.
      rewrite <- (Cadd_assoc _ _ (1, 0)),
        (Cadd_comm (Cmul (cis theta) _) (1, 0)),
        (Cadd_assoc _ (1, 0)), IH.
      rewrite <- cis_add. f_equal. f_equal.
      rewrite S_INR. ring. }
  specialize (Hshift m). fold S0 in Hshift. rewrite Hm in Hshift.
  destruct (cis theta) as [c s] eqn:Hcis. destruct S0 as [x y].
  unfold Cmul, Cadd in Hshift; simpl in Hshift.
  injection Hshift as H1 H2.
  assert ((c - 1) * x - s * y = 0) as E1 by nra.
  assert (s * x + (c - 1) * y = 0) as E2 by nra.
  assert (((c - 1) * (c - 1) + s * s) * x = 0) as Ex.
  { replace (((c - 1) * (c - 1) + s * s) * x)
      with ((c - 1) * ((c - 1) * x - s * y) + s * (s * x + (c - 1) * y))
      by ring.
    rewrite E1, E2. ring. }
  assert (((c - 1) * (c - 1) + s * s) * y = 0) as Ey.
  { replace (((c - 1) * (c - 1) + s * s) * y)
      with ((c - 1) * (s * x + (c - 1) * y) - s * ((c - 1) * x - s * y))
      by ring.
    rewrite E1, E2. ring. }
  assert ((c - 1) * (c - 1) + s * s <> 0) as Hnz.
  { intros H0. apply Hne.
    assert (c - 1 = 0 /\ s = 0) as [Hc Hs].
    { pose proof (Rle_0_sqr (c - 1)). pose proof (Rle_0_sqr s).
      unfold Rsqr in *. split; nra. }
    f_equal; lra. }
  unfold C0. f_equal.
  - apply Rmult_integral in Ex as [Ex|Ex]; [contradiction | exact Ex].
  - apply Rmult_integral in Ey as [Ey|Ey]; [contradiction | exact Ey].
Qed.

(** The [m]-th roots of unity to a power [d] with [|d| < m] sum to [m]
    if [d] is 0 and to nothing otherwise. *)
Lemma roots_of_unity_sum (m : nat) (d : Z) :
  (Z.abs d < Z.of_nat m)%Z ->
  Csum (map (fun k => cis (2 * PI * INR k * IZR d / INR m)) (seq 0 m))
  = if (d =? 0)%Z then (INR m, 0) else C0.
Proof.
  intros Hlt.
  assert (0 < INR m) as Hm by (apply lt_0_INR; lia).
  destruct (Z.eqb_spec d 0) as [->|Hd].
  - rewrite (Csum_map_ext _ (fun _ => (1, 0))).
    + clear. induction m as [|m IH]; [reflexivity|].
      rewrite seq_S, map_app.
      assert (forall l x, Csum (l ++ [x]) = Cadd (Csum l) x) as Hsnoc.
      { induction l as [|y l IHl]; intros x; simpl.
        - rewrite Cadd_0_l, Cadd_0_r. reflexivity.
        - rewrite IHl. apply Cadd_assoc. }
      simpl map. rewrite Hsnoc, IH, S_INR. unfold Cadd; simpl.
      f_equal; ring.
    + intros k _. rewrite <- cis_0. f_equal. field. lra.
  - rewrite (Csum_map_ext _
               (fun k => cis (INR k * (2 * PI * IZR d / INR m)))).
    + apply geometric_sum.
      * rewrite <- (cis_turns d). f_equal. field. lra.
      * apply cis_not_1; assumption.
    + intros k _. f_equal. field. lra.
Qed.

(** *** The discrete Fourier transform *)

Lemma fit_nth (m j : nat) (x : list C) :
  (j < m)%nat -> nth j (fit m x) C0 = nth j x C0.
Proof.
  intros Hj. unfold fit.
  destruct (Nat.lt_ge_cases j (length x)) as [Hlt|Hge].
  - rewrite app_nth1 by (rewrite length_firstn; lia).
    rewrite nth_firstn.
    destruct (Nat.ltb_spec j m); [reflexivity | lia].
  - rewrite (nth_overflow x) by lia.
    destruct (Nat.lt_ge_cases j (length (firstn m x))) as [Hlt|Hge'].
    + rewrite length_firstn in Hlt. lia.
    + rewrite app_nth2 by exact Hge'. apply nth_repeat.
Qed.

Lemma nth_map_seq (g : nat -> C) (m k : nat) :
  (k < m)%nat -> nth k (map g (seq 0 m)) C0 = g k.
Proof.
  intros Hk.
  rewrite (nth_indep _ C0 (g O)) by (rewrite length_map, length_seq; lia).
  rewrite (map_nth g (seq 0 m) O k), seq_nth by lia. reflexivity.
Qed.

Lemma fft_nth (x : list C) (P : Z) (k : nat) :
  (k < Z.to_nat P)%nat -> (length x <= Z.to_nat P)%nat ->
  nth k (fft x P) C0
  = Csum (map (fun j => Cmul (nth j x C0) (twiddle (-1) (Z.to_nat P) j k))
              (seq 0 (length x))).
Proof.
  intros Hk Hlen. unfold fft. cbv zeta.
  rewrite nth_map_seq by exact Hk.
  rewrite (Csum_map_ext _
             (fun j => Cmul (nth j x C0) (twiddle (-1) (Z.to_nat P) j k))).
  - apply Csum_seq_trunc; [exact Hlen|].
    intros j Hj. rewrite (nth_overflow x) by lia. apply Cmul_0_l.
  - intros j Hj. apply in_seq in Hj. rewrite fit_nth by lia. reflexivity.
Qed.

Lemma ifft_nth (y : list C) (n : nat) :
  (n < length y)%nat ->
  nth n (ifft y) C0
  = Cscale (/ INR (length y))
      (Csum (map (fun k => Cmul (nth k y C0) (twiddle 1 (length y) n k))
                 (seq 0 (length y)))).
Proof.
  intros Hn. unfold ifft. cbv zeta.
  rewrite nth_map_seq by exact Hn. reflexivity.
Qed.

Lemma zip_with_Cmul_length (x y : list C) :
  length y = length x -> length (zip_with Cmul x y) = length x.
Proof.
  revert y. induction x as [|a x IH]; intros [|b y]; simpl; try discriminate;
    [reflexivity|].
  intros [= H]. f_equal. apply IH. exact H.
Qed.

Lemma zip_with_Cmul_nth (x y : list C) (k : nat) :
  nth k (zip_with Cmul x y) C0 = Cmul (nth k x C0) (nth k y C0)
  \/ (length x <= k)%nat \/ (length y <= k)%nat.
Proof.
  revert y k. induction x as [|a x IH]; intros y k.
  - right. left. simpl. lia.
  - destruct y as [|b y]; [right; right; simpl; lia|].
    destruct k as [|k]; [left; reflexivity|].
    simpl. destruct (IH y k) as [H|[H|H]]; [left; exact H | right; lia..].
Qed.

Lemma Cmul_shuffle (a u b v w : C) :
  Cmul (Cmul (Cmul a u) (Cmul b v)) w
  = Cmul (Cmul a b) (Cmul (Cmul u v) w).
Proof.
  destruct a, u, b, v, w. unfold Cmul; simpl. f_equal; ring.
Qed.

Lemma twiddle_product (m j l n k : nat) :
  (0 < m)%nat ->
  Cmul (Cmul (twiddle (-1) m j k) (twiddle (-1) m l k)) (twiddle 1 m n k)
  = cis (2 * PI * INR k
         * IZR (Z.of_nat n - Z.of_nat j - Z.of_nat l) / INR m).
Proof.
  intros Hm. assert (0 < INR m) as Hm' by (apply lt_0_INR; lia).
  unfold twiddle. rewrite <- !cis_add. f_equal.
  rewrite !minus_IZR, <- !INR_IZR_INZ. field. lra.
Qed.

(** Product of two finite sums, times a factor, as a double sum. *)
Lemma Csum_product {A B} (f : A -> C) (g : B -> C) (t : C)
    (l1 : list A) (l2 : list B) :
  Cmul (Cmul (Csum (map f l1)) (Csum (map g l2))) t
  = Csum (map (fun x =>
                 Csum (map (fun y => Cmul (Cmul (f x) (g y)) t) l2)) l1).
Proof.
  rewrite (Csum_map_ext
             (fun x => Csum (map (fun y => Cmul (Cmul (f x) (g y)) t) l2))
             (fun x => Cmul (f x) (Cmul (Csum (map g l2)) t))).
  - rewrite Csum_map_mul_r. symmetry. apply Cmul_assoc.
  - intros x _.
    rewrite (Csum_map_mul_r t (fun y => Cmul (f x) (g y))).
    rewrite Csum_map_mul_l. symmetry. apply Cmul_assoc.
Qed.

(** The convolution theorem, with enough padding: sample [n] of the
    inverse transform of the product of the transforms, both padded to
    [P >= len(a) + len(b) - 1], is sample [n] of the linear convolution. *)
Lemma fft_convolution_nth (a b : list C) (P : Z) (n : nat) :
  (1 <= length a)%nat -> (1 <= length b)%nat ->
  (length a + length b - 1 <= Z.to_nat P)%nat ->
  (n < Z.to_nat P)%nat ->
  nth n (ifft (zip_with Cmul (fft a P) (fft b P))) C0
  = Csum (map (fun j => Cmul (nth j a C0) (nth (n - j) b C0))
              (seq 0 (S n))).
Proof.
  intros Ha Hb Hfit Hn.
  set (m := Z.to_nat P) in *.
  assert (0 < INR m) as Hm by (apply lt_0_INR; lia).
  assert (length (zip_with Cmul (fft a P) (fft b P)) = m) as Hlen.
  { rewrite zip_with_Cmul_length; rewrite !fft_length; reflexivity. }
  rewrite ifft_nth by (rewrite Hlen; exact Hn). rewrite Hlen.
  (* every term of the outer sum, as a double sum over the supports *)
  rewrite (Csum_map_ext _
             (fun k =>
                Csum (map (fun j =>
                  Csum (map (fun l =>
                    Cmul (Cmul (nth j a C0) (nth l b C0))
                      (cis (2 * PI * INR k
                            * IZR (Z.of_nat n - Z.of_nat j - Z.of_nat l)
                            / INR m)))
                    (seq 0 (length b))))
                  (seq 0 (length a))))).
  2:{ intros k Hk. apply in_seq in Hk.
      destruct (zip_with_Cmul_nth (fft a P) (fft b P) k) as [->|Hout];
        [|rewrite !fft_length in Hout; fold m in Hout; lia].
      rewrite !fft_nth by (fold m; lia). fold m.
      rewrite Csum_product.
      apply Csum_map_ext. intros j _. apply Csum_map_ext. intros l _.
      rewrite Cmul_shuffle, twiddle_product by lia. reflexivity. }
  (* bring the sum over [k] inside *)
  rewrite Csum_swap.
  rewrite (Csum_map_ext _
             (fun j =>
                Csum (map (fun l =>
                  Cmul (Cmul (nth j a C0) (nth l b C0))
                    (if (Z.of_nat n - Z.of_nat j - Z.of_nat l =? 0)%Z
                     then (INR m, 0) else C0))
                  (seq 0 (length b))))).
  2:{ intros j Hj. apply in_seq in Hj. rewrite Csum_swap.
      apply Csum_map_ext. intros l Hl. apply in_seq in Hl.
      rewrite Csum_map_mul_l. f_equal.
      apply roots_of_unity_sum. lia. }
  (* scale by 1/m *)
  rewrite <- Csum_map_scale.
  rewrite (Csum_map_ext _
             (fun j => if (j <=? n)%nat
                       then Cmul (nth j a C0) (nth (n - j) b C0)
                       else C0)).
  2:{ intros j Hj. apply in_seq in Hj. rewrite <- Csum_map_scale.
      rewrite (Csum_map_ext _
                 (fun l => if (l =? n - j)%nat
                           then (if (j <=? n)%nat
                                 then Cmul (nth j a C0) (nth l b C0)
                                 else C0)
                           else C0)).
      - rewrite (Csum_seq_single
                   (fun l => if (j <=? n)%nat
                             then Cmul (nth j a C0) (nth l b C0) else C0)).
        destruct (Nat.ltb_spec (n - j) (length b)); [reflexivity|].
        destruct (j <=? n)%nat; [|reflexivity].
        rewrite (nth_overflow b) by lia. symmetry. apply Cmul_0_r.
      - intros l Hl. apply in_seq in Hl.
        destruct (Z.eqb_spec (Z.of_nat n - Z.of_nat j - Z.of_nat l) 0)
          as [Hd|Hd].
        + destruct (Nat.eqb_spec l (n - j)); [|lia].
          destruct (Nat.leb_spec j n); [|lia].
          destruct (Cmul (nth j a C0) (nth l b C0)) as [x y].
          unfold Cmul, Cscale; simpl. f_equal; field; lra.
        + rewrite Cmul_0_r, Cscale_0.
          destruct (Nat.eqb_spec l (n - j)); [|reflexivity].
          destruct (Nat.leb_spec j n); [lia | reflexivity]. }
  (* both sums stop at the shorter of the two ranges *)
  set (f := fun j => Cmul (nth j a C0) (nth (n - j) b C0)).
  destruct (Nat.le_gt_cases (length a) (S n)) as [Hle|Hgt].
  - rewrite (Csum_seq_trunc f (length a) (S n) Hle).
    + apply Csum_map_ext. intros j Hj. apply in_seq in Hj.
      destruct (Nat.leb_spec j n); [reflexivity | lia].
    + intros j Hj. unfold f. rewrite (nth_overflow a) by lia.
      apply Cmul_0_l.
  - rewrite (Csum_seq_trunc _ (S n) (length a)); [|lia|].
    + apply Csum_map_ext. intros j Hj. apply in_seq in Hj.
      destruct (Nat.leb_spec j n); [reflexivity | lia].
    + intros j Hj. destruct (Nat.leb_spec j n); [lia | reflexivity].
Qed.

(** The first [len(a) + len(b) - 1] samples of the FFT convolution are
    the linear convolution. *)
Lemma fft_convolution (a b : list C) (P : Z) :
  (1 <= length a)%nat -> (1 <= length b)%nat ->
  (length a + length b - 1 <= Z.to_nat P)%nat ->
  firstn (length a + length b - 1)
    (ifft (zip_with Cmul (fft a P) (fft b P)))
  = linear_convolution a b.
Proof.
  intros Ha Hb Hfit.
  assert (length (ifft (zip_with Cmul (fft a P) (fft b P))) = Z.to_nat P)
    as Hlen.
  { rewrite ifft_length, zip_with_Cmul_length; rewrite !fft_length;
      reflexivity. }
  apply (nth_ext _ _ C0 C0).
  - rewrite length_firstn, Hlen. unfold linear_convolution.
    rewrite length_map, length_seq. lia.
  - intros n Hn. rewrite length_firstn, Hlen in Hn.
    rewrite nth_firstn.
    destruct (Nat.ltb_spec n (length a + length b - 1)); [|lia].
    rewrite fft_convolution_nth by lia.
    unfold linear_convolution. rewrite nth_map_seq by lia. reflexivity.
Qed.

(** A slice within the first [N] items only looks at these. *)
Lemma slice_firstn {A} (l : list A) (N : nat) (start stop : Z) :
  (N <= length l)%nat ->
  (0 <= start)%Z -> (start <= stop)%Z -> (stop <= Z.of_nat N)%Z ->
  Py.slice l start stop = Py.slice (firstn N l) start stop.
Proof.
  intros HN H0 H1 H2. unfold Py.slice, Py.slice_bound.
  rewrite length_firstn, Nat.min_l by exact HN.
  destruct (Z.ltb_spec start 0); [lia|].
  destruct (Z.ltb_spec stop 0); [lia|].
  rewrite !Z.min_l by lia.
  rewrite skipn_firstn_comm, firstn_firstn. f_equal. lia.
Qed.

End Fourier.

(** X13.  The FFT convolution of [filter] is the linear convolution.
    When [compute_wavelet_ffts] has returned, the window [filter] cuts
    out of [ifft(wavelet_fft_array[w] * fft(signal, convolution_size_pow2))]
    for a signal as long as the time axis starts at
    [floor((len(wavelet) - 1) / 2)], has the length of the time axis, and
    holds exactly the samples of the linear convolution of kernel [w] and
    the signal at these positions: the padding to a power of two is long
    enough for the circular convolution not to wrap around.  Hence the
    coefficients behind every row of the outputs are the cast samples of
    the centred linear convolution. *)
Theorem X13_fft_convolution_is_linear
    (morlet_multi : list R -> Z -> R -> list (list C))
    (to_complex64 : C -> C)
    (s : MorletWaveletFilter) (time_axis : coord) (samplerate : R)
    (wavelet_fft_array : list (list C)) (convolution_size_array : list Z)
    (convolution_size_pow2 : Z) (w : nat) :
  let time_axis_size := length (coord_values time_axis) in
  let T := Z.of_nat time_axis_size in
  let wavelet := nth w (bank morlet_multi s samplerate) [] in
  let start := start_offset (nth w convolution_size_array 0) T in
  let stop := end_offset (nth w convolution_size_array 0) T in
  well_formed morlet_multi s time_axis samplerate ->
  compute_wavelet_ffts morlet_multi s
  = Ok (wavelet_fft_array, convolution_size_array, convolution_size_pow2) ->
  (w < length (bank morlet_multi s samplerate))%nat ->
  start = (Z.of_nat (length wavelet) - 1) / 2
  /\ (forall signal,
         length signal = time_axis_size ->
         Py.slice
           (ifft (zip_with Cmul (nth w wavelet_fft_array [])
                           (fft signal convolution_size_pow2)))
           start stop
         = Py.slice (linear_convolution wavelet signal) start stop
         /\ length (Py.slice (linear_convolution wavelet signal) start stop)
            = time_axis_size)
  /\ (forall idx,
         List.last (shape (time_series s)) O = time_axis_size ->
         coefficients to_complex64 s time_axis_size
           (bank morlet_multi s samplerate) convolution_size_pow2 idx w
         = map to_complex64
             (Py.slice
                (linear_convolution wavelet
                   (getrow (values (time_series s)) idx))
                start stop)).
Proof.
  intros Tn T wavelet start stop Hwf Hffts Hw.
  destruct (compute_wavelet_ffts_eq morlet_multi s time_axis samplerate Hwf)
    as (s_w & Hmax & Heq).
  rewrite Heq in Hffts. fold Tn T in Hffts.
  destruct (Z.ltb_spec T s_w) as [|Hle]; [discriminate|].
  injection Hffts as <- <- <-.
  pose proof (kernel_bounds morlet_multi s time_axis samplerate Hwf s_w
                Hmax w Hw) as [H1 H2].
  fold wavelet in H1, H2.
  assert (nth w (map (fun wavelet : list C =>
                        Z.of_nat (length wavelet) + T - 1)
                     (bank morlet_multi s samplerate)) 0
          = Z.of_nat (length wavelet) + T - 1) as Hcs.
  { rewrite (nth_indep _ 0 (Z.of_nat (length (@nil C)) + T - 1))
      by (rewrite length_map; exact Hw).
    apply (map_nth (fun wavelet : list C =>
                      Z.of_nat (length wavelet) + T - 1)). }
  assert (nth w (map (fun wavelet : list C =>
                        fft wavelet (2 ^ next_pow2 (s_w + T - 1)))
                     (bank morlet_multi s samplerate)) []
          = fft wavelet (2 ^ next_pow2 (s_w + T - 1))) as Hwf'.
  { rewrite (nth_indep _ [] (fft [] (2 ^ next_pow2 (s_w + T - 1))))
      by (rewrite length_map; exact Hw).
    apply (map_nth (fun wavelet : list C =>
                      fft wavelet (2 ^ next_pow2 (s_w + T - 1)))). }
  subst start stop. rewrite Hcs, Hwf'.
  set (L := Z.of_nat (length wavelet)) in *.
  set (P := 2 ^ next_pow2 (s_w + T - 1)).
  pose proof (next_pow2_ge (s_w + T - 1)) as HP. fold P in HP.
  assert (start_offset (L + T - 1) T = (L - 1) / 2) as Hstart.
  { unfold start_offset. f_equal. lia. }
  assert (0 <= (L - 1) / 2 <= L - 1) as Hhalf.
  { split; [apply Z.div_pos; lia|].
    apply Z.div_le_upper_bound; lia. }
  unfold end_offset. rewrite Hstart.
  assert (forall signal,
             length signal = Tn ->
             Py.slice
               (ifft (zip_with Cmul (fft wavelet P) (fft signal P)))
               ((L - 1) / 2) ((L - 1) / 2 + T)
             = Py.slice (linear_convolution wavelet signal)
                 ((L - 1) / 2) ((L - 1) / 2 + T)
             /\ length (Py.slice (linear_convolution wavelet signal)
                          ((L - 1) / 2) ((L - 1) / 2 + T)) = Tn)
    as Hconv.
  { intros signal Hlen.
    assert (length wavelet + length signal - 1 <= Z.to_nat P)%nat as Hfit
      by (rewrite Hlen; unfold L, T in *; lia).
    assert (length (linear_convolution wavelet signal)
            = (length wavelet + length signal - 1)%nat) as Hlc.
    { unfold linear_convolution. rewrite length_map, length_seq.
      reflexivity. }
    split.
    - rewrite (slice_firstn _ (length wavelet + length signal - 1)).
      + rewrite fft_convolution; [reflexivity | | | exact Hfit];
          unfold L, T in *; lia.
      + rewrite ifft_length, zip_with_Cmul_length; rewrite !fft_length;
          [exact Hfit | reflexivity].
      + lia.
      + lia.
      + rewrite Hlen. unfold L, T in *. lia.
    - rewrite slice_length; [unfold T; lia | lia | lia |].
      rewrite Hlc, Hlen. unfold L, T in *. lia. }
  split; [reflexivity|]. split; [exact Hconv|].
  intros idx Hlast. unfold coefficients. cbv zeta. fold wavelet T L.
  rewrite Hstart. unfold end_offset. rewrite Hstart.
  f_equal. apply Hconv.
  rewrite getrow_length. exact Hlast.
Qed.

(** ** The items of the labelled outputs *)







(** * The claims on the small input *)

Lemma Example_well_formed :
  well_formed Example.morlet_multi Example.flt Example.time_axis 2.
Proof.
  constructor.
  - reflexivity.
  - discriminate.
  - exists (mk_coord [] [2%R]). split; reflexivity.
  - reflexivity.
  - discriminate.
  - repeat constructor.
  - reflexivity.
  - intros _. repeat constructor; eexists; reflexivity.
Defined.

Lemma Example_resampling_well_formed :
  well_formed Example.morlet_multi (self Example.st_resampling)
    Example.time_axis 2.
Proof.
  constructor.
  - reflexivity.
  - discriminate.
  - exists (mk_coord [] [2%R]). split; reflexivity.
  - reflexivity.
  - discriminate.
  - repeat constructor.
  - reflexivity.
  - intros _. repeat constructor; eexists; reflexivity.
Defined.

Lemma Example_no_time_among_leading :
  ~ In "time" (removelast (dims (time_series Example.flt))).
Proof. simpl. intros [H|[H|[]]]; discriminate H. Defined.

Lemma Example_no_frequency_among_leading :
  ~ In "frequency" (removelast (dims (time_series Example.flt))).
Proof. simpl. intros [H|[H|[]]]; discriminate H. Defined.

(** The small input is valid, and both outputs have two time samples. *)
Lemma C1_witness :
  well_formed Example.morlet_multi (self Example.st) Example.time_axis 2
  /\ Py.max (kernel_lengths (bank Example.morlet_multi (self Example.st) 2))
     = Ok 2
  /\ 2 <= Z.of_nat (length (coord_values Example.time_axis))
  /\ exists pow phase st',
       filter Example.morlet_multi Example.to_complex64 Example.wall_clock
         Example.st
       = (Ok (Some (pow, phase)), st')
       /\ forall x, pow = Some x \/ phase = Some x ->
                    dim_size x "time" = Ok 2%nat.
Proof.
  split; [exact Example_well_formed|].
  split; [reflexivity|].
  split; [simpl; lia|].
  destruct (C1_trim_keeps_time_length Example.morlet_multi
              Example.to_complex64
              Example.wall_clock Example.st Example.time_axis 2 2
              Example_well_formed eq_refl ltac:(simpl; lia))
    as (wfa & csa & P & arrays & _ & _ & _ & _ & _ & H).
  destruct (H eq_refl Example_no_time_among_leading eq_refl)
    as (pow & phase & st' & Hf & _ & _ & Hx).
  exists pow, phase, st'. split; [exact Hf | exact Hx].
Defined.

(** On the small input the time axis is exactly as long as the longest
    kernel, and [filter] returns. *)
Lemma C2_witness :
  well_formed Example.morlet_multi (self Example.st) Example.time_axis 2
  /\ Py.max (kernel_lengths (bank Example.morlet_multi (self Example.st) 2))
     = Ok 2
  /\ exists out st',
       filter Example.morlet_multi Example.to_complex64 Example.wall_clock
         Example.st
       = (Ok out, st').
Proof.
  split; [exact Example_well_formed|].
  split; [reflexivity|].
  destruct (C2_fails_iff_kernel_longer Example.morlet_multi
              Example.to_complex64
              Example.wall_clock Example.st Example.time_axis 2 2
              Example_well_formed eq_refl)
    as (_ & H & _).
  apply H. simpl. lia.
Defined.

(** On the small input the requested position -1 of four dims is index 3. *)
Lemma C4_witness :
  well_formed Example.morlet_multi (self Example.st) Example.time_axis 2
  /\ Py.max (kernel_lengths (bank Example.morlet_multi (self Example.st) 2))
     = Ok 2
  /\ 2 <= Z.of_nat (length (coord_values Example.time_axis))
  /\ isinstance_DataArray (time_series (self Example.st)) = true
  /\ ~ In "frequency" (removelast (dims (time_series (self Example.st))))
  /\ exists pow phase st',
       filter Example.morlet_multi Example.to_complex64 Example.wall_clock
         Example.st
       = (Ok (Some (pow, phase)), st')
       /\ frequency_dim_pos (self st') = 3
       /\ forall x, pow = Some x \/ phase = Some x ->
                    nth_error (dims x) 3 = Some "frequency".
Proof.
  split; [exact Example_well_formed|].
  split; [reflexivity|].
  split; [simpl; lia|].
  split; [reflexivity|].
  split; [exact Example_no_frequency_among_leading|].
  destruct (C4_frequency_axis_position Example.morlet_multi
              Example.to_complex64
              Example.wall_clock Example.st Example.time_axis 2 2
              Example_well_formed eq_refl ltac:(simpl; lia) eq_refl
              Example_no_frequency_among_leading)
    as (pow & phase & st' & Hf & Hpos & H).
  exists pow, phase, st'. split; [exact Hf|]. split; [exact Hpos|].
  intros x Hx. apply (H x Hx).
Defined.

(** The [output] of the small input is the default empty string, and both
    outputs are returned. *)
Lemma C5_witness :
  output Example.flt <> "power"
  /\ output Example.flt <> "phase"
  /\ exists pow phase st',
       filter Example.morlet_multi Example.to_complex64 Example.wall_clock
         Example.st
       = (Ok (Some (Some pow, Some phase)), st').
Proof.
  split; [discriminate|]. split; [discriminate|].
  destruct (C5_other_output_computes_both Example.morlet_multi
              Example.to_complex64 Example.wall_clock Example.time_series
              (mk_kwds (Some [10%R]) None None (Some (-1)) None)
              [] O Example.time_axis 2 2
              ltac:(discriminate) ltac:(discriminate) Example_well_formed
              eq_refl ltac:(simpl; lia) eq_refl)
    as (_ & _ & _ & a & b & pow & phase & st' & Hf & _).
  exists pow, phase, st'. exact Hf.
Defined.

(** On the small input the convolution size is 3, padded to 4. *)
Lemma C6_witness :
  well_formed Example.morlet_multi Example.flt Example.time_axis 2
  /\ exists wavelet_fft_array convolution_size_array,
       compute_wavelet_ffts Example.morlet_multi Example.flt
       = Ok (wavelet_fft_array, convolution_size_array, 4)
       /\ nth 0 convolution_size_array 0 = 3.
Proof.
  split; [exact Example_well_formed|].
  destruct (C6_wavelet_bank_lengths Example.morlet_multi Example.flt
              Example.time_axis 2 2 Example_well_formed eq_refl
              ltac:(simpl; lia))
    as (wfa & csa & P & Heq & HP & _ & _ & _ & _ & _ & Hw).
  exists wfa, csa. rewrite Heq, HP. split; [reflexivity|].
  apply (Hw O). simpl. lia.
Defined.

(** On the small input with a resampling rate attached, the outputs carry
    the original time axis. *)
Lemma C7_witness :
  well_formed Example.morlet_multi (self Example.st_resampling)
    Example.time_axis 2
  /\ exists pow phase st',
       filter Example.morlet_multi Example.to_complex64 Example.wall_clock
         Example.st_resampling
       = (Ok (Some (pow, phase)), st')
       /\ forall x, pow = Some x \/ phase = Some x ->
                    coords x !! "time" = Some Example.time_axis.
Proof.
  split; [exact Example_resampling_well_formed|].
  apply (C7_time_axis_is_original Example.morlet_multi
           Example.to_complex64
           Example.wall_clock Example.st_resampling Example.time_axis 2 2
           Example_resampling_well_formed eq_refl ltac:(simpl; lia) eq_refl).
Defined.



Lemma Example_verbose_well_formed :
  well_formed Example.morlet_multi (set_verbose true Example.flt)
    Example.time_axis 2.
Proof.
  constructor.
  - reflexivity.
  - discriminate.
  - exists (mk_coord [] [2%R]). split; reflexivity.
  - reflexivity.
  - discriminate.
  - repeat constructor.
  - reflexivity.
  - intros _. repeat constructor; eexists; reflexivity.
Defined.

(** On the small input with [verbose] set, [filter] returns and prints the
    one timing line; its value is the one of the silent run. *)
Lemma C8_witness :
  is_Ok (fst (filter Example.morlet_multi Example.to_complex64
                Example.wall_clock
                (mk_state (set_verbose true Example.flt) [] 0)))
  /\ stdout (snd (filter Example.morlet_multi Example.to_complex64
                    Example.wall_clock
                    (mk_state (set_verbose true Example.flt) [] 0)))
     = [Printed "total time wavelet loop: " (INR 1 - INR 0)]
  /\ fst (filter Example.morlet_multi Example.to_complex64
            Example.wall_clock
            (mk_state (set_verbose true Example.flt) [] 0))
     = fst (filter Example.morlet_multi Example.to_complex64
              Example.wall_clock
              (mk_state (set_verbose false Example.flt) [] 0)).
Proof.
  assert (is_Ok (fst (filter Example.morlet_multi Example.to_complex64
                        Example.wall_clock
                        (mk_state (set_verbose true Example.flt) [] 0))))
    as Hok.
  { destruct (filter_both_outputs Example.morlet_multi Example.to_complex64
                Example.wall_clock
                (mk_state (set_verbose true Example.flt) [] 0)
                Example.time_axis 2 2 Example_verbose_well_formed eq_refl
                ltac:(simpl; lia) eq_refl ltac:(discriminate)
                ltac:(discriminate))
      as (a & b & pow & phase & -> & _).
    exact I. }
  destruct (C8_verbose_only_prints Example.morlet_multi Example.to_complex64
              Example.wall_clock Example.st)
    as (Hval & _ & _ & Hline).
  split; [exact Hok|]. split; [exact (Hline Hok) | exact Hval].
Defined.

(** Counterexample to C7 as stated.  A resampling rate of 1 is attached to
    the filter and the resampler answers with a one-sample time axis, which
    is what [resample_time_axis] hands out; the outputs of [filter] carry
    the original two-sample time axis, not the resampled one. *)
Lemma C7_counterexample :
  resamplerate (self Example.st_resampling) = Some 1%R
  /\ (0 < 1)%R
  /\ resample_time_axis Example.ResampleFilter (self Example.st_resampling)
     = Ok (mk_coord ["time"] [0%R], Example.time_axis)
  /\ exists pow phase st',
       filter Example.morlet_multi Example.to_complex64 Example.wall_clock
         Example.st_resampling
       = (Ok (Some (Some pow, Some phase)), st')
       /\ coords pow !! "time" = Some Example.time_axis
       /\ coords phase !! "time" = Some Example.time_axis
       /\ coords pow !! "time" <> Some (mk_coord ["time"] [0%R])
       /\ coords phase !! "time" <> Some (mk_coord ["time"] [0%R]).
Proof.
  split; [reflexivity|]. split; [lra|]. split.
  - unfold resample_time_axis. simpl resamplerate. cbv beta iota.
    destruct (Rlt_dec 0 1) as [_|H]; [|exfalso; apply H; lra].
    reflexivity.
  - destruct (filter_both_outputs Example.morlet_multi Example.to_complex64
                Example.wall_clock Example.st_resampling Example.time_axis
                2 2 Example_resampling_well_formed eq_refl
                ltac:(simpl; lia) eq_refl ltac:(discriminate)
                ltac:(discriminate))
      as (a & b & pow & phase & Hf & Hp & Hph & _).
    assert (coords pow !! "time" = Some Example.time_axis) as Hpt
      by apply Hp.
    assert (coords phase !! "time" = Some Example.time_axis) as Hpht
      by apply Hph.
    eexists pow, phase, _. split; [exact Hf|].
    split; [exact Hpt|]. split; [exact Hpht|].
    rewrite Hpt, Hpht. unfold Example.time_axis.
    split; intros H; discriminate H.
Qed.

(** One sample short: the exception and its message, and the untouched
    state. *)
Lemma Example_too_short :
  filter Example.morlet_multi_long Example.to_complex64 Example.wall_clock
    Example.st
  = (Raise (ValueError
              "Time series length (l_ts=2) is shorter than maximum wavelet length (l_w=3). Please use longer time series or increase lowest wavelet frequency "),
     Example.st).
Proof.
  assert (well_formed Example.morlet_multi_long Example.flt
            Example.time_axis 2) as Hwf.
  { constructor.
    - reflexivity.
    - discriminate.
    - exists (mk_coord [] [2%R]). split; reflexivity.
    - reflexivity.
    - discriminate.
    - repeat constructor; simpl; lia.
    - reflexivity.
    - intros _. repeat constructor; eexists; reflexivity. }
  rewrite (filter_too_short Example.morlet_multi_long Example.to_complex64
             Example.wall_clock Example.st Example.time_axis 2 3 Hwf eq_refl)
    by (simpl; lia).
  reflexivity.
Qed.

(** Counterexample to C3 as stated.  The coefficient [1 + 1j] is held
    exactly by the complex64 buffer.  In single precision its modulus is
    the float32 next to the square root of 2, [11863283 / 2^23], whose
    square rounds to [16777215 / 2^23], just below 2: this is the power
    [compute_power] returns.  [compute_power_and_phase] returns
    [1 * 1 + 1 * 1], which is 2 exactly.  The power of the "both" mode is
    not the power of the 'power' mode. *)
Lemma C3_counterexample :
  Float.complex64 (1, 1)%R = (1, 1)%R
  /\ fst (Single.compute_power [(1, 1)%R])
     = Some [(16777215 / 8388608)%R]
  /\ fst (Single.compute_power_and_phase [(1, 1)%R]) = Some [2%R]
  /\ fst (Single.compute_power_and_phase [(1, 1)%R])
     <> fst (Single.compute_power [(1, 1)%R]).
Proof.
  assert (fst (Single.compute_power [(1, 1)%R])
          = Some [(16777215 / 8388608)%R]) as Hpow.
  { unfold Single.compute_power, Single.square, Single.np_abs, np_abs.
    simpl.
    replace (1 * 1 + 1 * 1)%R with 2%R by ring.
    rewrite float32_sqrt_2, float32_near_2. reflexivity. }
  assert (fst (Single.compute_power_and_phase [(1, 1)%R]) = Some [2%R])
    as Hboth.
  { unfold Single.compute_power_and_phase, Single.square. simpl.
    replace (1 * 1)%R with 1%R by ring.
    rewrite float32_1.
    replace (1 + 1)%R with 2%R by ring.
    rewrite float32_2. reflexivity. }
  split.
  { unfold Float.complex64. simpl. rewrite float32_1. reflexivity. }
  split; [exact Hpow|]. split; [exact Hboth|].
  rewrite Hpow, Hboth. intros [= H]. lra.
Qed.



(** * The further properties on small inputs *)

(** A series without channels yields no signal; a series of one axis
    yields its two samples as the one signal. *)
Lemma X2_witness :
  In O (removelast (shape Example.no_channel_series))
  /\ get_data_iterator
       (init Example.no_channel_series (mk_kwds None None None None None))
     = []
  /\ shape Example.single_signal = [2%nat]
  /\ get_data_iterator
       (init Example.single_signal (mk_kwds None None None None None))
     = [([], map (fun t => nd_item (values Example.single_signal) [t])
                 (seq 0 2))].
Proof.
  split; [left; reflexivity|].
  split.
  - apply (proj1 (X2_iterator_edge_shapes Example.to_complex64
                    (init Example.no_channel_series
                       (mk_kwds None None None None None)))).
    left. reflexivity.
  - split; [reflexivity|].
    apply (proj2 (X2_iterator_edge_shapes Example.to_complex64
                    (init Example.single_signal
                       (mk_kwds None None None None None))) 2%nat).
    reflexivity.
Defined.

(** Writing the row (1, 2) at index 0 of an empty 1 x 2 array, and at
    index 1, which it does not have. *)
Lemma X4_witness :
  (exists a',
      store [O] (Some (np_empty [1; 2]%nat)) (Some [1; 2]%R) = Ok (Some a')
      /\ getrow a' [O] = [Some 1%R; Some 2%R])
  /\ store [1%nat] (Some (np_empty [1; 2]%nat)) (Some [1; 2]%R)
     = Raise (IndexError "index is out of bounds").
Proof.
  split.
  - destruct (X4_store_writes_one_row [O] (np_empty [1; 2]%nat) [1; 2]%R)
      as (_ & _ & _ & H & _).
    destruct (H eq_refl eq_refl) as (a' & Hs & _ & Hr & _).
    exists a'. split; [exact Hs | exact Hr].
  - destruct (X4_store_writes_one_row [1%nat] (np_empty [1; 2]%nat)
                [1; 2]%R)
      as (_ & _ & H & _).
    apply H; reflexivity.
Defined.

(** With a rate of -1 attached, both components are the time axis of the
    small input. *)
Lemma X5_witness :
  resamplerate (set_resamplerate (Some (-1)%R) Example.flt)
  = Some (-1)%R
  /\ resample_time_axis Example.ResampleFilter
       (set_resamplerate (Some (-1)%R) Example.flt)
     = Ok (Example.time_axis, Example.time_axis).
Proof.
  split; [reflexivity|].
  destruct (proj2 (X5_resample_time_axis Example.ResampleFilter)
              (set_resamplerate (Some (-1)%R) Example.flt) (-1)%R eq_refl)
    as (_ & Hle & _).
  rewrite Hle by lra. reflexivity.
Defined.

(** The small input with a bank that has no kernel. *)
Lemma X6_witness :
  exists msg,
    compute_wavelet_ffts (fun _ _ _ => []) Example.flt
    = Raise (ValueError msg).
Proof.
  destruct (X6_compute_wavelet_ffts_errors (fun _ _ _ => []) Example.flt)
    as (_ & _ & H).
  destruct (H (mk_coord [] [2%R]) 2%R eq_refl eq_refl) as [Hempty _].
  apply Hempty. reflexivity.
Defined.

(** The small input with kernels one sample too long: the state is the
    one [filter] was called in. *)
Lemma X7_witness :
  filter Example.morlet_multi_long Example.to_complex64 Example.wall_clock
    Example.st
  = (Raise (ValueError_too_short 2 3), Example.st).
Proof.
  destruct (X7_filter_fails_before_clock Example.morlet_multi_long
              Example.to_complex64 Example.wall_clock Example.st)
    as (_ & _ & H & _).
  apply (H Example.time_axis 2%nat); reflexivity.
Defined.

(** The outputs of the small input: one channel, one event, one
    frequency, two time samples. *)
Lemma X9_witness :
  exists pow phase,
    fst (filter Example.morlet_multi Example.to_complex64
           Example.wall_clock Example.st)
    = Ok (Some (pow, phase))
    /\ forall x, pow = Some x \/ phase = Some x ->
         length (shape x) = 4%nat
         /\ dim_size x "channels" = Ok 1%nat
         /\ dim_size x "events" = Ok 1%nat
         /\ dim_size x "frequency" = Ok 1%nat
         /\ dim_size x "time" = Ok 2%nat.
Proof.
  destruct (X9_output_extents Example.morlet_multi Example.to_complex64
              Example.wall_clock Example.st Example.time_axis 2 2
              Example_well_formed eq_refl ltac:(simpl; lia) eq_refl eq_refl)
    as (pow & phase & Hf & H).
  exists pow, phase. split; [exact Hf|].
  intros x Hx. destruct (H x Hx) as (Hrank & _ & Hd).
  split; [exact Hrank|].
  split; [apply (Hd "channels" O); reflexivity|].
  split; [apply (Hd "events" 1%nat); reflexivity|].
  split; [apply (Hd "frequency" 2%nat); reflexivity|].
  apply (Hd "time" 3%nat); reflexivity.
Defined.

(** The outputs of the small input carry its sample rate and the
    coordinate of its events, and no offsets, as it has none. *)
Lemma X10_witness :
  exists pow phase,
    fst (filter Example.morlet_multi Example.to_complex64
           Example.wall_clock Example.st)
    = Ok (Some (pow, phase))
    /\ forall x, pow = Some x \/ phase = Some x ->
         coords x !! "samplerate" = Some (mk_coord [] [2%R])
         /\ coords x !! "events" = Some (mk_coord ["events"] [0%R])
         /\ coords x !! "offsets" = None.
Proof.
  destruct (filter_DataArray Example.morlet_multi Example.to_complex64
              Example.wall_clock Example.st Example.time_axis 2 2
              Example_well_formed eq_refl ltac:(simpl; lia) eq_refl)
    as (arrays & pow & phase & _ & Hf & _).
  assert (fst (filter Example.morlet_multi Example.to_complex64
                 Example.wall_clock Example.st)
          = Ok (Some (pow, phase))) as Hfst
    by (rewrite Hf; reflexivity).
  exists pow, phase. split; [exact Hfst|].
  intros x Hx.
  destruct (X10_output_coordinates Example.morlet_multi
              Example.to_complex64 Example.wall_clock Example.st pow phase
              Hfst x Hx)
    as (_ & _ & Hsr & _ & Hoff & Hrest).
  split; [exact Hsr|]. split; [|exact Hoff].
  destruct (Hrest "events") as [Hin _]; try discriminate.
  apply Hin. right. left. reflexivity.
Defined.


(** On the small input the kernel has two samples, the window starts at
    0 and holds the first two samples of the linear convolution. *)
Lemma X13_witness :
  exists wavelet_fft_array convolution_size_array,
    compute_wavelet_ffts Example.morlet_multi Example.flt
    = Ok (wavelet_fft_array, convolution_size_array, 4)
    /\ forall signal,
         length signal = 2%nat ->
         Py.slice
           (ifft (zip_with Cmul (nth 0 wavelet_fft_array [])
                           (fft signal 4)))
           0 2
         = Py.slice (linear_convolution Example.wavelet signal) 0 2.
Proof.
  pose proof (compute_wavelet_ffts_run Example.morlet_multi Example.st
                Example.time_axis 2 2 Example_well_formed eq_refl)
    as Hffts.
  eexists _, _. split; [exact Hffts|].
  intros signal Hlen.
  destruct (X13_fft_convolution_is_linear Example.morlet_multi
              Example.to_complex64 Example.flt Example.time_axis 2 _ _ _ O
              Example_well_formed Hffts ltac:(simpl; lia))
    as (_ & Hconv & _).
  apply (Hconv signal Hlen).
Defined.



(** On the small input, which has four output dims, position 3 gives
    what position -1 gives. *)
Lemma X15_witness :
  3 mod 4 = (-1) mod 4
  /\ fst (filter Example.morlet_multi Example.to_complex64
            Example.wall_clock
            (mk_state (set_frequency_dim_pos 3 Example.flt) [] 0))
     = fst (filter Example.morlet_multi Example.to_complex64
              Example.wall_clock Example.st).
Proof.
  split; [reflexivity|].
  apply (X15_position_modulo_rank Example.morlet_multi
           Example.to_complex64 Example.wall_clock Example.st 3).
  reflexivity.
Defined.

(** The small input asks for both outputs; they are aligned. *)
Lemma X16_witness :
  exists pow phase,
    fst (filter Example.morlet_multi Example.to_complex64
           Example.wall_clock Example.st)
    = Ok (Some (Some pow, Some phase))
    /\ dims pow = dims phase
    /\ shape pow = shape phase
    /\ coords pow = coords phase
    /\ attrs pow = attrs phase.
Proof.
  destruct (filter_both_outputs Example.morlet_multi Example.to_complex64
              Example.wall_clock Example.st Example.time_axis 2 2
              Example_well_formed eq_refl ltac:(simpl; lia) eq_refl
              ltac:(discriminate) ltac:(discriminate))
    as (a & b & pow & phase & Hf & _).
  assert (fst (filter Example.morlet_multi Example.to_complex64
                 Example.wall_clock Example.st)
          = Ok (Some (Some pow, Some phase))) as Hfst
    by (rewrite Hf; reflexivity).
  exists pow, phase. split; [exact Hfst|].
  apply (X16_outputs_aligned Example.morlet_multi Example.to_complex64
           Example.wall_clock Example.st pow phase Hfst).
Defined.
